(** * mdcal: markdown events to iCal and HTML

    A shallow embedding of [mdcal.py] and the properties of its date
    resolver, tag extractor, event extractor and the two renderers.

    Text.  A Python [str] is modelled as a list of characters, [str]; a
    character is a Unicode code point.  The whitespace test is
    [str.isspace], which [str.strip] and the regular-expression class
    [\s] use, and the class [\d] is the decimal digits of every script,
    both as the Unicode Character Database 14.0 of CPython 3.11 has them.

    Exceptions.  A call that may raise returns [res]: [Ok v] or [Err e]. *)

From Stdlib Require Import Ascii String List Arith NArith ZArith Bool Lia.
From Stdlib Require Import Permutation Sorted.
Import ListNotations.

(** ** Exceptions *)

Inductive exn : Set := ValueError | IndexError | OverflowError.

Inductive res (A : Type) : Type :=
| Ok (a : A)
| Err (e : exn).
Arguments Ok {A} a.
Arguments Err {A} e.

Definition bind {A B : Type} (r : res A) (k : A -> res B) : res B :=
  match r with
  | Ok a => k a
  | Err e => Err e
  end.

Notation "x <- r ;; k" := (bind r (fun x => k))
  (at level 61, r at next level, right associativity).

(** ** Python strings *)

(** A character: a Unicode code point. *)
Definition char : Set := N.
Bind Scope char_scope with char.

Definition str := list char.

(** A character below 256, written as a literal. *)
Definition ch (a : ascii) : char := N_of_ascii a.
Coercion ch : ascii >-> char.

(** A literal of the source. *)
Definition lit (s : string) : str := map ch (list_ascii_of_string s).

Module Char.

(** [a == b] on characters *)
Definition eqb (a b : char) : bool := N.eqb a b.

End Char.

Module PyStr.

(** [ord(c)] *)
Definition code (c : char) : N := c.

Definition between (lo hi : N) (c : char) : bool :=
  (lo <=? code c)%N && (code c <=? hi)%N.

(** [str.isspace] on one character: TAB..CR, FS..US, space, NEL, NBSP,
    and beyond Latin-1 the Ogham space mark, EN QUAD..HAIR SPACE, the
    line and paragraph separators, the narrow no-break space, the medium
    mathematical space and the ideographic space. *)
Definition isspace (c : char) : bool :=
  between 9 13 c || between 28 32 c || (code c =? 133)%N ||
  (code c =? 160)%N || (code c =? 5760)%N || between 8192 8202 c ||
  between 8232 8233 c || (code c =? 8239)%N || (code c =? 8287)%N ||
  (code c =? 12288)%N.

(** The digit zero of every script that has decimal digits; the nine
    code points after each are its digits one to nine. *)
Definition decimal_zeros : list N :=
  [48; 1632; 1776; 1984; 2406; 2534; 2662; 2790; 2918; 3046; 3174; 3302;
   3430; 3558; 3664; 3792; 3872; 4160; 4240; 6112; 6160; 6470; 6608; 6784;
   6800; 6992; 7088; 7232; 7248; 42528; 43216; 43264; 43472; 43504; 43600;
   44016; 65296; 66720; 68912; 69734; 69872; 69942; 70096; 70384; 70736;
   70864; 71248; 71360; 71472; 71904; 72016; 72784; 73040; 73120; 92768;
   92864; 93008; 120782; 120792; 120802; 120812; 120822; 123200; 123632;
   125264; 130032]%N.

(** [unicodedata.decimal]: the value of a decimal digit of any script. *)
Definition decimal (c : char) : option N :=
  match
    find (fun z => (z <=? code c)%N && (code c <=? z + 9)%N) decimal_zeros
  with
  | Some z => Some (code c - z)%N
  | None => None
  end.

(** [str.isdecimal] on one character, the class [\d] of [re]. *)
Definition isdecimal (c : char) : bool :=
  match decimal c with
  | Some _ => true
  | None => false
  end.

(** Truth value of a string: non-empty. *)
Definition truthy (s : str) : bool :=
  match s with
  | [] => false
  | _ :: _ => true
  end.

Fixpoint lstrip_by (p : char -> bool) (s : str) : str :=
  match s with
  | [] => []
  | c :: s' => if p c then lstrip_by p s' else s
  end.

Fixpoint rstrip_by (p : char -> bool) (s : str) : str :=
  match s with
  | [] => []
  | c :: s' =>
      match rstrip_by p s' with
      | [] => if p c then [] else [c]
      | r => c :: r
      end
  end.

(** [s.strip()] *)
Definition strip (s : str) : str := rstrip_by isspace (lstrip_by isspace s).

(** [s.lstrip(c)] for a one-character argument *)
Definition lstrip_char (c : char) (s : str) : str := lstrip_by (Char.eqb c) s.

(** [s.startswith(prefix)] *)
Fixpoint startswith (s prefix : str) : bool :=
  match prefix with
  | [] => true
  | p :: prefix' =>
      match s with
      | [] => false
      | c :: s' => Char.eqb c p && startswith s' prefix'
      end
  end.

(** [c in s] for a one-character [c] *)
Definition contains (c : char) (s : str) : bool := existsb (Char.eqb c) s.

(** [s.split(sep)] for a one-character separator: never empty. *)
Fixpoint split (sep : char) (s : str) : list str :=
  match s with
  | [] => [[]]
  | c :: s' =>
      if Char.eqb c sep then [] :: split sep s'
      else match split sep s' with
           | [] => [[c]]
           | p :: ps => (c :: p) :: ps
           end
  end.

(** [s.replace(old, new)] for a one-character [old] *)
Definition replace (old : char) (new : str) (s : str) : str :=
  flat_map (fun c => if Char.eqb c old then new else [c]) s.

(** [sep.join(parts)] *)
Fixpoint join (sep : str) (parts : list str) : str :=
  match parts with
  | [] => []
  | [p] => p
  | p :: ps => p ++ sep ++ join sep ps
  end.

(** The whitespace [int] skips around a literal: of the ASCII characters
    only TAB..CR and the space, and every other [isspace] character. *)
Definition int_space (c : char) : bool :=
  isspace c && negb (between 28 31 c).

Fixpoint digits_value (acc : Z) (s : str) : option Z :=
  match s with
  | [] => Some acc
  | c :: s' =>
      match decimal c with
      | Some v => digits_value (10 * acc + Z.of_N v)%Z s'
      | None => None
      end
  end.

(** [int(s)] on an unsigned decimal literal, its digits of any script,
    surrounding whitespace allowed; [None] is the [ValueError] of a
    malformed literal. *)
Definition py_int (s : str) : option Z :=
  match rstrip_by int_space (lstrip_by int_space s) with
  | [] => None
  | t => digits_value 0%Z t
  end.

End PyStr.

(** ** Regular expressions

    The fragment of [re] the program uses, with the matching order of a
    backtracking engine: [rmatch r s] lists, most preferred first, every
    way [r] can match a prefix of [s], as the pair of the matched text
    and the text left over. *)

Module Re.

Inductive regex : Type :=
| Chr (p : char -> bool)      (* one character of a class *)
| Seq (r1 r2 : regex)          (* r1 r2 *)
| Alt (r1 r2 : regex)          (* r1|r2, left alternative first *)
| Plus (p : char -> bool).    (* [class]+, greedy *)

Definition push (c : char) (m : str * str) : str * str := (c :: fst m, snd m).

(** Zero or more characters of a class, longest run first. *)
Fixpoint many (p : char -> bool) (s : str) : list (str * str) :=
  match s with
  | [] => [([], s)]
  | c :: s' => if p c then map (push c) (many p s') ++ [([], s)] else [([], s)]
  end.

Fixpoint rmatch (r : regex) (s : str) : list (str * str) :=
  match r with
  | Chr p =>
      match s with
      | c :: s' => if p c then [([c], s')] else []
      | [] => []
      end
  | Seq r1 r2 =>
      flat_map (fun m1 =>
        map (fun m2 => (fst m1 ++ fst m2, snd m2)) (rmatch r2 (snd m1)))
        (rmatch r1 s)
  | Alt r1 r2 => rmatch r1 s ++ rmatch r2 s
  | Plus p =>
      match s with
      | c :: s' => if p c then map (push c) (many p s') else []
      | [] => []
      end
  end.

(** [re.match(r, s)] as a truth value *)
Definition matches (r : regex) (s : str) : bool :=
  match rmatch r s with
  | [] => false
  | _ :: _ => true
  end.

(** [re.findall] for an expression that never matches the empty string:
    the non-overlapping matches, scanning left to right.  [skip] counts
    the characters of the current match still to be passed over. *)
Fixpoint findall_from (r : regex) (s : str) (skip : nat) : list str :=
  match s with
  | [] => []
  | _ :: s' =>
      match skip with
      | S k => findall_from r s' k
      | 0 =>
          match rmatch r s with
          | [] => findall_from r s' 0
          | (m, _) :: _ => m :: findall_from r s' (length m - 1)
          end
      end
  end.

Definition findall (r : regex) (s : str) : list str := findall_from r s 0.

Definition is_char (a c : char) : bool := (PyStr.code c =? PyStr.code a)%N.

Definition one (c : char) : regex := Chr (is_char c).
Definition range (lo hi : char) : regex :=
  Chr (PyStr.between (PyStr.code lo) (PyStr.code hi)).
Definition digit : regex := Chr PyStr.isdecimal. (* \d *)
Definition space : regex := Chr PyStr.isspace.   (* \s *)

(** The language of an expression: the texts it can match. *)
Fixpoint lang (r : regex) (m : str) : Prop :=
  match r with
  | Chr p => exists c, m = [c] /\ p c = true
  | Seq r1 r2 => exists m1 m2, m = m1 ++ m2 /\ lang r1 m1 /\ lang r2 m2
  | Alt r1 r2 => lang r1 m \/ lang r2 m
  | Plus p => m <> [] /\ forallb p m = true
  end.

End Re.

(** ** Calendar dates

    [strptime] with the format [%d.%m.%Y] returns a [datetime] at
    midnight; the program only ever uses its date part. *)

Module Dates.

Local Open Scope Z_scope.

Record date : Set := mkdate { year : Z; month : Z; day : Z }.

Definition is_leap (y : Z) : bool :=
  (y mod 4 =? 0) && (negb (y mod 100 =? 0) || (y mod 400 =? 0)).

Definition days_in_month (y m : Z) : Z :=
  match m with
  | 1 | 3 | 5 | 7 | 8 | 10 | 12 => 31
  | 4 | 6 | 9 | 11 => 30
  | 2 => if is_leap y then 29 else 28
  | _ => 0
  end.

(** What the [date] constructor accepts: MINYEAR = 1, MAXYEAR = 9999. *)
Definition valid_ymd (y m d : Z) : bool :=
  (1 <=? y) && (y <=? 9999) && (1 <=? m) && (m <=? 12) &&
  (1 <=? d) && (d <=? days_in_month y m).

Definition valid_date (d : date) : bool := valid_ymd (year d) (month d) (day d).

Definition date_eqb (a b : date) : bool :=
  (year a =? year b) && (month a =? month b) && (day a =? day b).

(** [a <= b] on dates *)
Definition date_leb (a b : date) : bool :=
  (year a <? year b) ||
  ((year a =? year b) &&
   ((month a <? month b) || ((month a =? month b) && (day a <=? day b)))).

(** Days before 1 January of year [y], counted from 1 January of year 1. *)
Definition days_before_year (y : Z) : Z :=
  let p := y - 1 in p * 365 + p / 4 - p / 100 + p / 400.

(** Days of year [y] before the first day of month [m]. *)
Definition days_before_month (y m : Z) : Z :=
  fold_right Z.add 0
    (map (days_in_month y) (map Z.of_nat (seq 1 (Z.to_nat (m - 1))))).

(** [date.toordinal()]: 1 January of year 1 is day 1. *)
Definition toordinal (d : date) : Z :=
  days_before_year (year d) + days_before_month (year d) (month d) + day d.

(** [d + timedelta(days=1)]; past 31 December 9999 it raises. *)
Definition add_one_day (d : date) : res date :=
  if day d <? days_in_month (year d) (month d) then
    Ok (mkdate (year d) (month d) (day d + 1))
  else if month d <? 12 then
    Ok (mkdate (year d) (month d + 1) 1)
  else if year d <? 9999 then
    Ok (mkdate (year d + 1) 1 1)
  else Err OverflowError.

(** The expression [strptime] compiles [%d.%m.%Y] to. *)
Definition re_d : Re.regex :=
  Re.Alt (Re.Seq (Re.one "3") (Re.range "0" "1"))
  (Re.Alt (Re.Seq (Re.range "1" "2") Re.digit)
  (Re.Alt (Re.Seq (Re.one "0") (Re.range "1" "9"))
  (Re.Alt (Re.range "1" "9")
          (Re.Seq (Re.one " ") (Re.range "1" "9"))))).

Definition re_m : Re.regex :=
  Re.Alt (Re.Seq (Re.one "1") (Re.range "0" "2"))
  (Re.Alt (Re.Seq (Re.one "0") (Re.range "1" "9"))
          (Re.range "1" "9")).

Definition re_Y : Re.regex :=
  Re.Seq Re.digit (Re.Seq Re.digit (Re.Seq Re.digit Re.digit)).

Definition re_dot : Re.regex := Re.one ".".

(** Every way the compiled expression matches a prefix of [data], in the
    engine's order: the groups d, m and Y and the text left over. *)
Definition match_dmY (data : str) : list (str * str * str * str) :=
  flat_map (fun d =>
  flat_map (fun dot1 =>
  flat_map (fun m =>
  flat_map (fun dot2 =>
  map (fun y => (fst d, fst m, fst y, snd y)) (Re.rmatch re_Y (snd dot2)))
    (Re.rmatch re_dot (snd m)))
    (Re.rmatch re_m (snd dot1)))
    (Re.rmatch re_dot (snd d)))
    (Re.rmatch re_d data).

(** [datetime.strptime(data, '%d.%m.%Y')] *)
Definition strptime (data : str) : res date :=
  match match_dmY data with
  | [] => Err ValueError                      (* does not match format *)
  | (_, _, _, _ :: _) :: _ => Err ValueError  (* unconverted data remains *)
  | (d, m, y, []) :: _ =>
      match PyStr.py_int y, PyStr.py_int m, PyStr.py_int d with
      | Some yy, Some mm, Some dd =>
          if valid_ymd yy mm dd then Ok (mkdate yy mm dd)
          else Err ValueError                 (* out of range *)
      | _, _, _ => Err ValueError
      end
  end.

End Dates.
Import Dates.

(** ** The program *)

Record Event : Type := mkEvent {
  title : str;
  start_date : date;
  end_date : option date;
  description : str;
  link : str;
  tags : list str
}.

Definition hash : char := "#".

Definition tag_char (c : char) : bool :=
  PyStr.between 97 122 c || PyStr.between 65 90 c || PyStr.between 48 57 c ||
  Char.eqb c "_" || Char.eqb c "-".

(** [^#+\s] *)
Definition heading_re : Re.regex :=
  Re.Seq (Re.Plus (Char.eqb hash)) Re.space.

(** [^#[a-zA-Z0-9_-]] *)
Definition tag_line_re : Re.regex :=
  Re.Seq (Re.one hash) (Re.Chr tag_char).

(** [#([a-zA-Z0-9_-]+)] *)
Definition tag_pattern : Re.regex :=
  Re.Seq (Re.one hash) (Re.Plus tag_char).

Definition is_heading (line : str) : bool :=
  let stripped := PyStr.strip line in
  Re.matches heading_re stripped.

Definition is_tag_line (line : str) : bool := Re.matches tag_line_re line.

(** The one group of [tag_pattern] is the match without its [#]. *)
Definition parse_tags (line : str) : list str :=
  map (skipn 1) (Re.findall tag_pattern line).

Definition parse_date (date_str : str) : res (date * option date) :=
  let date_str := PyStr.strip date_str in
  if PyStr.contains "-" date_str then
    let parts := PyStr.split "-" date_str in
    match nth_error parts 0, nth_error parts 1 with
    | Some p0, Some p1 =>
        let start_str := PyStr.strip p0 in
        let end_str := PyStr.strip p1 in
        start_date <- strptime start_str ;;
        end_date <- strptime end_str ;;
        Ok (start_date, Some end_date)
    | _, _ => Err IndexError
    end
  else
    d <- strptime date_str ;;
    Ok (d, None).



(** *** The event extractor *)

Definition nl : char := "010".

(** [while i < len(lines) and not lines[i].strip(): i += 1]; [rest] is
    the view [lines[i:]] of the lines at and after the cursor. *)
Fixpoint skip_blank (rest : list str) (i : nat) : nat :=
  match rest with
  | [] => i
  | l :: rest' =>
      if negb (PyStr.truthy (PyStr.strip l)) then skip_blank rest' (S i) else i
  end.

(** [while i < len(lines) and not is_heading(lines[i])]: the stripped
    lines collected and the cursor where the loop stops. *)
Fixpoint collect_body (rest : list str) (i : nat) (content_lines : list str)
  : list str * nat :=
  match rest with
  | [] => (content_lines, i)
  | l :: rest' =>
      if negb (is_heading l) then
        collect_body rest' (S i) (content_lines ++ [PyStr.strip l])
      else (content_lines, i)
  end.

(** The three variables the loop over [content_lines] updates. *)
Record body : Type := mkBody {
  b_tags : list str;
  b_description : str;
  b_link : str
}.

Definition is_link (content_line : str) : bool :=
  PyStr.startswith content_line (lit "http://") ||
  PyStr.startswith content_line (lit "https://").

Definition separate_step (b : body) (content_line : str) : body :=
  if is_link content_line then
    mkBody (b_tags b) (b_description b) content_line
  else if PyStr.truthy content_line && is_tag_line content_line then
    mkBody (b_tags b ++ parse_tags content_line) (b_description b) (b_link b)
  else if PyStr.truthy content_line then
    let description :=
      if PyStr.truthy (b_description b) then b_description b ++ [nl]
      else b_description b in
    mkBody (b_tags b) (description ++ content_line) (b_link b)
  else b.

Definition separate (content_lines : list str) : body :=
  fold_left separate_step content_lines (mkBody [] [] []).

(** What one pass through the body of the outer [while] does. *)
Inductive iteration : Type :=
| Next (i : nat) (event : option Event)  (* the loop goes on from [i] *)
| Break                                  (* [break] on a dangling heading *)
| Raise (e : exn).

Definition outer_iteration (lines : list str) (i : nat) : iteration :=
  match nth_error lines i with
  | None => Raise IndexError
  | Some l =>
      let line := PyStr.strip l in
      if is_heading line then
        let title := PyStr.strip (PyStr.lstrip_char hash line) in
        let i := S i in
        let i := skip_blank (skipn i lines) i in
        if length lines <=? i then Break
        else
          match nth_error lines i with
          | None => Raise IndexError
          | Some dl =>
              let date_line := PyStr.strip dl in
              match parse_date date_line with
              | Err e => Raise e
              | Ok (start_date, end_date) =>
                  let i := S i in
                  let '(content_lines, i) := collect_body (skipn i lines) i [] in
                  let b := separate content_lines in
                  Next i (Some (mkEvent title start_date end_date
                                  (PyStr.strip (b_description b))
                                  (b_link b) (b_tags b)))
              end
          end
      else Next (S i) None
  end.

(** The outer [while i < len(lines)] loop, at most [fuel] iterations;
    [None] when they do not suffice. *)
Fixpoint parse_loop (fuel : nat) (lines : list str) (i : nat)
  (events : list Event) : option (res (list Event)) :=
  match fuel with
  | 0 => None
  | S fuel' =>
      if i <? length lines then
        match outer_iteration lines i with
        | Next i' None => parse_loop fuel' lines i' events
        | Next i' (Some event) => parse_loop fuel' lines i' (events ++ [event])
        | Break => Some (Ok events)
        | Raise e => Some (Err e)
        end
      else Some (Ok events)
  end.

(** [parse_markdown] on the lines of the file. *)
Definition parse_lines (lines : list str) : option (res (list Event)) :=
  parse_loop (S (length lines)) lines 0 [].

(** [parse_markdown] on the text read from the file. *)
Definition parse_markdown (content : str) : option (res (list Event)) :=
  parse_lines (PyStr.split nl content).

(** *** Rendering *)

Definition digit_char (n : Z) : char := (48 + Z.to_N n)%N.

(** [n] in decimal, zero-padded to [width] digits. *)
Fixpoint zpad (width : nat) (n : Z) : str :=
  match width with
  | 0 => []
  | S w => zpad w (n / 10) ++ [digit_char (n mod 10)]
  end.

(** [n] in decimal without leading zeros, for [n] below ten to the
    [width]. *)
Fixpoint zdec (width : nat) (n : Z) : str :=
  match width with
  | 0 => []
  | S w =>
      if (n <? 10)%Z then [digit_char n]
      else zdec w (n / 10) ++ [digit_char (n mod 10)]
  end.

(** The directive [%Y] of [strftime]: the year as a decimal number, as
    the C library of the platform writes it.  The GNU C library does not
    pad it, so a year below 1000 has fewer than four digits; a year is at
    most 9999. *)
Definition strftime_Y (y : Z) : str := zdec 4 y.

(** [d.strftime('%Y%m%d')] *)
Definition strftime_Ymd (d : date) : str :=
  strftime_Y (year d) ++ zpad 2 (month d) ++ zpad 2 (day d).

(** [d.strftime('%d.%m.%Y')] *)
Definition strftime_dmY (d : date) : str :=
  zpad 2 (day d) ++ lit "." ++ zpad 2 (month d) ++ lit "." ++
  strftime_Y (year d).

(** [sorted(events, key=lambda e: e.start_date)]: the stable sort by
    [start_date]. *)
Fixpoint insert_event (e : Event) (sorted : list Event) : list Event :=
  match sorted with
  | [] => [e]
  | x :: rest =>
      if date_leb (start_date e) (start_date x) then e :: sorted
      else x :: insert_event e rest
  end.

Definition sorted_events (events : list Event) : list Event :=
  fold_right insert_event [] events.

Definition escape_ical_text (text : str) : str :=
  let text := PyStr.replace "\" (lit "\\") text in
  let text := PyStr.replace "," (lit "\,") text in
  let text := PyStr.replace ";" (lit "\;") text in
  let text := PyStr.replace nl (lit "\n") text in
  text.

Definition escape_html (text : str) : str :=
  let text := PyStr.replace "&" (lit "&amp;") text in
  let text := PyStr.replace "<" (lit "&lt;") text in
  let text := PyStr.replace ">" (lit "&gt;") text in
  let text := PyStr.replace "034" (lit "&quot;") text in
  let text := PyStr.replace "'" (lit "&#39;") text in
  text.

Definition when (b : bool) (l : list str) : list str := if b then l else [].

(** The lines of one VEVENT; [now] is the formatted current UTC time. *)
Definition vevent (event : Event) (now : str) : res (list str) :=
  let uid := strftime_Ymd (start_date event) ++ lit "-" ++
             PyStr.replace " " (lit "-") (title event) ++ lit "@mdcal" in
  dates <-
    match end_date event with
    | Some end_date =>
        end_date_ical <- add_one_day end_date ;;
        Ok [lit "DTSTART;VALUE=DATE:" ++ strftime_Ymd (start_date event);
            lit "DTEND;VALUE=DATE:" ++ strftime_Ymd end_date_ical]
    | None =>
        end_date_ical <- add_one_day (start_date event) ;;
        Ok [lit "DTSTART;VALUE=DATE:" ++ strftime_Ymd (start_date event);
            lit "DTEND;VALUE=DATE:" ++ strftime_Ymd end_date_ical]
    end ;;
  let categories :=
    PyStr.join (lit ",") (map escape_ical_text (tags event)) in
  let description_parts :=
    when (PyStr.truthy (description event)) [description event] ++
    when (PyStr.truthy (link event)) [lit "Link: " ++ link event] in
  Ok ([lit "BEGIN:VEVENT"; lit "UID:" ++ uid] ++ dates ++
      [lit "SUMMARY:" ++ escape_ical_text (title event)] ++
      when (match tags event with [] => false | _ => true end)
        [lit "CATEGORIES:" ++ categories] ++
      when (match description_parts with [] => false | _ => true end)
        [lit "DESCRIPTION:" ++
         escape_ical_text (PyStr.join (lit "\n") description_parts)] ++
      when (PyStr.truthy (link event)) [lit "URL:" ++ link event] ++
      [lit "DTSTAMP:" ++ now; lit "END:VEVENT"]).

(** The [for event in sorted_events] loop; [clock k] is the time read in
    the iteration of index [k]. *)
Fixpoint vevents (events : list Event) (clock : nat -> str) (k : nat)
  : res (list str) :=
  match events with
  | [] => Ok []
  | event :: rest =>
      block <- vevent event (clock k) ;;
      blocks <- vevents rest clock (S k) ;;
      Ok (block ++ blocks)
  end.

Definition ical_header : list str :=
  [lit "BEGIN:VCALENDAR"; lit "VERSION:2.0"; lit "PRODID:-//mdcal//mdcal//EN";
   lit "CALSCALE:GREGORIAN"; lit "METHOD:PUBLISH"].

(** The text [generate_ical] writes to the output file. *)
Definition generate_ical (events : list Event) (clock : nat -> str) : res str :=
  blocks <- vevents (sorted_events events) clock 0 ;;
  Ok (PyStr.join [nl] (ical_header ++ blocks ++ [lit "END:VCALENDAR"])).



(** *** The HTML page

    The page is a fixed template around the events section; the section
    is modelled, with the two pictographs of the template as parameters. *)

(** A literal of the source in which a backquote stands for the double
    quote character. *)
Definition q (s : string) : str :=
  map (fun c => if Char.eqb c "`" then ch "034" else c) (lit s).

Section Html.

Variables icon_calendar icon_link : str.

Definition tag_item (tag : str) : str :=
  q "                <span class=`tag` onclick=`filterByTag('" ++
  escape_html tag ++ q "')`>#" ++ escape_html tag ++ q "</span>".

Definition event_html (event : Event) : str :=
  let tags_attr :=
    match tags event with
    | [] => []
    | _ => PyStr.join (lit ",") (tags event)
    end in
  let date_str :=
    match end_date event with
    | Some end_date =>
        strftime_dmY (start_date event) ++ lit " - " ++ strftime_dmY end_date
    | None => strftime_dmY (start_date event)
    end in
  let event_tags_html :=
    match tags event with
    | [] => []
    | _ =>
        q "            <div class=`event-tags`>" ++ [nl] ++
        PyStr.join [nl] (map tag_item (tags event)) ++ [nl] ++
        q "            </div>"
    end in
  let description_html :=
    if PyStr.truthy (description event) then
      q "        <div class=`event-description`>" ++
      escape_html (description event) ++ q "</div>"
    else [] in
  let link_html :=
    if PyStr.truthy (link event) then
      q "        <div class=`event-link`>" ++ icon_link ++ q " <a href=`" ++
      escape_html (link event) ++ q "` target=`_blank`>" ++
      escape_html (link event) ++ q "</a></div>"
    else [] in
  q "    <div class=`event` data-tags=`" ++ escape_html tags_attr ++ q "`>" ++
  [nl] ++
  q "        <div class=`event-title`>" ++ escape_html (title event) ++
  q "</div>" ++ [nl] ++
  q "        <div class=`event-date-tags`>" ++ [nl] ++
  q "            <span class=`event-date`>" ++ icon_calendar ++ lit " " ++
  escape_html date_str ++ q "</span>" ++ [nl] ++
  event_tags_html ++ [nl] ++
  q "        </div>" ++ [nl] ++
  description_html ++ [nl] ++
  link_html ++ [nl] ++
  q "    </div>".

(** [events_section] of [generate_html] *)
Definition events_section (events : list Event) : str :=
  PyStr.join [nl] (map event_html (sorted_events events)).

End Html.

(** *** The tag filter of the HTML page *)

(** [a < b] on strings: by code point, a proper prefix first. *)
Fixpoint str_ltb (a b : str) : bool :=
  match a, b with
  | _, [] => false
  | [], _ :: _ => true
  | x :: a', y :: b' =>
      (PyStr.code x <? PyStr.code y)%N ||
      ((PyStr.code x =? PyStr.code y)%N && str_ltb a' b')
  end.

Fixpoint insert_tag (t : str) (sorted : list str) : list str :=
  match sorted with
  | [] => [t]
  | x :: rest =>
      if str_ltb t x then t :: sorted
      else if str_ltb x t then x :: insert_tag t rest
      else sorted
  end.

(** [sorted(set(ts))]: every distinct text once, ascending. *)
Definition sorted_set (ts : list str) : list str := fold_right insert_tag [] ts.

(** [all_tags] of [generate_html] *)
Definition all_tags (events : list Event) : list str :=
  sorted_set (flat_map tags (sorted_events events)).

Definition filter_tag_item (tag : str) : str :=
  q "        <span class=`filter-tag` data-tag=`" ++ escape_html tag ++
  q "` onclick=`filterByTag('" ++ escape_html tag ++ q "')`>#" ++
  escape_html tag ++ q "</span>".

(** [filter_tags_html] of [generate_html] *)
Definition filter_tags_html (events : list Event) : str :=
  match all_tags events with
  | [] => []
  | ts =>
      q "    <div class=`tag-filter-section`>" ++ [nl] ++
      PyStr.join [nl] (map filter_tag_item ts) ++ [nl] ++
      q "    </div>"
  end.
(** * Vocabulary of the statements

    Definitions the properties are stated with; none of them is used by
    the program above. *)

Module Spec.

(** One of the ten digits 0 to 9 of ASCII. *)
Definition ascii_digit (c : char) : bool := PyStr.between 48 57 c.

(** The value of a decimal digit, of whatever script. *)
Definition digit_value (c : char) : Z :=
  match PyStr.decimal c with
  | Some v => Z.of_N v
  | None => 0%Z
  end.

(** The value of a string of decimal digits. *)
Definition decimal (s : str) : Z :=
  fold_left (fun a c => (10 * a + digit_value c)%Z) s 0%Z.

(** A string of between [lo] and [hi] ASCII digits. *)
Definition numeral (lo hi : nat) (s : str) : bool :=
  forallb ascii_digit s && (lo <=? length s) && (length s <=? hi).

(** The day of a date text: one or two ASCII digits, or the ASCII digit 1
    or 2 and then a decimal digit of any script. *)
Definition day_numeral (s : str) : bool :=
  numeral 1 2 s ||
  match s with
  | [a; b] => (Char.eqb a "1" || Char.eqb a "2") && PyStr.isdecimal b
  | _ => false
  end.

(** The year of a date text: four decimal digits, each of any script. *)
Definition year_numeral (s : str) : bool :=
  forallb PyStr.isdecimal s && (length s =? 4).

(** [s] writes the date [d] as day.month.year: a day of one or two
    digits, a month of one or two ASCII digits and a year of four
    digits. *)
Definition date_text (s : str) (d : date) : Prop :=
  exists ds ms ys,
    s = ds ++ lit "." ++ ms ++ lit "." ++ ys /\
    day_numeral ds = true /\ numeral 1 2 ms = true /\
    year_numeral ys = true /\
    d = mkdate (decimal ys) (decimal ms) (decimal ds) /\
    valid_date d = true.

(** The strict shape: two digits, a dot, two digits, a dot, four digits. *)
Definition strict_shape (s : str) : bool :=
  match s with
  | [d1; d2; p1; m1; m2; p2; y1; y2; y3; y4] =>
      forallb PyStr.isdecimal [d1; d2; m1; m2; y1; y2; y3; y4] &&
      Char.eqb p1 "." && Char.eqb p2 "."
  | _ => false
  end.

(** The text before the first [c] of [s] (all of [s] without one). *)
Fixpoint before (c : char) (s : str) : str :=
  match s with
  | [] => []
  | a :: s' => if Char.eqb a c then [] else a :: before c s'
  end.

(** The text after the first [c] of [s] (empty without one). *)
Fixpoint after (c : char) (s : str) : str :=
  match s with
  | [] => []
  | a :: s' => if Char.eqb a c then s' else after c s'
  end.

(** The date resolver as the specification words it: a strict pattern,
    and a range cut in two at its first hyphen. *)
Definition strptime_strict (s : str) : res date :=
  if strict_shape s then strptime s else Err ValueError.

Definition parse_date_spec (date_str : str) : res (date * option date) :=
  let s := PyStr.strip date_str in
  if PyStr.contains "-" s then
    start_date <- strptime_strict (PyStr.strip (before "-" s)) ;;
    end_date <- strptime_strict (PyStr.strip (after "-" s)) ;;
    Ok (start_date, Some end_date)
  else
    d <- strptime_strict s ;;
    Ok (d, None).


(** *** Lines of a document *)

Fixpoint take_while {A : Type} (p : A -> bool) (l : list A) : list A :=
  match l with
  | [] => []
  | x :: l' => if p x then x :: take_while p l' else []
  end.

Fixpoint drop_while {A : Type} (p : A -> bool) (l : list A) : list A :=
  match l with
  | [] => []
  | x :: l' => if p x then drop_while p l' else l
  end.

(** A blank line: nothing is left of it once trimmed. *)
Definition blank (l : str) : bool := negb (PyStr.truthy (PyStr.strip l)).

(** A line that is not a heading line. *)
Definition plain (l : str) : bool := negb (is_heading l).

(** A line the date resolver accepts. *)
Definition parses (l : str) : bool :=
  match parse_date l with
  | Ok _ => true
  | Err _ => false
  end.

(** The text of a heading line: the title of its event. *)
Definition heading_text (l : str) : str :=
  PyStr.strip (PyStr.lstrip_char hash (PyStr.strip l)).

(** The lines that follow a heading, up to the next heading line or the
    end of input, hold a non-blank line that parses as a date. *)
Definition dated (rest : list str) : bool :=
  existsb (fun l => negb (blank l) && parses l) (take_while plain rest).

(** The heading lines of a document that are followed by such a line, in
    the order of the document. *)
Fixpoint dated_headings (lines : list str) : list str :=
  match lines with
  | [] => []
  | l :: rest =>
      if is_heading l && dated rest then l :: dated_headings rest
      else dated_headings rest
  end.

(** One pass of the outer loop, told from the line [l] under the cursor
    [i] and the lines [rest] after it. *)
Definition iteration_at (i : nat) (l : str) (rest : list str) : iteration :=
  if is_heading l then
    match drop_while blank rest with
    | [] => Break
    | dl :: rest2 =>
        match parse_date dl with
        | Err e => Raise e
        | Ok (start_date, end_date) =>
            let b := separate (map PyStr.strip (take_while plain rest2)) in
            Next (S i + length (take_while blank rest) + 1 +
                  length (take_while plain rest2))
                 (Some (mkEvent (heading_text l) start_date end_date
                          (PyStr.strip (b_description b)) (b_link b) (b_tags b)))
        end
    end
  else Next (S i) None.

(** The outer loop arrives at the cursor [i] with [events] extracted. *)
Inductive arrives (lines : list str) : nat -> list Event -> Prop :=
| arrives_start : arrives lines 0 []
| arrives_next i events i' event :
    arrives lines i events ->
    i < length lines ->
    outer_iteration lines i = Next i' event ->
    arrives lines i'
      (events ++ match event with Some e => [e] | None => [] end).

(** *** Body lines *)

Inductive category : Set := Link | Tags | Text | Empty.

(** The category of a trimmed body line, by first match. *)
Definition classify (content_line : str) : category :=
  if is_link content_line then Link
  else if is_tag_line content_line then Tags
  else if PyStr.truthy content_line then Text
  else Empty.

Definition category_eqb (a b : category) : bool :=
  match a, b with
  | Link, Link | Tags, Tags | Text, Text | Empty, Empty => true
  | _, _ => false
  end.

(** The lines of one category, in order. *)
Definition of_category (c : category) (content_lines : list str) : list str :=
  filter (fun l => category_eqb (classify l) c) content_lines.

(** The lines of a document that make one event: the heading line [i],
    blank lines only up to the date line [j], the first line that is not
    blank, and the body lines after it up to [i'], the next heading line
    or the end of input. *)
Definition event_block (lines : list str) (i j i' : nat) : Prop :=
  i < j < i' /\ i' <= length lines /\
  (exists h, nth_error lines i = Some h /\ is_heading h = true) /\
  (forall k l, i < k < j -> nth_error lines k = Some l -> blank l = true) /\
  (exists dl, nth_error lines j = Some dl /\ blank dl = false) /\
  (forall k l,
      j < k < i' -> nth_error lines k = Some l -> is_heading l = false) /\
  (i' = length lines \/
   exists h, nth_error lines i' = Some h /\ is_heading h = true).

(** The body lines of that event, each trimmed. *)
Definition body_lines (lines : list str) (j i' : nat) : list str :=
  map PyStr.strip (firstn (i' - S j) (skipn (S j) lines)).

(** The event [e] is the one of that block: its title is the text of the
    heading line, its dates are those of the date line, and its link,
    tags and description are those of the body lines by category. *)
Definition event_of (lines : list str) (i j i' : nat) (e : Event) : Prop :=
  (exists h, nth_error lines i = Some h /\ title e = heading_text h) /\
  (exists dl, nth_error lines j = Some dl /\
              parse_date dl = Ok (start_date e, end_date e)) /\
  let content_lines := body_lines lines j i' in
  link e = last (of_category Link content_lines) [] /\
  tags e = flat_map parse_tags (of_category Tags content_lines) /\
  description e =
    PyStr.strip (PyStr.join [nl] (of_category Text content_lines)).

(** The characters a tag is made of. *)
Definition tag_alphabet : str :=
  lit "abcdefghijklmnopqrstuvwxyzABCDEFGHIJKLMNOPQRSTUVWXYZ0123456789-_".

(** A non-empty text of characters of the class of the tag pattern. *)
Definition tag_ok (t : str) : Prop := t <> [] /\ forallb tag_char t = true.

(** One more line of description text after the text [d]. *)
Definition add_text (d t : str) : str :=
  (if PyStr.truthy d then d ++ [nl] else d) ++ t.

Definition well_formed_tag (t : str) : Prop :=
  t <> [] /\ Forall (fun c => In c tag_alphabet) t.


(** *** Rendering *)

(** What the calendar format makes of one character of a text. *)
Definition ical_escape_char (c : char) : str :=
  if Char.eqb c "\" then lit "\\"
  else if Char.eqb c "," then lit "\,"
  else if Char.eqb c ";" then lit "\;"
  else if Char.eqb c nl then lit "\n"
  else [c].

(** The characters the two renderers escape, and the blanks. *)
Definition special (c : char) : bool :=
  existsb (Char.eqb c) [ch "&"; ch "<"; ch ">"; ch "034"; ch "'"; ch ","; ch ";"; ch "\"; nl] ||
  PyStr.isspace c.

(** The last day of an event: its end date, or its start date. *)
Definition last_day (e : Event) : date :=
  match end_date e with
  | Some d => d
  | None => start_date e
  end.

Definition max_date : date := mkdate 9999 12 31.

Definition valid_event (e : Event) : bool :=
  valid_date (start_date e) &&
  match end_date e with
  | Some d => valid_date d
  | None => true
  end.


(** [s] writes the date [d] as its year, in as many digits as the year
    has, then a month and a day of two digits each. *)
Definition ymd_text_unpadded (s : str) (d : date) : Prop :=
  exists ys ms ds,
    s = ys ++ ms ++ ds /\
    numeral 1 4 ys = true /\ hd_error ys <> Some (ch "0") /\
    numeral 2 2 ms = true /\ numeral 2 2 ds = true /\
    decimal ys = year d /\ decimal ms = month d /\ decimal ds = day d.

(** Order of two events by start date. *)
Definition by_start (a b : Event) : Prop :=
  date_leb (start_date a) (start_date b) = true.

Definition starts_on (d : date) (e : Event) : bool :=
  date_eqb (start_date e) d.

(** A rendered block is the VEVENT of an event at some time. *)
Definition block_of (e : Event) (block : list str) : Prop :=
  exists now, vevent e now = Ok block.

End Spec.


(** * Sample documents *)

Module Examples.

(** A heading, a date line and three body lines. *)
Definition launch_lines : list str :=
  [lit "# Launch"; lit "01.03.2024"; lit "Join us"; lit "#space #rocket";
   lit "https://example.com"].

Definition launch : Event :=
  mkEvent (lit "Launch") (mkdate 2024 3 1) None (lit "Join us")
    (lit "https://example.com") [lit "space"; lit "rocket"].

(** The same, then a heading with nothing but a blank line after it. *)
Definition dangling_lines : list str :=
  launch_lines ++ [lit "## Later"; lit "  "].

(** A heading that meets the final heading where it looks for its date. *)
Definition stacked_lines : list str := [lit "# A"; lit "# B"].

(** A range of three days, and a title with a comma and a semicolon. *)
Definition conference : Event :=
  mkEvent (lit "A, B; C") (mkdate 2024 3 1) (Some (mkdate 2024 3 3)) [] [] [].



(** An event on the day [launch] starts, extracted after it. *)
Definition party : Event :=
  mkEvent (lit "Party") (mkdate 2024 3 1) None [] [] [].

End Examples.

(** * Tactics *)

(** Boolean tests to propositions, in the hypotheses and in the goal. *)
Ltac b2p :=
  repeat match goal with
  | H : andb _ _ = true |- _ => apply andb_true_iff in H; destruct H
  | H : orb _ _ = true |- _ => apply orb_true_iff in H; destruct H
  | H : andb _ _ = false |- _ => apply andb_false_iff in H; destruct H
  | H : orb _ _ = false |- _ => apply orb_false_iff in H; destruct H
  | H : negb _ = true |- _ => apply negb_true_iff in H
  | H : negb _ = false |- _ => apply negb_false_iff in H
  | H : Nat.leb _ _ = true |- _ => apply Nat.leb_le in H
  | H : Nat.leb _ _ = false |- _ => apply Nat.leb_gt in H
  | H : Nat.eqb _ _ = true |- _ => apply Nat.eqb_eq in H
  | H : Nat.eqb _ _ = false |- _ => apply Nat.eqb_neq in H
  | H : Nat.ltb _ _ = true |- _ => apply Nat.ltb_lt in H
  | H : Nat.ltb _ _ = false |- _ => apply Nat.ltb_ge in H
  | H : N.leb _ _ = true |- _ => apply N.leb_le in H
  | H : N.leb _ _ = false |- _ => apply N.leb_gt in H
  | H : N.eqb _ _ = true |- _ => apply N.eqb_eq in H
  | H : N.eqb _ _ = false |- _ => apply N.eqb_neq in H
  | H : N.ltb _ _ = true |- _ => apply N.ltb_lt in H
  | H : N.ltb _ _ = false |- _ => apply N.ltb_ge in H
  | H : Z.leb _ _ = true |- _ => apply Z.leb_le in H
  | H : Z.leb _ _ = false |- _ => apply Z.leb_gt in H
  | H : Z.eqb _ _ = true |- _ => apply Z.eqb_eq in H
  | H : Z.eqb _ _ = false |- _ => apply Z.eqb_neq in H
  | H : Z.ltb _ _ = true |- _ => apply Z.ltb_lt in H
  | H : Z.ltb _ _ = false |- _ => apply Z.ltb_ge in H
  end.

Ltac p2b :=
  repeat match goal with
  | |- andb _ _ = true => apply andb_true_iff; split
  | |- negb _ = true => apply negb_true_iff
  | |- Nat.leb _ _ = true => apply Nat.leb_le
  | |- Nat.leb _ _ = false => apply Nat.leb_gt
  | |- Nat.eqb _ _ = true => apply Nat.eqb_eq
  | |- Nat.eqb _ _ = false => apply Nat.eqb_neq
  | |- Nat.ltb _ _ = true => apply Nat.ltb_lt
  | |- N.leb _ _ = true => apply N.leb_le
  | |- N.leb _ _ = false => apply N.leb_gt
  | |- N.eqb _ _ = true => apply N.eqb_eq
  | |- N.eqb _ _ = false => apply N.eqb_neq
  | |- N.ltb _ _ = true => apply N.ltb_lt
  | |- N.ltb _ _ = false => apply N.ltb_ge
  | |- Z.leb _ _ = true => apply Z.leb_le
  | |- Z.leb _ _ = false => apply Z.leb_gt
  | |- Z.eqb _ _ = true => apply Z.eqb_eq
  | |- Z.eqb _ _ = false => apply Z.eqb_neq
  | |- Z.ltb _ _ = true => apply Z.ltb_lt
  | |- Z.ltb _ _ = false => apply Z.ltb_ge
  end.

(** The character classes as arithmetic on code points. *)
Ltac classes :=
  unfold Re.is_char, Spec.ascii_digit, PyStr.isspace, PyStr.int_space,
    PyStr.between, Char.eqb, PyStr.code in *;
  repeat match goal with
  | H : context [ch (Ascii ?a ?b ?c ?d ?e ?f ?g ?h)] |- _ =>
      let v := eval vm_compute in (ch (Ascii a b c d e f g h)) in
      change (ch (Ascii a b c d e f g h)) with v in H
  | |- context [ch (Ascii ?a ?b ?c ?d ?e ?f ?g ?h)] =>
      let v := eval vm_compute in (ch (Ascii a b c d e f g h)) in
      change (ch (Ascii a b c d e f g h)) with v
  end;
  unfold char in *.

Ltac char_arith := classes; b2p; p2b; try lia.


(** Split the hypotheses apart. *)
Ltac break :=
  repeat match goal with
  | H : _ \/ _ |- _ => destruct H
  | H : _ /\ _ |- _ => destruct H
  | H : exists _, _ |- _ => destruct H
  end; subst.


(** * Further vocabulary *)

Module Vocab.

(** A text of blanks only. *)
Definition blanks (w : str) : bool := forallb PyStr.isspace w.

(** A text without the character [c]. *)
Definition free_of (c : char) (s : str) : bool := negb (PyStr.contains c s).

(** A text that neither starts nor ends with a blank. *)
Definition trimmed (s : str) : Prop := PyStr.strip s = s.

(** A text whose first character is not a blank. *)
Definition starts_plain (s : str) : Prop :=
  match s with
  | [] => False
  | a :: _ => PyStr.isspace a = false
  end.

(** A text whose last character is not a blank. *)
Definition ends_plain (s : str) : Prop :=
  match rev s with
  | [] => False
  | z :: _ => PyStr.isspace z = false
  end.

(** What the HTML renderer makes of one character of a text. *)
Definition html_escape_char (c : char) : str :=
  if Char.eqb c "&" then lit "&amp;"
  else if Char.eqb c "<" then lit "&lt;"
  else if Char.eqb c ">" then lit "&gt;"
  else if Char.eqb c "034" then lit "&quot;"
  else if Char.eqb c "'" then lit "&#39;"
  else [c].

(** Reading an escaped calendar text back: a backslash before [n] is a
    newline, a backslash before any other character is that character. *)
Fixpoint unescape_ical (s : str) : str :=
  match s with
  | [] => []
  | c :: rest =>
      if Char.eqb c "\" then
        match rest with
        | [] => [c]
        | d :: rest' =>
            (if Char.eqb d "n" then nl else d) :: unescape_ical rest'
        end
      else c :: unescape_ical rest
  end.

(** A line of tags: each tag after a hash sign, blanks between them. *)
Definition tag_line (ts : list str) : str :=
  PyStr.join (lit " ") (map (fun t => hash :: t) ts).

(** [a < b] on strings. *)
Definition str_lt (a b : str) : Prop := str_ltb a b = true.

(** The line of a VEVENT block that starts with [name], if any. *)
Definition has_field (name : str) (block : list str) : bool :=
  existsb (fun l => PyStr.startswith l name) block.

End Vocab.

(** * Properties *)

(** ** Characters *)

Module CharEq.

Lemma eqb_eq a b : Char.eqb a b = true <-> a = b.
Proof. apply N.eqb_eq. Qed.

Lemma eqb_neq a b : Char.eqb a b = false <-> a <> b.
Proof. apply N.eqb_neq. Qed.

Lemma eqb_refl a : Char.eqb a a = true.
Proof. apply N.eqb_refl. Qed.

Lemma eqb_sym a b : Char.eqb a b = Char.eqb b a.
Proof. apply N.eqb_sym. Qed.

Lemma eqb_spec a b : reflect (a = b) (Char.eqb a b).
Proof. apply N.eqb_spec. Qed.

(** Literals are told apart by their code points. *)
Lemma ch_inj a b : ch a = ch b -> a = b.
Proof.
  unfold ch. intros H.
  rewrite <- (ascii_N_embedding a), <- (ascii_N_embedding b), H. reflexivity.
Qed.

End CharEq.

(** ** Strings *)

Module PyStrFacts.
Import PyStr.

Lemma lstrip_by_head p s c t : lstrip_by p s = c :: t -> p c = false.
Proof.
  induction s as [|a s IH]; simpl; [discriminate|].
  destruct (p a) eqn:E; [exact IH|].
  intros [= <- _]; exact E.
Qed.

Lemma lstrip_by_fix p c t : p c = false -> lstrip_by p (c :: t) = c :: t.
Proof. intros H; simpl; rewrite H; reflexivity. Qed.

Lemma lstrip_by_all p s : forallb p s = true -> lstrip_by p s = [].
Proof.
  induction s as [|a s IH]; simpl; [reflexivity|].
  intros H; apply andb_true_iff in H as [Ha Hs]; rewrite Ha; auto.
Qed.

Lemma lstrip_by_nil p s : lstrip_by p s = [] -> forallb p s = true.
Proof.
  induction s as [|a s IH]; simpl; [reflexivity|].
  destruct (p a); [exact IH|discriminate].
Qed.

Lemma rstrip_by_nil p s : rstrip_by p s = [] -> forallb p s = true.
Proof.
  induction s as [|a s IH]; simpl; [reflexivity|].
  destruct (rstrip_by p s); [|discriminate].
  destruct (p a); [auto|discriminate].
Qed.

Lemma rstrip_by_all p s : forallb p s = true -> rstrip_by p s = [].
Proof.
  induction s as [|a s IH]; simpl; [reflexivity|].
  intros H; apply andb_true_iff in H as [Ha Hs].
  rewrite (IH Hs), Ha; reflexivity.
Qed.

Lemma rstrip_by_cons p c s :
  p c = false -> rstrip_by p (c :: s) = c :: rstrip_by p s.
Proof. intros H; simpl; destruct (rstrip_by p s); [rewrite H|]; reflexivity. Qed.

Lemma rstrip_by_idem p s : rstrip_by p (rstrip_by p s) = rstrip_by p s.
Proof.
  induction s as [|a s IH]; simpl; [reflexivity|].
  destruct (rstrip_by p s) as [|b r] eqn:E.
  - destruct (p a) eqn:Ea; simpl; [reflexivity|rewrite Ea; reflexivity].
  - change (rstrip_by p (a :: b :: r)) with
      (match rstrip_by p (b :: r) with
       | [] => if p a then [] else [a]
       | x :: y => a :: x :: y
       end).
    rewrite IH; reflexivity.
Qed.

Lemma rstrip_by_none p s :
  forallb (fun c => negb (p c)) s = true -> rstrip_by p s = s.
Proof.
  induction s as [|a s IH]; simpl; [reflexivity|].
  intros H; apply andb_true_iff in H as [Ha Hs].
  rewrite (IH Hs). apply negb_true_iff in Ha. rewrite Ha.
  destruct s; reflexivity.
Qed.

Lemma strip_head s c t : strip s = c :: t -> isspace c = false.
Proof.
  unfold strip. destruct (lstrip_by isspace s) as [|a u] eqn:E; [discriminate|].
  pose proof (lstrip_by_head _ _ _ _ E) as Ha.
  rewrite (rstrip_by_cons _ _ _ Ha). intros [= <- _]; exact Ha.
Qed.

Lemma strip_idem s : strip (strip s) = strip s.
Proof.
  destruct (strip s) as [|c t] eqn:E; [reflexivity|].
  pose proof (strip_head _ _ _ E) as Hc.
  unfold strip at 1. rewrite (lstrip_by_fix _ _ _ Hc), <- E.
  unfold strip. apply rstrip_by_idem.
Qed.

Lemma strip_none s :
  forallb (fun c => negb (isspace c)) s = true -> strip s = s.
Proof.
  intros H. unfold strip.
  replace (lstrip_by isspace s) with s; [apply rstrip_by_none, H|].
  destruct s as [|a s]; [reflexivity|]. simpl in *.
  apply andb_true_iff in H as [Ha _]. apply negb_true_iff in Ha.
  rewrite Ha; reflexivity.
Qed.

Lemma contains_lstrip_by c p s :
  contains c (lstrip_by p s) = true -> contains c s = true.
Proof.
  unfold contains. induction s as [|a s IH]; simpl; [auto|].
  destruct (p a); simpl; [intros H; rewrite (IH H); apply orb_true_r|auto].
Qed.

Lemma contains_rstrip_by c p s :
  contains c (rstrip_by p s) = true -> contains c s = true.
Proof.
  unfold contains. induction s as [|a s IH]; simpl; [auto|].
  destruct (rstrip_by p s) as [|b r].
  - destruct (p a); simpl; [discriminate|].
    rewrite orb_false_r. intros ->; reflexivity.
  - simpl in *. intros H. apply orb_true_iff in H as [H|H].
    + rewrite H; reflexivity.
    + rewrite (IH H); apply orb_true_r.
Qed.

Lemma contains_strip c s : contains c (strip s) = true -> contains c s = true.
Proof.
  intros H. apply contains_lstrip_by with (p := isspace).
  apply contains_rstrip_by with (p := isspace). exact H.
Qed.

Lemma contains_false_strip c s :
  contains c s = false -> contains c (strip s) = false.
Proof.
  intros H. destruct (contains c (strip s)) eqn:E; [|reflexivity].
  apply contains_strip in E. congruence.
Qed.

End PyStrFacts.

(** ** The matching engine against the language of an expression *)

Module ReFacts.
Import Re.

Lemma many_sound p s m rest :
  In (m, rest) (many p s) -> s = m ++ rest /\ forallb p m = true.
Proof.
  revert m rest. induction s as [|c s IH]; simpl; intros m rest H.
  - destruct H as [[= <- <-]|[]]. auto.
  - destruct (p c) eqn:E.
    + apply in_app_or in H as [H|[[= <- <-]|[]]]; [|auto].
      apply in_map_iff in H as [[m' r'] [[= <- <-] H]].
      apply IH in H as [-> Hm]. simpl. rewrite E. auto.
    + destruct H as [[= <- <-]|[]]. auto.
Qed.

Lemma many_complete p m rest :
  forallb p m = true -> In (m, rest) (many p (m ++ rest)).
Proof.
  induction m as [|c m IH]; simpl; intros H.
  - destruct rest as [|c r]; simpl; [auto|].
    destruct (p c); [apply in_or_app; right|]; simpl; auto.
  - apply andb_true_iff in H as [Hc Hm]. rewrite Hc.
    apply in_or_app; left. apply in_map_iff.
    exists (m, rest). split; [reflexivity|auto].
Qed.

Lemma rmatch_sound r : forall s m rest,
  In (m, rest) (rmatch r s) -> s = m ++ rest /\ lang r m.
Proof.
  induction r as [p|r1 IH1 r2 IH2|r1 IH1 r2 IH2|p]; simpl; intros s m rest H.
  - destruct s as [|c s]; [destruct H|].
    destruct (p c) eqn:E; [|destruct H].
    destruct H as [[= <- <-]|[]]. split; [reflexivity|eauto].
  - apply in_flat_map in H as [[m1 s1] [H1 H]].
    apply in_map_iff in H as [[m2 s2] [[= <- <-] H2]].
    apply IH1 in H1 as [-> L1]. apply IH2 in H2 as [E2 L2].
    simpl in *. subst s1. rewrite <- app_assoc. split; [reflexivity|eauto].
  - apply in_app_or in H as [H|H]; [apply IH1 in H|apply IH2 in H];
      destruct H; auto.
  - destruct s as [|c s]; [destruct H|].
    destruct (p c) eqn:E; [|destruct H].
    apply in_map_iff in H as [[m' r'] [[= <- <-] H]].
    apply many_sound in H as [-> Hm]. simpl. rewrite E, Hm.
    repeat split; auto. discriminate.
Qed.

Lemma rmatch_complete r : forall m rest,
  lang r m -> In (m, rest) (rmatch r (m ++ rest)).
Proof.
  induction r as [p|r1 IH1 r2 IH2|r1 IH1 r2 IH2|p]; simpl; intros m rest H.
  - destruct H as [c [-> Hc]]. simpl. rewrite Hc. simpl; auto.
  - destruct H as [m1 [m2 [-> [L1 L2]]]]. rewrite <- app_assoc.
    apply in_flat_map. exists (m1, m2 ++ rest). split; [auto|].
    apply in_map_iff. exists (m2, rest). simpl; auto.
  - apply in_or_app. destruct H; auto.
  - destruct H as [Hne H]. destruct m as [|c m]; [congruence|].
    simpl in *. apply andb_true_iff in H as [Hc Hm]. rewrite Hc.
    apply in_map_iff. exists (m, rest). split; [reflexivity|].
    apply many_complete, Hm.
Qed.

Lemma matches_true r s :
  matches r s = true -> exists m rest, s = m ++ rest /\ lang r m.
Proof.
  unfold matches. destruct (rmatch r s) as [|[m rest] l] eqn:E; [discriminate|].
  intros _. exists m, rest. apply rmatch_sound. rewrite E. left; reflexivity.
Qed.

Lemma matches_lang r m rest : lang r m -> matches r (m ++ rest) = true.
Proof.
  intros H. apply rmatch_complete with (rest := rest) in H.
  unfold matches. destruct (rmatch r (m ++ rest)); [destruct H|reflexivity].
Qed.

End ReFacts.

(** ** Character classes as arithmetic on code points *)

Module CharFacts.
Import PyStr Spec.

Lemma code_inj a b : code a = code b -> a = b.
Proof. unfold code. auto. Qed.

Lemma eqb_code a b : Char.eqb a b = (code a =? code b)%N.
Proof. reflexivity. Qed.

(** The whitespace characters, one by one. *)
Lemma isspace_cases c :
  isspace c = true ->
  In c [9; 10; 11; 12; 13; 28; 29; 30; 31; 32; 133; 160; 5760; 8192; 8193;
        8194; 8195; 8196; 8197; 8198; 8199; 8200; 8201; 8202; 8232; 8233;
        8239; 8287; 12288]%N.
Proof. intros H. cbn [In]. char_arith. Qed.

Lemma space_not_decimal c : isspace c = true -> isdecimal c = false.
Proof.
  intros H. apply isspace_cases in H.
  repeat (destruct H as [<-|H]; [reflexivity|]). destruct H.
Qed.

Lemma digit_not_space c : isdecimal c = true -> isspace c = false.
Proof.
  intros H. destruct (isspace c) eqn:E; [|reflexivity].
  apply space_not_decimal in E. congruence.
Qed.

Lemma digit_not_int_space c : isdecimal c = true -> int_space c = false.
Proof.
  intros H. unfold int_space. rewrite (digit_not_space c H). reflexivity.
Qed.

(** A decimal digit is one of ten in a row, and its value its place. *)
Lemma decimal_some c v :
  PyStr.decimal c = Some v ->
  exists z, In z decimal_zeros /\ (z <= code c <= z + 9)%N /\ v = (code c - z)%N.
Proof.
  unfold PyStr.decimal.
  destruct (find _ decimal_zeros) as [z|] eqn:E; [|discriminate].
  intros [= <-]. apply find_some in E as [I E]. exists z. b2p. auto.
Qed.

Lemma decimal_le c v : PyStr.decimal c = Some v -> (v <= 9)%N.
Proof. intros H. apply decimal_some in H as (z & _ & B & ->). lia. Qed.

Lemma ascii_digit_decimal c :
  ascii_digit c = true -> PyStr.decimal c = Some (code c - 48)%N.
Proof.
  intros H.
  assert (E : (48 <=? code c)%N && (code c <=? 48 + 9)%N = true)
    by char_arith.
  unfold PyStr.decimal, decimal_zeros.
  match goal with
  | |- context [find ?f (?z :: ?l)] =>
      change (find f (z :: l)) with (if f z then Some z else find f l)
  end.
  cbv beta. rewrite E. reflexivity.
Qed.

Lemma ascii_digit_isdecimal c : ascii_digit c = true -> isdecimal c = true.
Proof.
  intros H. unfold isdecimal. rewrite (ascii_digit_decimal c H). reflexivity.
Qed.

Lemma ascii_digits_decimal s :
  forallb ascii_digit s = true -> forallb isdecimal s = true.
Proof.
  induction s as [|c s IH]; simpl; [reflexivity|].
  intros H. apply andb_true_iff in H as [Hc Hs].
  rewrite (ascii_digit_isdecimal c Hc). auto.
Qed.

Lemma digit_value_range c : (0 <= digit_value c <= 9)%Z.
Proof.
  unfold digit_value. destruct (PyStr.decimal c) as [v|] eqn:E; [|lia].
  apply decimal_le in E. lia.
Qed.

Lemma ascii_digit_value c :
  ascii_digit c = true -> digit_value c = (Z.of_N (code c) - 48)%Z.
Proof.
  intros H. unfold digit_value. rewrite (ascii_digit_decimal c H).
  char_arith.
Qed.

(** A character of a range within the ASCII digits. *)
Lemma range_digit lo hi c :
  (48 <= lo)%N -> (hi <= 57)%N -> between lo hi c = true ->
  ascii_digit c = true /\
  (Z.of_N lo - 48 <= digit_value c <= Z.of_N hi - 48)%Z.
Proof.
  intros Hlo Hhi H.
  assert (A : ascii_digit c = true) by char_arith.
  split; [exact A|]. rewrite (ascii_digit_value c A). char_arith.
Qed.

(** A test that holds of each of the 128 ASCII characters. *)
Lemma ascii_forall (P : char -> bool) :
  forallb P (map N.of_nat (seq 0 128)) = true ->
  forall c, (code c < 128)%N -> P c = true.
Proof.
  intros A c L. rewrite forallb_forall in A. apply A.
  apply in_map_iff. exists (N.to_nat c). split; [apply N2Nat.id|].
  apply in_seq. unfold code in L. lia.
Qed.

Lemma tag_char_ascii c : tag_char c = true -> (code c < 128)%N.
Proof. unfold tag_char. intros H. char_arith. Qed.

Lemma is_char_eq a c : Re.is_char a c = true -> c = a.
Proof. intros H. char_arith. Qed.

Lemma digits_not_space s :
  forallb isdecimal s = true -> forallb (fun c => negb (int_space c)) s = true.
Proof.
  induction s as [|c s IH]; simpl; [reflexivity|].
  intros H. apply andb_true_iff in H as [Hc Hs].
  rewrite (digit_not_int_space c Hc). simpl. auto.
Qed.

End CharFacts.

(** ** The date resolver *)

Module DateFacts.
Import PyStr Spec.
Local Open Scope Z_scope.

Lemma digits_value_decimal s : forall acc,
  forallb isdecimal s = true ->
  digits_value acc s =
  Some (fold_left (fun a c => 10 * a + digit_value c) s acc).
Proof.
  induction s as [|c s IH]; intros acc H; [reflexivity|].
  cbn [forallb] in H. apply andb_true_iff in H as [Hc Hs].
  cbn [digits_value fold_left]. rewrite <- (IH _ Hs).
  unfold digit_value. unfold isdecimal in Hc.
  destruct (PyStr.decimal c); [reflexivity|discriminate].
Qed.

(** [int] of a text of decimal digits is its value. *)
Lemma digits_py_int s :
  s <> [] -> forallb isdecimal s = true -> py_int s = Some (decimal s).
Proof.
  unfold py_int. intros N H.
  replace (lstrip_by int_space s) with s.
  - rewrite (PyStrFacts.rstrip_by_none _ s (CharFacts.digits_not_space s H)).
    destruct s as [|c s]; [congruence|].
    apply digits_value_decimal, H.
  - destruct s as [|a s]; [reflexivity|]. simpl in *.
    apply andb_true_iff in H as [Ha _].
    rewrite (CharFacts.digit_not_int_space a Ha). reflexivity.
Qed.

Lemma numeral_decimal lo hi s :
  numeral lo hi s = true -> forallb isdecimal s = true.
Proof.
  unfold numeral. intros H. b2p. apply CharFacts.ascii_digits_decimal, H.
Qed.

Lemma numeral_py_int lo hi s :
  numeral (S lo) hi s = true -> py_int s = Some (decimal s).
Proof.
  intros H. apply digits_py_int; [|eapply numeral_decimal, H].
  unfold numeral in H. b2p. destruct s; [simpl in *; lia|discriminate].
Qed.

Lemma day_numeral_decimal s :
  day_numeral s = true -> s <> [] /\ forallb isdecimal s = true.
Proof.
  unfold day_numeral. intros H. apply orb_true_iff in H as [H|H].
  - split; [|eapply numeral_decimal, H].
    unfold numeral in H. b2p. destruct s; [simpl in *; lia|discriminate].
  - destruct s as [|a [|b [|c s]]]; try discriminate.
    split; [discriminate|]. apply andb_true_iff in H as [Ha Hb].
    assert (Ha' : isdecimal a = true)
      by (apply CharFacts.ascii_digit_isdecimal;
          apply orb_true_iff in Ha as [Ha|Ha]; char_arith).
    cbn [forallb]. rewrite Ha', Hb. reflexivity.
Qed.

Lemma day_numeral_py_int s :
  day_numeral s = true -> py_int s = Some (decimal s).
Proof.
  intros H. apply day_numeral_decimal in H as [N H]. apply digits_py_int; auto.
Qed.

Lemma year_numeral_py_int s :
  year_numeral s = true -> py_int s = Some (decimal s).
Proof.
  unfold year_numeral. intros H. b2p.
  apply digits_py_int; [|assumption]. destruct s; [discriminate|discriminate].
Qed.

Lemma digits_no_dot s : forallb isdecimal s = true -> ~ In (ch ".") s.
Proof.
  intros H D. rewrite forallb_forall in H. apply H in D. discriminate.
Qed.

Lemma numeral_no_dot lo hi s : numeral lo hi s = true -> ~ In (ch ".") s.
Proof. intros H. eapply digits_no_dot, numeral_decimal, H. Qed.

Lemma decimal_one a : decimal [a] = digit_value a.
Proof. unfold decimal. cbn [fold_left]. lia. Qed.

Lemma decimal_two a b : decimal [a; b] = 10 * digit_value a + digit_value b.
Proof. unfold decimal. cbn [fold_left]. lia. Qed.

Lemma numeral_one a : numeral 1 2 [a] = ascii_digit a.
Proof. unfold numeral. cbn. rewrite !andb_true_r. reflexivity. Qed.

Lemma numeral_two a b : numeral 1 2 [a; b] = ascii_digit a && ascii_digit b.
Proof. unfold numeral. cbn. rewrite !andb_true_r. reflexivity. Qed.

Lemma day_one_ascii a : ascii_digit a = true -> day_numeral [a] = true.
Proof.
  intros H. unfold day_numeral. rewrite numeral_one, H. reflexivity.
Qed.

Lemma day_two_ascii a b :
  ascii_digit a = true -> ascii_digit b = true -> day_numeral [a; b] = true.
Proof.
  intros Ha Hb. unfold day_numeral. rewrite numeral_two, Ha, Hb. reflexivity.
Qed.

Lemma day_two_any a b :
  between 49 50 a = true -> isdecimal b = true -> day_numeral [a; b] = true.
Proof.
  intros Ha Hb. unfold day_numeral. apply orb_true_iff. right.
  rewrite Hb, andb_true_r. apply orb_true_iff.
  destruct (N.eqb_spec a 49) as [E|E]; [left|right]; char_arith.
Qed.

Lemma lang_re_d m :
  Re.lang re_d m ->
  (day_numeral m = true /\ 1 <= decimal m <= 31) \/
  (exists c, m = [ch " "; c] /\ ascii_digit c = true).
Proof.
  simpl. intros H. break; cbn [app];
    repeat match goal with
    | H : Re.is_char _ _ = true |- _ =>
        apply CharFacts.is_char_eq in H; subst
    end.
  - (* 3[0-1] *)
    match goal with
    | H : between _ _ ?c = true |- _ =>
        apply (CharFacts.range_digit 48 49) in H as [A V]; [|lia|lia]
    end.
    left. split; [apply day_two_ascii; [reflexivity|exact A]|].
    rewrite decimal_two. change (digit_value 51%N) with 3. lia.
  - (* [1-2]\d *)
    match goal with
    | H : isdecimal ?c = true |- _ =>
        pose proof (CharFacts.digit_value_range c) as R;
        left; split; [apply day_two_any; assumption|]
    end.
    match goal with
    | H : between _ _ ?c = true |- _ =>
        apply (CharFacts.range_digit 49 50) in H as [A V]; [|lia|lia]
    end.
    rewrite decimal_two. lia.
  - (* 0[1-9] *)
    match goal with
    | H : between _ _ ?c = true |- _ =>
        apply (CharFacts.range_digit 49 57) in H as [A V]; [|lia|lia]
    end.
    left. split; [apply day_two_ascii; [reflexivity|exact A]|].
    rewrite decimal_two. change (digit_value 48%N) with 0. lia.
  - (* [1-9] *)
    match goal with
    | H : between _ _ ?c = true |- _ =>
        apply (CharFacts.range_digit 49 57) in H as [A V]; [|lia|lia]
    end.
    left. split; [apply day_one_ascii, A|]. rewrite decimal_one. lia.
  - (* a blank, [1-9] *)
    match goal with
    | H : between _ _ ?c = true |- _ =>
        apply (CharFacts.range_digit 49 57) in H as [A V]; [|lia|lia]
    end.
    right. eexists. split; [reflexivity|exact A].
Qed.

Lemma lang_re_d_of m :
  day_numeral m = true -> 1 <= decimal m <= 31 -> Re.lang re_d m.
Proof.
  unfold day_numeral. intros H V. apply orb_true_iff in H as [H|H].
  - destruct m as [|c1 [|c2 [|c3 m]]];
      try (unfold numeral in H; cbn [length] in H; b2p; discriminate || lia).
    + rewrite numeral_one in H. rewrite decimal_one in V.
      rewrite (CharFacts.ascii_digit_value _ H) in V.
      simpl. right; right; right; left. exists c1. split; [reflexivity|].
      char_arith.
    + rewrite numeral_two in H. apply andb_true_iff in H as [H1 H2].
      rewrite decimal_two in V.
      rewrite (CharFacts.ascii_digit_value _ H1),
        (CharFacts.ascii_digit_value _ H2) in V.
      assert (D : ((code c1 = 51 /\ code c2 <= 49) \/
                   (49 <= code c1 <= 50) \/
                   (code c1 = 48 /\ 49 <= code c2))%N) by char_arith.
      simpl. destruct D as [[D1 D2]|[D|[D1 D2]]];
        [left|right; left|right; right; left];
        exists [c1], [c2]; (split; [reflexivity|]);
        split; eexists; (split; [reflexivity|]);
        try (apply CharFacts.ascii_digit_isdecimal, H2); char_arith.
  - destruct m as [|a [|b [|c s]]]; try discriminate.
    apply andb_true_iff in H as [Ha Hb].
    simpl. right; left. exists [a], [b]. split; [reflexivity|].
    split; eexists; (split; [reflexivity|]); [|exact Hb].
    apply orb_true_iff in Ha as [Ha|Ha]; char_arith.
Qed.

Lemma lang_re_m m :
  Re.lang re_m m -> numeral 1 2 m = true /\ 1 <= decimal m <= 12.
Proof.
  simpl. intros H. break; cbn [app];
    repeat match goal with
    | H : Re.is_char _ _ = true |- _ =>
        apply CharFacts.is_char_eq in H; subst
    end.
  - (* 1[0-2] *)
    match goal with
    | H : between _ _ ?c = true |- _ =>
        apply (CharFacts.range_digit 48 50) in H as [A V]; [|lia|lia]
    end.
    rewrite numeral_two, A, decimal_two.
    split; [reflexivity|]. change (digit_value 49%N) with 1. lia.
  - (* 0[1-9] *)
    match goal with
    | H : between _ _ ?c = true |- _ =>
        apply (CharFacts.range_digit 49 57) in H as [A V]; [|lia|lia]
    end.
    rewrite numeral_two, A, decimal_two.
    split; [reflexivity|]. change (digit_value 48%N) with 0. lia.
  - (* [1-9] *)
    match goal with
    | H : between _ _ ?c = true |- _ =>
        apply (CharFacts.range_digit 49 57) in H as [A V]; [|lia|lia]
    end.
    rewrite numeral_one, A, decimal_one. split; [reflexivity|]. lia.
Qed.

Lemma lang_re_m_of m :
  numeral 1 2 m = true -> 1 <= decimal m <= 12 -> Re.lang re_m m.
Proof.
  intros H V.
  destruct m as [|c1 [|c2 [|c3 m]]];
    try (unfold numeral in H; cbn [length] in H; b2p; discriminate || lia).
  - rewrite numeral_one in H. rewrite decimal_one in V.
    rewrite (CharFacts.ascii_digit_value _ H) in V.
    simpl. right; right. exists c1. split; [reflexivity|]. char_arith.
  - rewrite numeral_two in H. apply andb_true_iff in H as [H1 H2].
    rewrite decimal_two in V.
    rewrite (CharFacts.ascii_digit_value _ H1),
      (CharFacts.ascii_digit_value _ H2) in V.
    assert (D : ((code c1 = 49 /\ code c2 <= 50) \/
                 (code c1 = 48 /\ 49 <= code c2))%N) by char_arith.
    simpl. destruct D as [[D1 D2]|[D1 D2]]; [left|right; left];
      exists [c1], [c2]; (split; [reflexivity|]);
      split; eexists; (split; [reflexivity|]); char_arith.
Qed.

Lemma lang_re_Y m : Re.lang re_Y m <-> year_numeral m = true.
Proof.
  split.
  - simpl. intros H. break. cbn [app]. unfold year_numeral.
    cbn [forallb length].
    repeat match goal with
    | H : isdecimal _ = true |- _ => rewrite H; clear H
    end.
    reflexivity.
  - unfold year_numeral. intros H.
    destruct m as [|c1 [|c2 [|c3 [|c4 [|c5 m]]]]]; cbn [forallb length] in *;
      b2p; try discriminate.
    simpl. exists [c1], [c2; c3; c4]. split; [reflexivity|].
    split; [eexists; split; [reflexivity|assumption]|].
    exists [c2], [c3; c4]. split; [reflexivity|].
    split; [eexists; split; [reflexivity|assumption]|].
    exists [c3], [c4]. split; [reflexivity|].
    split; eexists; split; try reflexivity; assumption.
Qed.

Lemma lang_re_dot m : Re.lang re_dot m <-> m = lit ".".
Proof.
  simpl. split.
  - intros [c [-> H]]. apply CharFacts.is_char_eq in H. subst. reflexivity.
  - intros ->. exists (ch "."). split; reflexivity.
Qed.

Lemma lang_re_d_no_dot m : Re.lang re_d m -> ~ In (ch ".") m.
Proof.
  intros H. apply lang_re_d in H as [[H _]|[c [-> H]]].
  - apply day_numeral_decimal in H as [_ H]. apply digits_no_dot, H.
  - intros [D|[D|[]]]; [discriminate|]. subst c. discriminate.
Qed.

Lemma lang_re_m_no_dot m : Re.lang re_m m -> ~ In (ch ".") m.
Proof. intros H. apply lang_re_m in H as [H _]. eapply numeral_no_dot, H. Qed.

Lemma cut_unique (c : char) a : forall a' b b',
  ~ In c a -> ~ In c a' -> a ++ c :: b = a' ++ c :: b' -> a = a' /\ b = b'.
Proof.
  induction a as [|x a IH]; intros [|y a'] b b' Ha Ha' E; simpl in *.
  - injection E as ->. auto.
  - injection E as <- _. tauto.
  - injection E as -> _. tauto.
  - injection E as -> E. apply IH in E as [-> ->]; tauto.
Qed.

Lemma match_dmY_sound s d m y rest :
  In (d, m, y, rest) (match_dmY s) ->
  s = d ++ lit "." ++ m ++ lit "." ++ y ++ rest /\
  Re.lang re_d d /\ Re.lang re_m m /\ Re.lang re_Y y.
Proof.
  unfold match_dmY. intros H.
  apply in_flat_map in H as [[d' s1] [Hd H]].
  apply in_flat_map in H as [[p1 s2] [Hp1 H]].
  apply in_flat_map in H as [[m' s3] [Hm H]].
  apply in_flat_map in H as [[p2 s4] [Hp2 H]].
  apply in_map_iff in H as [[y' s5] [E Hy]].
  cbn [fst snd] in *. injection E as <- <- <- <-.
  apply ReFacts.rmatch_sound in Hd as [-> Ld], Hp1 as [-> Lp1],
    Hm as [-> Lm], Hp2 as [-> Lp2], Hy as [-> Ly].
  apply lang_re_dot in Lp1, Lp2. subst p1 p2. auto.
Qed.

Lemma match_dmY_complete d m y rest :
  Re.lang re_d d -> Re.lang re_m m -> Re.lang re_Y y ->
  In (d, m, y, rest) (match_dmY (d ++ lit "." ++ m ++ lit "." ++ y ++ rest)).
Proof.
  intros Ld Lm Ly. unfold match_dmY.
  apply in_flat_map. eexists (d, _). split; [apply ReFacts.rmatch_complete, Ld|].
  apply in_flat_map. eexists (lit ".", _).
  split; [apply ReFacts.rmatch_complete, lang_re_dot; reflexivity|].
  apply in_flat_map. eexists (m, _). split; [apply ReFacts.rmatch_complete, Lm|].
  apply in_flat_map. eexists (lit ".", _).
  split; [apply ReFacts.rmatch_complete, lang_re_dot; reflexivity|].
  apply in_map_iff. exists (y, rest).
  split; [reflexivity|apply ReFacts.rmatch_complete, Ly].
Qed.

Lemma days_in_month_le y m : days_in_month y m <= 31.
Proof.
  unfold days_in_month.
  repeat match goal with
         | |- context [match ?x with _ => _ end] => destruct x
         end; lia.
Qed.

Lemma valid_ymd_bounds y m d :
  valid_ymd y m d = true -> 1 <= y <= 9999 /\ 1 <= m <= 12 /\ 1 <= d <= 31.
Proof.
  unfold valid_ymd. intros H. b2p. pose proof (days_in_month_le y m). lia.
Qed.


Lemma year_numeral_length s : year_numeral s = true -> length s = 4%nat.
Proof. unfold year_numeral. intros H. b2p. assumption. Qed.

(** [strptime] fails with [ValueError] only. *)
Lemma strptime_error s e : strptime s = Err e -> e = ValueError.
Proof.
  unfold strptime.
  destruct (match_dmY s) as [|[[[d m] y] [|c rest]] l]; try congruence.
  destruct (py_int y), (py_int m), (py_int d); try congruence.
  destruct (valid_ymd _ _ _); congruence.
Qed.

(** A text that reads as a date is accepted. *)
Lemma strptime_complete s d : date_text s d -> strptime s = Ok d.
Proof.
  intros (ds & ms & ys & -> & Nd & Nm & Ny & -> & V).
  unfold valid_date in V. cbn [year month day] in V.
  pose proof (valid_ymd_bounds _ _ _ V) as (_ & Bm & Bd).
  pose proof (lang_re_d_of ds Nd Bd) as Ld.
  pose proof (lang_re_m_of ms Nm Bm) as Lm.
  pose proof (proj2 (lang_re_Y ys) Ny) as Ly.
  pose proof (match_dmY_complete ds ms ys [] Ld Lm Ly) as C.
  rewrite app_nil_r in C. unfold strptime.
  destruct (match_dmY _) as [|[[[d' m'] y'] rest] l] eqn:E; [destruct C|].
  assert (S : In (d', m', y', rest) (match_dmY (ds ++ lit "." ++ ms ++ lit "." ++ ys)))
    by (rewrite E; left; reflexivity).
  apply match_dmY_sound in S as (S & Ld' & Lm' & Ly').
  apply cut_unique in S as [<- S];
    [|apply lang_re_d_no_dot, Ld|apply lang_re_d_no_dot, Ld'].
  apply cut_unique in S as [<- S];
    [|apply lang_re_m_no_dot, Lm|apply lang_re_m_no_dot, Lm'].
  apply lang_re_Y in Ly'.
  assert (rest = [] /\ y' = ys) as [-> ->].
  { apply year_numeral_length in Ny, Ly'.
    assert (length ys = length y' + length rest)%nat
      by (rewrite S, length_app; reflexivity).
    destruct rest; [rewrite app_nil_r in S; auto|simpl in *; lia]. }
  rewrite (year_numeral_py_int _ Ny), (numeral_py_int _ _ _ Nm),
    (day_numeral_py_int _ Nd), V.
  reflexivity.
Qed.

(** What is accepted reads as a date, unless it starts with a blank. *)
Lemma strptime_sound s d :
  (forall c t, s = c :: t -> isspace c = false) ->
  strptime s = Ok d -> date_text s d.
Proof.
  intros Hs. unfold strptime.
  destruct (match_dmY s) as [|[[[dg mg] yg] [|c rest]] l] eqn:E; try discriminate.
  assert (S : In (dg, mg, yg, []) (match_dmY s)) by (rewrite E; left; reflexivity).
  apply match_dmY_sound in S as (S & Ld & Lm & Ly).
  rewrite app_nil_r in S.
  apply lang_re_m in Lm as [Nm _]. apply lang_re_Y in Ly.
  apply lang_re_d in Ld as [[Nd _]|[c [-> _]]].
  - rewrite (year_numeral_py_int _ Ly), (numeral_py_int _ _ _ Nm),
      (day_numeral_py_int _ Nd).
    destruct (valid_ymd _ _ _) eqn:V; [|discriminate].
    intros [= <-]. exists dg, mg, yg. auto 10.
  - subst s. simpl in Hs. specialize (Hs _ _ eq_refl). discriminate.
Qed.

Lemma strptime_strip_iff line d :
  strptime (strip line) = Ok d <-> date_text (strip line) d.
Proof.
  split; [|apply strptime_complete].
  apply strptime_sound. intros c t E. eapply PyStrFacts.strip_head, E.
Qed.

(** [split] cuts at every separator: its first two parts. *)
Lemma split_before c s :
  split c s =
  before c s :: (if contains c s then split c (after c s) else []).
Proof.
  unfold contains. induction s as [|a s IH]; simpl; [reflexivity|].
  rewrite (CharEq.eqb_sym c a).
  destruct (Char.eqb a c); simpl; [reflexivity|].
  rewrite IH. reflexivity.
Qed.

Lemma split_parts c s :
  contains c s = true ->
  nth_error (split c s) 0 = Some (before c s) /\
  nth_error (split c s) 1 = Some (before c (after c s)).
Proof.
  intros H. rewrite split_before, H. simpl.
  rewrite split_before. auto.
Qed.

Lemma single_date_unfold line :
  contains "-" line = false ->
  parse_date line = (d <- strptime (strip line) ;; Ok (d, None)).
Proof.
  intros H. unfold parse_date.
  rewrite (PyStrFacts.contains_false_strip _ _ H). reflexivity.
Qed.

Lemma date_range_unfold line :
  contains "-" (strip line) = true ->
  parse_date line =
  (a <- strptime (strip (before "-" (strip line))) ;;
   b <- strptime (strip (before "-" (after "-" (strip line)))) ;;
   Ok (a, Some b)).
Proof.
  intros H. unfold parse_date. rewrite H.
  destruct (split_parts _ _ H) as [-> ->]. reflexivity.
Qed.

End DateFacts.

(** C1, as amended.  For every input line that contains no hyphen, the
    date resolver accepts the trimmed line exactly when it reads
    day.month.year with a day of one or two digits, a month of one or two
    digits and a year of four digits that together name an existing date
    of the years 1 to 9999; it then returns that date and no end date.
    The digits of the month and the first digit of the day are ASCII
    digits; each digit of the year, and the second digit of a day that
    starts with 1 or 2, may be a decimal digit of any script.  Every
    other line fails with [ValueError]. *)
Theorem parse_date_single_date (line : str) :
  PyStr.contains "-" line = false ->
  (forall r, parse_date line = Ok r <->
             exists d, r = (d, None) /\ Spec.date_text (PyStr.strip line) d) /\
  ((forall d, ~ Spec.date_text (PyStr.strip line) d) ->
   parse_date line = Err ValueError).
Proof.
  intros H. rewrite (DateFacts.single_date_unfold line H).
  split.
  - intros r. split.
    + destruct (strptime (PyStr.strip line)) as [d|e] eqn:E; [|discriminate].
      intros [= <-]. exists d. split; [reflexivity|].
      apply DateFacts.strptime_strip_iff, E.
    + intros (d & -> & T). apply DateFacts.strptime_strip_iff in T.
      rewrite T. reflexivity.
  - intros N. destruct (strptime (PyStr.strip line)) as [d|e] eqn:E.
    + apply DateFacts.strptime_strip_iff in E. destruct (N d E).
    + apply DateFacts.strptime_error in E. subst e. reflexivity.
Qed.

Lemma parse_date_single_date_witness :
  (forall r, parse_date (lit " 1.3.2024") = Ok r <->
             exists d, r = (d, None) /\
                       Spec.date_text (PyStr.strip (lit " 1.3.2024")) d) /\
  ((forall d, ~ Spec.date_text (PyStr.strip (lit " 1.3.2024")) d) ->
   parse_date (lit " 1.3.2024") = Err ValueError).
Proof. apply (parse_date_single_date (lit " 1.3.2024")). reflexivity. Defined.

(** C1 as stated fails: a line with a one-digit day and a one-digit month
    has no hyphen and not the strict shape, and is accepted. *)
Lemma parse_date_strict_counterexample :
  ~ (PyStr.contains "-" (lit "1.3.2024") = false ->
     ((exists r, parse_date (lit "1.3.2024") = Ok r) <->
      Spec.strict_shape (PyStr.strip (lit "1.3.2024")) = true)).
Proof.
  intros H. specialize (H eq_refl). destruct H as [H _].
  assert (A : exists r, parse_date (lit "1.3.2024") = Ok r)
    by (eexists; reflexivity).
  apply H in A. discriminate A.
Qed.

(** C2, as amended.  For every line whose trimmed text contains a hyphen,
    the date resolver cuts the text at every hyphen and reads only the
    first two pieces, each trimmed: the text before the first hyphen and
    the text between the first hyphen and the second (or the end of the
    line).  It returns (start, end) exactly when both pieces read as
    dates, in the form of C1 (one or two digits for day and month, four
    for the year, decimal digits of any script in the year and in the
    second place of a day that starts with 1 or 2), and fails with
    [ValueError] otherwise; whatever follows a second hyphen is
    ignored. *)
Theorem parse_date_range (line : str) :
  let s := PyStr.strip line in
  let first := PyStr.strip (Spec.before "-" s) in
  let second := PyStr.strip (Spec.before "-" (Spec.after "-" s)) in
  PyStr.contains "-" s = true ->
  (forall r, parse_date line = Ok r <->
             exists a b, r = (a, Some b) /\
                         Spec.date_text first a /\ Spec.date_text second b) /\
  ((forall a b, ~ (Spec.date_text first a /\ Spec.date_text second b)) ->
   parse_date line = Err ValueError).
Proof.
  intros s first second H.
  rewrite (DateFacts.date_range_unfold line H).
  assert (Ia : forall a, strptime first = Ok a <-> Spec.date_text first a)
    by (intros a; apply DateFacts.strptime_strip_iff).
  assert (Ib : forall b, strptime second = Ok b <-> Spec.date_text second b)
    by (intros b; apply DateFacts.strptime_strip_iff).
  change (PyStr.strip (Spec.before "-" (PyStr.strip line))) with first.
  change (PyStr.strip (Spec.before "-" (Spec.after "-" (PyStr.strip line))))
    with second.
  clearbody first second. split.
  - intros r. split.
    + destruct (strptime first) as [a|e] eqn:Ea; [|discriminate].
      destruct (strptime second) as [b|e] eqn:Eb; [|discriminate].
      intros [= <-]. exists a, b.
      split; [reflexivity|]. split; [apply Ia|apply Ib]; reflexivity.
    + intros (a & b & -> & Ta & Tb). apply Ia in Ta. apply Ib in Tb.
      rewrite Ta. simpl. rewrite Tb. reflexivity.
  - intros N.
    destruct (strptime first) as [a|e] eqn:Ea.
    + destruct (strptime second) as [b|e] eqn:Eb.
      * destruct (N a b). split; [apply Ia|apply Ib]; reflexivity.
      * apply DateFacts.strptime_error in Eb. subst e. reflexivity.
    + apply DateFacts.strptime_error in Ea. subst e. reflexivity.
Qed.

Lemma parse_date_range_witness :
  exists a b,
    (mkdate 2024 3 1, Some (mkdate 2024 3 3)) = (a, Some b) /\
    Spec.date_text (lit "01.03.2024") a /\ Spec.date_text (lit "03.03.2024") b.
Proof.
  destruct (parse_date_range (lit "01.03.2024 - 03.03.2024 - note") eq_refl)
    as [H _].
  apply (proj1 (H (mkdate 2024 3 1, Some (mkdate 2024 3 3)))).
  reflexivity.
Defined.

(** C2 as stated fails: with text after a second hyphen the call succeeds,
    where the resolver the specification describes reports a failure. *)
Lemma parse_date_second_hyphen_counterexample :
  parse_date (lit "01.03.2024 - 03.03.2024 - note") =
    Ok (mkdate 2024 3 1, Some (mkdate 2024 3 3)) /\
  Spec.parse_date_spec (lit "01.03.2024 - 03.03.2024 - note") = Err ValueError /\
  parse_date (lit "01.03.2024 - 03.03.2024 - note") <>
    Spec.parse_date_spec (lit "01.03.2024 - 03.03.2024 - note").
Proof. repeat split; (reflexivity || discriminate). Qed.

(** ** The event extractor *)

Module ExtractFacts.
Import PyStr Spec.

Lemma take_drop_while {A : Type} (p : A -> bool) l :
  take_while p l ++ drop_while p l = l.
Proof.
  induction l as [|x l IH]; simpl; [reflexivity|].
  destruct (p x); simpl; [rewrite IH|]; reflexivity.
Qed.

Lemma take_while_all {A : Type} (p : A -> bool) l :
  Forall (fun x => p x = true) (take_while p l).
Proof.
  induction l as [|x l IH]; simpl; [constructor|].
  destruct (p x) eqn:E; constructor; assumption.
Qed.

Lemma drop_while_head {A : Type} (p : A -> bool) l x r :
  drop_while p l = x :: r -> p x = false.
Proof.
  induction l as [|y l IH]; simpl; [discriminate|].
  destruct (p y) eqn:E; [exact IH|]. intros [= <- _]. exact E.
Qed.

Lemma drop_while_all {A : Type} (p : A -> bool) l :
  Forall (fun x => p x = true) l -> drop_while p l = [].
Proof.
  induction 1 as [|x r Hx _ IH]; simpl; [reflexivity|].
  rewrite Hx. exact IH.
Qed.

Lemma drop_while_nil {A : Type} (p : A -> bool) l :
  drop_while p l = [] -> take_while p l = l.
Proof.
  intros H. rewrite <- (take_drop_while p l) at 2. rewrite H, app_nil_r.
  reflexivity.
Qed.

Lemma take_while_app {A : Type} (p : A -> bool) l r :
  Forall (fun x => p x = true) l -> take_while p (l ++ r) = l ++ take_while p r.
Proof.
  induction 1 as [|x l Hx _ IH]; simpl; [reflexivity|].
  rewrite Hx, IH. reflexivity.
Qed.

Lemma skipn_length_take_while {A : Type} (p : A -> bool) l :
  skipn (length (take_while p l)) l = drop_while p l.
Proof.
  induction l as [|x l IH]; simpl; [reflexivity|].
  destruct (p x); simpl; [exact IH|reflexivity].
Qed.

Lemma skipn_cons_inv {A : Type} i (lines : list A) l rest :
  skipn i lines = l :: rest ->
  nth_error lines i = Some l /\ skipn (S i) lines = rest /\ i < length lines.
Proof.
  revert lines. induction i as [|i IH]; intros [|x lines]; simpl;
    try discriminate.
  - intros [= -> ->]. repeat split. lia.
  - intros H. apply IH in H as (H1 & H2 & H3). repeat split; auto. lia.
Qed.

Lemma skipn_cons_of {A : Type} i (lines : list A) :
  i < length lines ->
  exists l, nth_error lines i = Some l /\ skipn i lines = l :: skipn (S i) lines.
Proof.
  revert lines. induction i as [|i IH]; intros [|x lines]; simpl; try lia.
  - intros _. exists x. auto.
  - intros H. apply IH. lia.
Qed.

Lemma skipn_add {A : Type} i n (lines : list A) :
  skipn (i + n) lines = skipn n (skipn i lines).
Proof.
  revert lines. induction i as [|i IH]; intros lines; simpl; [reflexivity|].
  destruct lines; [destruct n; reflexivity|apply IH].
Qed.

Lemma skipn_nil_length {A : Type} i (lines : list A) :
  skipn i lines = [] -> length lines <= i.
Proof.
  revert lines. induction i as [|i IH]; intros [|x lines]; simpl;
    try discriminate; try lia.
  intros H. apply IH in H. lia.
Qed.

(** The two inner loops, told from the lines under and after the cursor. *)
Lemma skip_blank_eq rest i :
  skip_blank rest i = i + length (take_while blank rest).
Proof.
  revert i. induction rest as [|l rest IH]; intros i; simpl; [lia|].
  unfold blank at 1. destruct (negb (truthy (strip l))); simpl; [|lia].
  rewrite IH. lia.
Qed.

Lemma collect_body_eq rest i acc :
  collect_body rest i acc =
  (acc ++ map strip (take_while plain rest), i + length (take_while plain rest)).
Proof.
  revert i acc. induction rest as [|l rest IH]; intros i acc; simpl.
  - rewrite app_nil_r. f_equal. lia.
  - unfold plain at 1 3. destruct (negb (is_heading l)); simpl.
    + rewrite IH, <- app_assoc. simpl. f_equal. lia.
    + rewrite app_nil_r. f_equal. lia.
Qed.

Lemma is_heading_strip l : is_heading (strip l) = is_heading l.
Proof. unfold is_heading. rewrite PyStrFacts.strip_idem. reflexivity. Qed.

Lemma parse_date_strip l : parse_date (strip l) = parse_date l.
Proof. unfold parse_date. rewrite PyStrFacts.strip_idem. reflexivity. Qed.

(** One pass of the outer loop is [iteration_at]. *)
Lemma outer_iteration_at lines i l rest :
  skipn i lines = l :: rest ->
  outer_iteration lines i = iteration_at i l rest.
Proof.
  intros H. apply skipn_cons_inv in H as (Hl & Hrest & Hi).
  unfold outer_iteration, iteration_at. rewrite Hl, is_heading_strip.
  destruct (is_heading l); [|reflexivity].
  rewrite Hrest, skip_blank_eq.
  set (n := length (take_while blank rest)).
  assert (Hn : skipn (S i + n) lines = drop_while blank rest).
  { rewrite skipn_add, Hrest. apply skipn_length_take_while. }
  destruct (drop_while blank rest) as [|dl rest2] eqn:D.
  - apply skipn_nil_length in Hn.
    destruct (Nat.leb_spec (length lines) (S i + n)); [reflexivity|lia].
  - apply skipn_cons_inv in Hn as (Hdl & Hrest2 & Hlt).
    destruct (Nat.leb_spec (length lines) (S i + n)); [lia|].
    rewrite Hdl, parse_date_strip.
    destruct (parse_date dl) as [[sd ed]|e]; [|reflexivity].
    rewrite Hrest2, collect_body_eq. simpl.
    f_equal. lia.
Qed.


(** *** Heading lines *)

Lemma heading_starts_with_hash l :
  is_heading l = true -> exists t, strip l = hash :: t.
Proof.
  unfold is_heading. intros H.
  apply ReFacts.matches_true in H as (m & rest & E & L).
  unfold heading_re in L. cbn [Re.lang] in L.
  destruct L as (m1 & m2 & -> & [Hne Hm1] & _).
  destruct m1 as [|c m1]; [congruence|].
  cbn [forallb] in Hm1. apply andb_true_iff in Hm1 as [Hc _].
  apply CharEq.eqb_eq in Hc. subst c. rewrite E. cbn [app]. eauto.
Qed.

Lemma blank_is_plain l : blank l = true -> plain l = true.
Proof.
  unfold blank, plain, is_heading.
  destruct (strip l); [reflexivity|discriminate].
Qed.

Lemma heading_not_blank l : is_heading l = true -> blank l = false.
Proof.
  intros H. destruct (blank l) eqn:B; [|reflexivity].
  apply blank_is_plain in B. unfold plain in B. rewrite H in B. discriminate.
Qed.

Lemma strip_cons c u :
  isspace c = false -> strip (c :: u) = c :: rstrip_by isspace u.
Proof.
  intros H. unfold strip.
  rewrite (PyStrFacts.lstrip_by_fix _ _ _ H).
  apply PyStrFacts.rstrip_by_cons, H.
Qed.

Lemma strptime_hash u : strptime (hash :: u) = Err ValueError.
Proof. reflexivity. Qed.

(** The date resolver rejects every heading line. *)
Lemma heading_not_date l : is_heading l = true -> parses l = false.
Proof.
  intros H. apply heading_starts_with_hash in H as [t E].
  unfold parses, parse_date. rewrite E.
  destruct (contains "-" (hash :: t)) eqn:C.
  - destruct (DateFacts.split_parts _ _ C) as [-> ->].
    change (before "-" (hash :: t)) with (hash :: before "-" t).
    rewrite (strip_cons hash _ eq_refl), strptime_hash. reflexivity.
  - rewrite strptime_hash. reflexivity.
Qed.

(** *** The cursor *)

Lemma length_take_while_le {A : Type} (p : A -> bool) l :
  length (take_while p l) <= length l.
Proof.
  induction l as [|x l IH]; simpl; [lia|]. destruct (p x); simpl; lia.
Qed.

Lemma length_skipn_cons {A : Type} i (lines : list A) l rest :
  skipn i lines = l :: rest -> length lines = i + 1 + length rest.
Proof.
  intros H. pose proof (length_skipn i lines) as L.
  rewrite H in L. simpl in L.
  apply skipn_cons_inv in H as (_ & _ & Hi). lia.
Qed.

Lemma iteration_at_progress i l rest i' event :
  iteration_at i l rest = Next i' event -> i < i' <= i + 1 + length rest.
Proof.
  unfold iteration_at. destruct (is_heading l).
  - destruct (drop_while blank rest) as [|dl rest2] eqn:D; [discriminate|].
    destruct (parse_date dl) as [[sd ed]|e]; [|discriminate].
    intros [= <- _].
    pose proof (length_take_while_le plain rest2).
    assert (length rest = length (take_while blank rest) + S (length rest2)).
    { rewrite <- (take_drop_while blank rest) at 1.
      rewrite D, length_app. reflexivity. }
    lia.
  - intros [= <- _]. lia.
Qed.

Lemma outer_iteration_progress lines i i' event :
  i < length lines ->
  outer_iteration lines i = Next i' event -> i < i' <= length lines.
Proof.
  intros Hi H. destruct (skipn_cons_of i lines Hi) as (l & _ & E).
  rewrite (outer_iteration_at _ _ _ _ E) in H.
  apply iteration_at_progress in H.
  apply length_skipn_cons in E. lia.
Qed.

(** After an event the cursor is on the heading that ended its body, or
    at the end of input. *)
Lemma iteration_at_stops_at_heading i l rest i' e :
  iteration_at i l rest = Next i' (Some e) ->
  match skipn (i' - S i) rest with
  | [] => True
  | h :: _ => is_heading h = true
  end.
Proof.
  unfold iteration_at. destruct (is_heading l); [|discriminate].
  destruct (drop_while blank rest) as [|dl rest2] eqn:D; [discriminate|].
  destruct (parse_date dl) as [[sd ed]|e']; [|discriminate].
  intros [= <- _].
  match goal with
  | |- context [skipn ?n rest] =>
      replace n with (length (take_while blank rest) +
                      (1 + length (take_while plain rest2))) by lia
  end.
  rewrite skipn_add, skipn_length_take_while, D.
  change (skipn (1 + ?n) (dl :: rest2)) with (skipn n rest2).
  rewrite skipn_length_take_while.
  destruct (drop_while plain rest2) as [|h r] eqn:E; [exact I|].
  apply drop_while_head in E. unfold plain in E.
  apply negb_false_iff in E. exact E.
Qed.

(** The loop ends within the fuel of one iteration per line and one more. *)
Lemma parse_loop_total lines : forall fuel i events,
  length lines - i < fuel -> exists r, parse_loop fuel lines i events = Some r.
Proof.
  induction fuel as [|fuel IH]; intros i events Hf; [lia|].
  simpl. destruct (Nat.ltb_spec i (length lines)) as [Hi|Hi]; [|eauto].
  destruct (outer_iteration lines i) as [i' [e|]| |e] eqn:E; eauto;
    apply outer_iteration_progress in E; auto; apply IH; lia.
Qed.

(** *** Events and headings *)

Lemma dated_headings_plain pre r :
  Forall (fun l => plain l = true) pre ->
  dated_headings (pre ++ r) = dated_headings r.
Proof.
  induction 1 as [|l pre Hl _ IH]; simpl; [reflexivity|].
  unfold plain in Hl. apply negb_true_iff in Hl. rewrite Hl. exact IH.
Qed.

Lemma all_blank_plain l :
  Forall (fun x => blank x = true) l -> Forall (fun x => plain x = true) l.
Proof.
  intros H. eapply Forall_impl; [|exact H]. apply blank_is_plain.
Qed.

Lemma undated_all_blank rest :
  drop_while blank rest = [] -> dated rest = false /\ dated_headings rest = [].
Proof.
  intros D. apply drop_while_nil in D.
  pose proof (take_while_all blank rest) as B. rewrite D in B.
  pose proof (all_blank_plain _ B) as P. split.
  - unfold dated.
    replace (take_while plain rest) with rest.
    + clear D P. induction B as [|l r Hl _ IH]; simpl; [reflexivity|].
      rewrite Hl. exact IH.
    + rewrite <- (app_nil_r rest) at 2.
      rewrite (take_while_app plain rest [] P). simpl.
      rewrite app_nil_r. reflexivity.
  - rewrite <- (app_nil_r rest). apply (dated_headings_plain rest [] P).
Qed.

Lemma parses_is_plain dl : parses dl = true -> plain dl = true.
Proof.
  intros H. unfold plain. destruct (is_heading dl) eqn:E; [|reflexivity].
  apply heading_not_date in E. congruence.
Qed.

Lemma dated_after_date_line rest dl rest2 :
  drop_while blank rest = dl :: rest2 ->
  parses dl = true ->
  dated rest = true /\
  dated_headings rest = dated_headings (drop_while plain rest2).
Proof.
  intros D P.
  pose proof (all_blank_plain _ (take_while_all blank rest)) as Pb.
  pose proof (drop_while_head _ _ _ _ D) as Bd.
  pose proof (parses_is_plain dl P) as Pd.
  pose proof (take_drop_while blank rest) as E. rewrite D in E.
  split.
  - unfold dated. rewrite <- E, (take_while_app plain _ _ Pb).
    simpl. rewrite Pd, existsb_app. simpl. rewrite Bd, P. simpl.
    apply orb_true_r.
  - rewrite <- E at 1.
    rewrite (dated_headings_plain _ _ Pb). simpl.
    unfold plain in Pd. apply negb_true_iff in Pd. rewrite Pd. simpl.
    rewrite <- (take_drop_while plain rest2) at 1.
    apply dated_headings_plain, take_while_all.
Qed.

Lemma parse_loop_headings lines : forall fuel i acc events,
  parse_loop fuel lines i acc = Some (Ok events) ->
  exists new,
    events = acc ++ new /\
    map title new = map heading_text (dated_headings (skipn i lines)).
Proof.
  induction fuel as [|fuel IH]; intros i acc events; simpl; [discriminate|].
  destruct (Nat.ltb_spec i (length lines)) as [Hi|Hi].
  - destruct (skipn_cons_of i lines Hi) as (l & _ & E).
    rewrite (outer_iteration_at _ _ _ _ E), E.
    set (rest := skipn (S i) lines) in *.
    unfold iteration_at. simpl dated_headings.
    destruct (is_heading l) eqn:Hh; simpl andb.
    + destruct (drop_while blank rest) as [|dl rest2] eqn:D.
      * intros [= <-]. apply undated_all_blank in D as [-> ->].
        exists []. rewrite app_nil_r. auto.
      * destruct (parse_date dl) as [[sd ed]|e] eqn:P; [|discriminate].
        assert (Pd : parses dl = true) by (unfold parses; rewrite P; reflexivity).
        destruct (dated_after_date_line _ _ _ D Pd) as [-> ->].
        intros H. apply IH in H as (new & -> & Hn).
        eexists (_ :: new). rewrite <- app_assoc. split; [reflexivity|].
        simpl. f_equal. rewrite Hn. do 2 f_equal.
        match goal with
        | |- skipn ?n lines = _ =>
            replace n with (S i + (length (take_while blank rest) +
                                   (1 + length (take_while plain rest2))))
              by lia
        end.
        rewrite skipn_add. fold rest.
        rewrite skipn_add, skipn_length_take_while, D.
        change (skipn (1 + ?n) (dl :: rest2)) with (skipn n rest2).
        apply skipn_length_take_while.
    + intros H. apply IH in H. exact H.
  - intros [= <-]. exists []. rewrite app_nil_r. split; [reflexivity|].
    rewrite skipn_all2 by lia. reflexivity.
Qed.

Lemma arrives_loop lines i events :
  arrives lines i events ->
  exists k, k <= i /\
    forall fuel, parse_loop (k + fuel) lines 0 [] = parse_loop fuel lines i events.
Proof.
  induction 1 as [|i events i' event _ (k & Hk & IH) Hi E].
  - exists 0. split; [lia|reflexivity].
  - exists (S k). split; [apply outer_iteration_progress in E; lia|].
    intros fuel. replace (S k + fuel) with (k + S fuel) by lia.
    rewrite IH. simpl.
    destruct (Nat.ltb_spec i (length lines)); [|lia].
    rewrite E. destruct event; [reflexivity|].
    rewrite app_nil_r. reflexivity.
Qed.

Lemma dangling_is_break lines i h :
  nth_error lines i = Some h ->
  is_heading h = true ->
  Forall (fun l => blank l = true) (skipn (S i) lines) ->
  outer_iteration lines i = Break.
Proof.
  intros Hn Hh B.
  assert (Hi : i < length lines) by (apply nth_error_Some; congruence).
  destruct (skipn_cons_of i lines Hi) as (l & Hl & E).
  assert (l = h) by congruence. subst l.
  rewrite (outer_iteration_at _ _ _ _ E). unfold iteration_at. rewrite Hh.
  rewrite (drop_while_all blank _ B). reflexivity.
Qed.

(** *** The way to a final heading *)

Lemma take_while_app_stop {A : Type} (p : A -> bool) a x b :
  p x = false -> take_while p (a ++ x :: b) = take_while p a.
Proof.
  intros H. induction a as [|y a IH]; simpl; [rewrite H; reflexivity|].
  destruct (p y); [rewrite IH|]; reflexivity.
Qed.

Lemma drop_while_app_stop {A : Type} (p : A -> bool) a x b :
  p x = false -> drop_while p (a ++ x :: b) = drop_while p a ++ x :: b.
Proof.
  intros H. induction a as [|y a IH]; simpl; [rewrite H; reflexivity|].
  destruct (p y); [exact IH|reflexivity].
Qed.

Lemma skipn_split_at {A : Type} (lines : list A) j i h tail :
  j < i -> skipn i lines = h :: tail ->
  exists mid, skipn (S j) lines = mid ++ h :: tail /\ length mid = i - S j.
Proof.
  intros Hj E. exists (firstn (i - S j) (skipn (S j) lines)). split.
  - rewrite <- E. replace i with (S j + (i - S j)) at 2 by lia.
    rewrite skipn_add. symmetry. apply firstn_skipn.
  - apply length_skipn_cons in E.
    rewrite length_firstn, length_skipn. lia.
Qed.

(** The date resolver fails with [ValueError] only. *)
Lemma parse_date_error l e : parse_date l = Err e -> e = ValueError.
Proof.
  unfold parse_date. destruct (contains "-" (strip l)) eqn:C.
  - destruct (DateFacts.split_parts _ _ C) as [-> ->].
    destruct (strptime (strip (before "-" (strip l)))) as [a|x] eqn:Ea;
      cbn [bind].
    + destruct (strptime (strip (before "-" (after "-" (strip l)))))
        as [b|y] eqn:Eb; cbn [bind]; [discriminate|].
      intros [= <-]. eapply DateFacts.strptime_error, Eb.
    + intros [= <-]. eapply DateFacts.strptime_error, Ea.
  - destruct (strptime (strip l)) as [a|x] eqn:Ea; cbn [bind]; [discriminate|].
    intros [= <-]. eapply DateFacts.strptime_error, Ea.
Qed.

Lemma iteration_at_error i l rest e :
  iteration_at i l rest = Raise e -> e = ValueError.
Proof.
  unfold iteration_at. destruct (is_heading l); [|discriminate].
  destruct (drop_while blank rest) as [|dl rest2]; [discriminate|].
  destruct (parse_date dl) as [[sd ed]|x] eqn:P; [discriminate|].
  intros [= <-]. eapply parse_date_error, P.
Qed.

(** Before a heading that only blank lines follow, an iteration neither
    breaks nor moves the cursor past that heading. *)
Lemma iteration_before_heading j l mid h tail :
  is_heading h = true ->
  iteration_at j l (mid ++ h :: tail) <> Break /\
  (forall j' event,
      iteration_at j l (mid ++ h :: tail) = Next j' event ->
      j' <= S j + length mid).
Proof.
  intros Hh.
  pose proof (heading_not_blank h Hh) as Bh.
  assert (Ph : plain h = false) by (unfold plain; rewrite Hh; reflexivity).
  pose proof (heading_not_date h Hh) as Dh.
  unfold iteration_at. destruct (is_heading l); [|split; [discriminate|]].
  - rewrite (take_while_app_stop blank mid h tail Bh),
      (drop_while_app_stop blank mid h tail Bh).
    pose proof (take_drop_while blank mid) as Em.
    destruct (drop_while blank mid) as [|dl a2]; cbn [app].
    + unfold parses in Dh. destruct (parse_date h) as [[sd ed]|x];
        [discriminate|]. split; [discriminate|]. intros j' ev; discriminate.
    + destruct (parse_date dl) as [[sd ed]|x];
        [|split; [discriminate|intros j' ev; discriminate]].
      split; [discriminate|]. intros j' ev [= <- _].
      rewrite (take_while_app_stop plain a2 h tail Ph).
      pose proof (length_take_while_le plain a2).
      assert (length mid = length (take_while blank mid) + S (length a2))
        by (rewrite <- Em at 1; rewrite length_app; reflexivity).
      lia.
  - intros j' ev [= <- _]. lia.
Qed.

(** The loop arrives at such a heading, or a date line before it fails. *)
Lemma arrives_or_raises lines i h :
  nth_error lines i = Some h ->
  is_heading h = true ->
  forall n j events,
    i - j <= n -> j <= i -> arrives lines j events ->
    (exists events', arrives lines i events') \/
    (exists j' events',
        j' < i /\ arrives lines j' events' /\
        outer_iteration lines j' = Raise ValueError).
Proof.
  intros Hn Hh.
  assert (Hi : i < length lines) by (apply nth_error_Some; congruence).
  destruct (skipn_cons_of i lines Hi) as (h' & Hh' & Ei).
  assert (h' = h) by congruence. subst h'.
  induction n as [|n IH]; intros j events Hd Hj A.
  - assert (j = i) by lia. subst j. eauto.
  - destruct (Nat.eq_dec j i) as [->|Hne]; [eauto|].
    assert (Hlt : j < i) by lia. assert (Hjl : j < length lines) by lia.
    destruct (skipn_cons_of j lines Hjl) as (l & _ & Ej).
    destruct (skipn_split_at lines j i h _ Hlt Ei) as (mid & Em & Lm).
    pose proof (outer_iteration_at _ _ _ _ Ej) as E. rewrite Em in E.
    destruct (iteration_before_heading j l mid h (skipn (S i) lines) Hh)
      as [NB NJ].
    destruct (iteration_at j l (mid ++ h :: skipn (S i) lines))
      as [j' ev| |e] eqn:It.
    + pose proof (outer_iteration_progress lines j j' ev Hjl E) as P.
      specialize (NJ j' ev eq_refl).
      eapply (IH j'); [lia|lia|].
      eapply arrives_next; eassumption.
    + congruence.
    + right. exists j, events.
      apply iteration_at_error in It as Ee. subst e. auto.
Qed.

Lemma raise_is_result lines j events e :
  arrives lines j events -> j < length lines ->
  outer_iteration lines j = Raise e ->
  parse_lines lines = Some (Err e).
Proof.
  intros A Hj E. apply arrives_loop in A as (k & Hk & A).
  unfold parse_lines.
  replace (S (length lines)) with (k + S (length lines - k)) by lia.
  rewrite A. simpl.
  destruct (Nat.ltb_spec j (length lines)); [|lia].
  rewrite E. reflexivity.
Qed.

(** *** Tags *)

Lemma findall_from_lang r s : forall k m,
  In m (Re.findall_from r s k) -> Re.lang r m.
Proof.
  induction s as [|c s IH]; intros k m; simpl; [intros []|].
  destruct k as [|k]; [|apply IH].
  destruct (Re.rmatch r (c :: s)) as [|[m' rest] l] eqn:E; [apply IH|].
  intros [<-|H]; [|eapply IH, H].
  eapply ReFacts.rmatch_sound. rewrite E. left. reflexivity.
Qed.

Lemma parse_tags_ok l : Forall tag_ok (parse_tags l).
Proof.
  apply Forall_forall. intros t H. unfold parse_tags in H.
  apply in_map_iff in H as (m & <- & H).
  apply findall_from_lang in H. unfold tag_pattern in H. cbn [Re.lang] in H.
  destruct H as (m1 & m2 & -> & (c & -> & _) & Hne & Hm2).
  split; assumption.
Qed.

Lemma tag_char_alphabet c : tag_char c = existsb (Char.eqb c) tag_alphabet.
Proof.
  destruct (N.ltb_spec (code c) 128) as [L|L].
  - (* ASCII: character by character *)
    apply eqb_prop.
    apply (CharFacts.ascii_forall
             (fun x => Bool.eqb (tag_char x)
                         (existsb (Char.eqb x) tag_alphabet)));
      [vm_compute; reflexivity|exact L].
  - (* beyond ASCII: in neither *)
    assert (T : tag_char c = false).
    { apply not_true_is_false. intros H.
      apply CharFacts.tag_char_ascii in H. lia. }
    rewrite T. symmetry. apply not_true_is_false. intros H.
    apply existsb_exists in H as (x & Hx & E).
    apply CharEq.eqb_eq in E. subst x.
    assert (A : forallb (fun x => (code x <? 128)%N) tag_alphabet = true)
      by (vm_compute; reflexivity).
    rewrite forallb_forall in A. apply A in Hx. apply N.ltb_lt in Hx. lia.
Qed.

Lemma tag_ok_well_formed t : tag_ok t -> well_formed_tag t.
Proof.
  intros [Hne H]. split; [assumption|].
  apply Forall_forall. intros c Hc.
  rewrite forallb_forall in H. apply H in Hc.
  rewrite tag_char_alphabet in Hc.
  apply existsb_exists in Hc as (x & Hx & E).
  apply CharEq.eqb_eq in E. subst x. exact Hx.
Qed.

(** *** Body lines *)

Lemma is_tag_line_truthy l : is_tag_line l = true -> truthy l = true.
Proof. destruct l; [discriminate|reflexivity]. Qed.

Lemma last_cons {A : Type} (a : A) l d : last (a :: l) d = last l a.
Proof.
  revert a d. induction l as [|b l IH]; intros a d; [reflexivity|].
  change (last (a :: b :: l) d) with (last (b :: l) d).
  rewrite !IH. reflexivity.
Qed.

Lemma separate_step_classify b l :
  separate_step b l =
  match classify l with
  | Link => mkBody (b_tags b) (b_description b) l
  | Tags => mkBody (b_tags b ++ parse_tags l) (b_description b) (b_link b)
  | Text => mkBody (b_tags b) (add_text (b_description b) l) (b_link b)
  | Empty => b
  end.
Proof.
  unfold separate_step, classify. destruct (is_link l); [reflexivity|].
  destruct (is_tag_line l) eqn:T.
  - rewrite (is_tag_line_truthy l T). reflexivity.
  - rewrite andb_false_r. destruct (truthy l); reflexivity.
Qed.

Lemma separate_fold content_lines : forall b,
  fold_left separate_step content_lines b =
  mkBody (b_tags b ++ flat_map parse_tags (of_category Tags content_lines))
         (fold_left add_text (of_category Text content_lines) (b_description b))
         (last (of_category Link content_lines) (b_link b)).
Proof.
  unfold of_category.
  induction content_lines as [|l cl IH]; intros b; cbn [fold_left filter].
  - simpl. rewrite app_nil_r. destruct b; reflexivity.
  - rewrite IH, separate_step_classify.
    destruct (classify l);
      cbn [category_eqb flat_map b_tags b_description b_link fold_left];
      try reflexivity.
    + rewrite last_cons. reflexivity.
    + rewrite app_assoc. reflexivity.
Qed.

Lemma add_text_nonempty texts : forall d,
  d <> [] ->
  fold_left add_text texts d = d ++ flat_map (fun t => nl :: t) texts.
Proof.
  induction texts as [|t texts IH]; intros d Hd; simpl.
  - rewrite app_nil_r. reflexivity.
  - rewrite IH.
    + unfold add_text. destruct d; [congruence|]. simpl.
      rewrite <- !app_assoc. reflexivity.
    + unfold add_text. destruct d; [congruence|]. discriminate.
Qed.

Lemma join_flat_map t texts :
  join [nl] (t :: texts) = t ++ flat_map (fun t => nl :: t) texts.
Proof.
  revert t. induction texts as [|u texts IH]; intros t.
  - simpl. rewrite app_nil_r. reflexivity.
  - change (join [nl] (t :: u :: texts)) with (t ++ [nl] ++ join [nl] (u :: texts)).
    rewrite IH. reflexivity.
Qed.

Lemma add_text_join texts :
  Forall (fun t => t <> []) texts ->
  fold_left add_text texts [] = join [nl] texts.
Proof.
  intros H. destruct H as [|t texts Ht _]; [reflexivity|].
  simpl fold_left. change (add_text [] t) with t.
  rewrite (add_text_nonempty texts t Ht). symmetry. apply join_flat_map.
Qed.

Lemma classify_cases l :
  match classify l with
  | Link => is_link l = true
  | Tags => is_link l = false /\ is_tag_line l = true
  | Text => is_link l = false /\ is_tag_line l = false /\ l <> []
  | Empty => l = []
  end.
Proof.
  unfold classify. destruct (is_link l) eqn:L; [reflexivity|].
  destruct (is_tag_line l) eqn:T; [auto|].
  destruct l; simpl; [reflexivity|]. repeat split. discriminate.
Qed.

Lemma text_lines_nonempty content_lines :
  Forall (fun t => t <> []) (of_category Text content_lines).
Proof.
  apply Forall_forall. intros t H. unfold of_category in H.
  apply filter_In in H as [_ H].
  pose proof (classify_cases t) as C.
  destruct (classify t); try discriminate. tauto.
Qed.

Lemma separate_eq content_lines :
  separate content_lines =
  mkBody (flat_map parse_tags (of_category Tags content_lines))
         (join [nl] (of_category Text content_lines))
         (last (of_category Link content_lines) []).
Proof.
  unfold separate. rewrite separate_fold. simpl.
  rewrite (add_text_join _ (text_lines_nonempty content_lines)).
  reflexivity.
Qed.

Lemma firstn_length_take_while {A : Type} (p : A -> bool) l :
  firstn (length (take_while p l)) l = take_while p l.
Proof.
  induction l as [|x l IH]; simpl; [reflexivity|].
  destruct (p x); simpl; [rewrite IH|]; reflexivity.
Qed.

(** An event is built from the heading under the cursor, the date line
    [j] and the lines between the date line and the new cursor. *)
Lemma outer_iteration_event lines i i' e :
  outer_iteration lines i = Next i' (Some e) ->
  exists h dl j,
    nth_error lines i = Some h /\ nth_error lines j = Some dl /\
    i < j < i' /\
    let b := separate (map strip (firstn (i' - S j) (skipn (S j) lines))) in
    e = mkEvent (heading_text h) (start_date e) (end_date e)
          (strip (b_description b)) (b_link b) (b_tags b).
Proof.
  intros H.
  destruct (nth_error lines i) as [h|] eqn:Hh;
    [|unfold outer_iteration in H; rewrite Hh in H; discriminate].
  assert (Hi : i < length lines) by (apply nth_error_Some; congruence).
  destruct (skipn_cons_of i lines Hi) as (l & Hl & E).
  assert (l = h) by congruence. subst l.
  rewrite (outer_iteration_at _ _ _ _ E) in H.
  set (rest := skipn (S i) lines) in *.
  unfold iteration_at in H.
  destruct (is_heading h); [|discriminate].
  destruct (drop_while blank rest) as [|dl rest2] eqn:D; [discriminate|].
  destruct (parse_date dl) as [[sd ed]|e']; [|discriminate].
  injection H as <- <-.
  set (n := length (take_while blank rest)) in *.
  assert (Hj : skipn (S i + n) lines = dl :: rest2).
  { rewrite skipn_add. fold rest. unfold n.
    rewrite skipn_length_take_while. exact D. }
  apply skipn_cons_inv in Hj as (Hdl & Hrest2 & _).
  exists h, dl, (S i + n). split; [reflexivity|]. split; [exact Hdl|].
  split; [lia|].
  replace (S (i + n + 1 + length (take_while plain rest2)) - S (S i + n))
    with (length (take_while plain rest2)) by lia.
  rewrite Hrest2, firstn_length_take_while. reflexivity.
Qed.

Lemma nth_error_take_while {A : Type} (p : A -> bool) l : forall k x,
  k < length (take_while p l) -> nth_error l k = Some x -> p x = true.
Proof.
  induction l as [|a l IH]; intros k x; simpl; [lia|].
  destruct (p a) eqn:E; simpl; [|lia].
  destruct k as [|k]; simpl; [intros _ [= <-]; exact E|].
  intros H. apply IH. lia.
Qed.

(** The lines an event is made from, by their places in the document. *)
Lemma outer_iteration_block lines i i' e :
  outer_iteration lines i = Next i' (Some e) ->
  exists j h dl,
    event_block lines i j i' /\
    nth_error lines i = Some h /\ nth_error lines j = Some dl /\
    title e = heading_text h /\
    parse_date dl = Ok (start_date e, end_date e) /\
    let b := separate (body_lines lines j i') in
    description e = strip (b_description b) /\
    link e = b_link b /\ tags e = b_tags b.
Proof.
  intros H.
  destruct (nth_error lines i) as [h|] eqn:Hh;
    [|unfold outer_iteration in H; rewrite Hh in H; discriminate].
  assert (Hi : i < length lines) by (apply nth_error_Some; congruence).
  destruct (skipn_cons_of i lines Hi) as (l & Hl & E).
  assert (l = h) by congruence. subst l.
  rewrite (outer_iteration_at _ _ _ _ E) in H.
  set (rest := skipn (S i) lines) in *.
  unfold iteration_at in H.
  destruct (is_heading h) eqn:HH; [|discriminate].
  destruct (drop_while blank rest) as [|dl rest2] eqn:D; [discriminate|].
  destruct (parse_date dl) as [[sd ed]|e'] eqn:PD; [|discriminate].
  injection H as <- <-.
  set (n := length (take_while blank rest)) in *.
  set (m := length (take_while plain rest2)) in *.
  assert (Hj : skipn (S i + n) lines = dl :: rest2).
  { rewrite skipn_add. fold rest. unfold n.
    rewrite skipn_length_take_while. exact D. }
  pose proof (length_skipn_cons _ _ _ _ Hj) as Len.
  apply skipn_cons_inv in Hj as (Hdl & Hrest2 & Hlt).
  pose proof (length_take_while_le plain rest2) as Lm. fold m in Lm.
  exists (S i + n), h, dl. split; [|split; [reflexivity|split; [exact Hdl|]]].
  - unfold event_block.
    split; [lia|]. split; [lia|].
    split; [exists h; auto|].
    split.
    { intros k x Hk Hx.
      apply (nth_error_take_while blank rest (k - S i)); [fold n; lia|].
      unfold rest. rewrite nth_error_skipn.
      replace (S i + (k - S i)) with k by lia. exact Hx. }
    split; [exists dl; split; [exact Hdl|eapply drop_while_head, D]|].
    split.
    { intros k x Hk Hx.
      assert (P : plain x = true).
      { apply (nth_error_take_while plain rest2 (k - S (S i + n)));
          [fold m; lia|].
        rewrite <- Hrest2, nth_error_skipn.
        replace (S (S i + n) + (k - S (S i + n))) with k by lia. exact Hx. }
      unfold plain in P. apply negb_true_iff, P. }
    pose proof (skipn_length_take_while plain rest2) as Q. fold m in Q.
    destruct (drop_while plain rest2) as [|x tail] eqn:DP.
    + left. apply skipn_nil_length in Q. lia.
    + right. exists x.
      apply skipn_cons_inv in Q as (Hx & _ & _).
      rewrite <- Hrest2, nth_error_skipn in Hx.
      replace (S (S i + n) + m) with (S i + n + 1 + m) in Hx by lia.
      split; [exact Hx|].
      apply drop_while_head in DP. unfold plain in DP.
      apply negb_false_iff, DP.
  - unfold body_lines.
    match goal with
    | |- context [firstn ?k _] => replace k with m by lia
    end.
    rewrite Hrest2. unfold m. rewrite firstn_length_take_while.
    cbn [title start_date end_date description link tags]. auto.
Qed.

Lemma parse_loop_forall (Q : Event -> Prop) lines :
  (forall i i' e, outer_iteration lines i = Next i' (Some e) -> Q e) ->
  forall fuel i acc events,
    Forall Q acc ->
    parse_loop fuel lines i acc = Some (Ok events) -> Forall Q events.
Proof.
  intros HQ. induction fuel as [|fuel IH]; intros i acc events Ha; simpl;
    [discriminate|].
  destruct (i <? length lines); [|intros [= <-]; exact Ha].
  destruct (outer_iteration lines i) as [i' [e|]| |e] eqn:E.
  - apply IH. apply Forall_app. split; [exact Ha|].
    constructor; [eapply HQ, E|constructor].
  - apply IH, Ha.
  - intros [= <-]. exact Ha.
  - discriminate.
Qed.

End ExtractFacts.

(** C3.  For every document on which extraction completes without a
    date-parse failure, the number of events returned equals the number of
    heading lines that are followed, before the next heading line or the
    end of input, by a non-blank line that parses as a date; and the
    events come in the order of those headings: the title of each event is
    the text of the heading in the same position. *)
Theorem events_follow_dated_headings (lines : list str) (events : list Event) :
  parse_lines lines = Some (Ok events) ->
  length events = length (Spec.dated_headings lines) /\
  map title events = map Spec.heading_text (Spec.dated_headings lines).
Proof.
  unfold parse_lines. intros H.
  apply ExtractFacts.parse_loop_headings in H as (new & -> & H).
  simpl in *. split; [|exact H].
  rewrite <- (length_map title new), H, length_map. reflexivity.
Qed.

Lemma events_follow_dated_headings_witness :
  length [Examples.launch] = length (Spec.dated_headings Examples.dangling_lines) /\
  map title [Examples.launch] =
  map Spec.heading_text (Spec.dated_headings Examples.dangling_lines).
Proof.
  apply (events_follow_dated_headings Examples.dangling_lines [Examples.launch]).
  reflexivity.
Defined.

(** C10.  For every finite sequence of lines the extraction pass ends,
    within one iteration of the outer loop per line and one more; every
    iteration that lets the loop go on moves the cursor strictly forward
    and never past the end; the two inner loops never move it backward;
    and after an event the cursor stands on the heading line that ended
    the body (or at the end of input), so that line is examined again
    without the cursor moving backward. *)
Theorem extraction_terminates (lines : list str) :
  (exists r, parse_lines lines = Some r) /\
  (forall i i' event,
      i < length lines -> outer_iteration lines i = Next i' event ->
      i < i' <= length lines) /\
  (forall i, i <= length lines ->
      i <= skip_blank (skipn i lines) i <= length lines) /\
  (forall i acc, i <= length lines ->
      i <= snd (collect_body (skipn i lines) i acc) <= length lines) /\
  (forall i i' e,
      i < length lines -> outer_iteration lines i = Next i' (Some e) ->
      i' < length lines ->
      exists h, nth_error lines i' = Some h /\ is_heading h = true).
Proof.
  split; [apply ExtractFacts.parse_loop_total; lia|].
  split; [intros i i' event; apply ExtractFacts.outer_iteration_progress|].
  split; [|split].
  - intros i Hi. rewrite ExtractFacts.skip_blank_eq.
    pose proof (ExtractFacts.length_take_while_le Spec.blank (skipn i lines)).
    rewrite length_skipn in H. lia.
  - intros i acc Hi. rewrite ExtractFacts.collect_body_eq. simpl.
    pose proof (ExtractFacts.length_take_while_le Spec.plain (skipn i lines)).
    rewrite length_skipn in H. lia.
  - intros i i' e Hi E Hi'.
    pose proof (ExtractFacts.outer_iteration_progress lines i i' _ Hi E) as P.
    destruct (ExtractFacts.skipn_cons_of i lines Hi) as (l & _ & El).
    rewrite (ExtractFacts.outer_iteration_at _ _ _ _ El) in E.
    apply ExtractFacts.iteration_at_stops_at_heading in E.
    rewrite <- ExtractFacts.skipn_add in E.
    replace (S i + (i' - S i)) with i' in E by lia.
    destruct (ExtractFacts.skipn_cons_of i' lines Hi') as (h & Hh & Eh).
    rewrite Eh in E. eauto.
Qed.

Lemma extraction_terminates_witness :
  0 < 5 <= length Examples.dangling_lines /\
  exists h, nth_error Examples.dangling_lines 5 = Some h /\ is_heading h = true.
Proof.
  destruct (extraction_terminates Examples.dangling_lines) as (_ & P & _ & _ & Q).
  split.
  - apply (P 0 5 (Some Examples.launch)); [simpl; lia|reflexivity].
  - apply (Q 0 5 Examples.launch); [simpl; lia|reflexivity|simpl; lia].
Defined.

(** C6, as amended.  For every document whose final heading line is
    followed only by blank lines (or nothing) until the end of input:
    either the extraction loop arrives at that heading, and then it stops
    there, the pending heading is discarded, no event is produced for it,
    no error is raised and the events extracted so far are returned; or a
    date line before it fails to parse, where an earlier heading may take
    this very heading line for its date line, and the run raises that
    [ValueError]. *)
Theorem dangling_heading_dropped (lines : list str) (i : nat) (h : str) :
  nth_error lines i = Some h ->
  is_heading h = true ->
  Forall (fun l => Spec.blank l = true) (skipn (S i) lines) ->
  (forall events,
      Spec.arrives lines i events ->
      outer_iteration lines i = Break /\ parse_lines lines = Some (Ok events)) /\
  ((exists events,
       Spec.arrives lines i events /\ parse_lines lines = Some (Ok events)) \/
   (exists j events,
       j < i /\ Spec.arrives lines j events /\
       outer_iteration lines j = Raise ValueError /\
       parse_lines lines = Some (Err ValueError))).
Proof.
  intros Hn Hh B.
  assert (Hi : i < length lines) by (apply nth_error_Some; congruence).
  pose proof (ExtractFacts.dangling_is_break lines i h Hn Hh B) as E.
  assert (R : forall events, Spec.arrives lines i events ->
              parse_lines lines = Some (Ok events)).
  { intros events A.
    apply ExtractFacts.arrives_loop in A as (k & Hk & A).
    unfold parse_lines.
    replace (S (length lines)) with (k + S (length lines - k)) by lia.
    rewrite A. simpl.
    destruct (Nat.ltb_spec i (length lines)); [|lia].
    rewrite E. reflexivity. }
  split; [auto|].
  destruct (ExtractFacts.arrives_or_raises lines i h Hn Hh i 0 [])
    as [[events A]|(j & events & Hj & A & Ej)];
    [lia|lia|apply Spec.arrives_start| |].
  - left. eauto.
  - right. exists j, events. repeat split; auto.
    eapply ExtractFacts.raise_is_result; eauto. lia.
Qed.

Lemma dangling_heading_dropped_witness :
  outer_iteration Examples.dangling_lines 5 = Break /\
  parse_lines Examples.dangling_lines = Some (Ok ([] ++ [Examples.launch])).
Proof.
  apply (dangling_heading_dropped Examples.dangling_lines 5 (lit "## Later")).
  - reflexivity.
  - reflexivity.
  - repeat constructor.
  - apply (Spec.arrives_next Examples.dangling_lines 0 [] 5 (Some Examples.launch)).
    + apply Spec.arrives_start.
    + simpl. lia.
    + reflexivity.
Defined.

(** C6 as stated fails: the final heading of this document is followed by
    nothing, and the run raises, because the heading before it takes it
    for its date line. *)
Lemma dangling_heading_counterexample :
  nth_error Examples.stacked_lines 1 = Some (lit "# B") /\
  is_heading (lit "# B") = true /\
  skipn 2 Examples.stacked_lines = [] /\
  parse_lines Examples.stacked_lines = Some (Err ValueError).
Proof. repeat split; reflexivity. Qed.

(** C5.  For every sequence of trimmed body lines, each line falls in
    exactly one category by first match: a line that starts with http://
    or https:// is a link line, otherwise a tag line, otherwise a text
    line when it is not empty, otherwise an empty line.  The link is the
    last link line (none: the empty string), the tags are the tags of the
    tag lines in order, the description is the text lines joined by
    single newlines, and empty lines contribute nothing.  Every event of
    a document takes these from its own body lines, its description
    trimmed: the lines after its date line, which is the first line
    after its heading that is not blank, up to the next heading line or
    the end of input. *)
Theorem body_lines_by_category :
  (forall l,
      match Spec.classify l with
      | Spec.Link => is_link l = true
      | Spec.Tags => is_link l = false /\ is_tag_line l = true
      | Spec.Text => is_link l = false /\ is_tag_line l = false /\ l <> []
      | Spec.Empty => l = []
      end) /\
  (forall content_lines,
      b_link (separate content_lines) =
        last (Spec.of_category Spec.Link content_lines) [] /\
      b_tags (separate content_lines) =
        flat_map parse_tags (Spec.of_category Spec.Tags content_lines) /\
      b_description (separate content_lines) =
        PyStr.join [nl] (Spec.of_category Spec.Text content_lines)) /\
  (forall lines i i' e,
      outer_iteration lines i = Next i' (Some e) ->
      exists j, Spec.event_block lines i j i' /\ Spec.event_of lines i j i' e) /\
  (forall lines events,
      parse_lines lines = Some (Ok events) ->
      Forall (fun e => exists i j i',
        Spec.event_block lines i j i' /\ Spec.event_of lines i j i' e) events).
Proof.
  assert (P : forall lines i i' e,
      outer_iteration lines i = Next i' (Some e) ->
      exists j, Spec.event_block lines i j i' /\ Spec.event_of lines i j i' e).
  { intros lines i i' e H.
    apply ExtractFacts.outer_iteration_block in H
      as (j & h & dl & B & Hh & Hdl & Ti & Da & D & L & T).
    exists j. split; [exact B|]. unfold Spec.event_of.
    rewrite ExtractFacts.separate_eq in D, L, T.
    cbn [b_description b_link b_tags] in *.
    split; [exists h; auto|]. split; [exists dl; auto|]. auto. }
  split; [apply ExtractFacts.classify_cases|]. split; [|split; [exact P|]].
  - intros cl. rewrite ExtractFacts.separate_eq. auto.
  - intros lines events H. unfold parse_lines in H.
    eapply ExtractFacts.parse_loop_forall; [|constructor|exact H].
    intros i i' e E. apply P in E as (j & E). eauto.
Qed.

Lemma body_lines_by_category_witness :
  Forall (fun e => exists i j i',
    Spec.event_block Examples.launch_lines i j i' /\
    Spec.event_of Examples.launch_lines i j i' e) [Examples.launch].
Proof.
  destruct body_lines_by_category as (_ & _ & _ & P).
  apply (P Examples.launch_lines [Examples.launch]). reflexivity.
Defined.

(** ** Dates of the calendar *)

Module CalendarFacts.
Import PyStr Spec.
Local Open Scope Z_scope.

Lemma days_before_year_succ y :
  days_before_year (y + 1) =
  days_before_year y + 365 + (if is_leap y then 1 else 0).
Proof.
  unfold days_before_year, is_leap.
  replace (y + 1 - 1) with y by lia.
  destruct (y mod 4 =? 0) eqn:E4; destruct (y mod 100 =? 0) eqn:E100;
    destruct (y mod 400 =? 0) eqn:E400; simpl; b2p;
    Z.div_mod_to_equations; lia.
Qed.

Lemma fold_add_app l x :
  fold_right Z.add 0 (l ++ [x]) = fold_right Z.add 0 l + x.
Proof. induction l as [|a l IH]; simpl fold_right; [lia|]. simpl app. simpl fold_right. lia. Qed.

Lemma days_before_month_succ y m :
  1 <= m ->
  days_before_month y (m + 1) = days_before_month y m + days_in_month y m.
Proof.
  intros H. unfold days_before_month.
  replace (Z.to_nat (m + 1 - 1)) with (S (Z.to_nat (m - 1))) by lia.
  rewrite seq_S, !map_app. cbn [map]. rewrite fold_add_app.
  replace (Z.of_nat (1 + Z.to_nat (m - 1))) with m by lia.
  reflexivity.
Qed.

Lemma days_in_month_ge y m : 1 <= m <= 12 -> 28 <= days_in_month y m.
Proof.
  intros H.
  assert (C : m = 1 \/ m = 2 \/ m = 3 \/ m = 4 \/ m = 5 \/ m = 6 \/ m = 7 \/
              m = 8 \/ m = 9 \/ m = 10 \/ m = 11 \/ m = 12) by lia.
  unfold days_in_month.
  repeat (destruct C as [->|C]; [try lia; destruct (is_leap y); lia|]).
  subst m. lia.
Qed.

Lemma days_before_december y :
  days_before_month y 12 = 334 + (if is_leap y then 1 else 0).
Proof.
  unfold days_before_month. cbn [Z.to_nat Z.sub Z.add Z.opp Z.pos_sub].
  change (Z.to_nat (12 - 1)) with 11%nat.
  cbn [seq map Z.of_nat fold_right Pos.of_succ_nat Pos.succ].
  unfold days_in_month. destruct (is_leap y); reflexivity.
Qed.

(** One day later is the next ordinal, and again a date. *)
Lemma add_one_day_next d d' :
  valid_date d = true -> add_one_day d = Ok d' ->
  valid_date d' = true /\ toordinal d' = toordinal d + 1.
Proof.
  destruct d as [y m dd]. unfold valid_date, valid_ymd, add_one_day, toordinal.
  cbn [year month day]. intros V. b2p.
  destruct (dd <? days_in_month y m) eqn:E1.
  { intros [= <-]. cbn [year month day]. split; [|lia]. b2p. p2b; lia. }
  destruct (m <? 12) eqn:E2.
  { intros [= <-]. cbn [year month day]. b2p.
    pose proof (days_in_month_ge y (m + 1)).
    rewrite days_before_month_succ by lia. split; [p2b|]; lia. }
  destruct (y <? 9999) eqn:E3; [|discriminate].
  intros [= <-]. cbn [year month day]. b2p.
  assert (m = 12) by lia. subst m.
  rewrite days_before_year_succ, days_before_december.
  change (days_before_month (y + 1) 1) with 0.
  change (days_in_month y 12) with 31 in *.
  split; [p2b; try lia|lia].
  change (days_in_month (y + 1) 1) with 31. lia.
Qed.

(** Only the last day of the year 9999 has no next day. *)
Lemma add_one_day_defined d :
  valid_date d = true ->
  ((exists d', add_one_day d = Ok d') <-> d <> max_date).
Proof.
  destruct d as [y m dd]. unfold valid_date, valid_ymd, add_one_day, max_date.
  cbn [year month day]. intros V. b2p.
  destruct (dd <? days_in_month y m) eqn:E1.
  { split; [|eauto]. intros _ [= -> -> ->]. discriminate. }
  destruct (m <? 12) eqn:E2.
  { split; [|eauto]. intros _ [= -> -> ->]. discriminate. }
  destruct (y <? 9999) eqn:E3.
  { split; [|eauto]. intros _ [= -> -> ->]. discriminate. }
  b2p. assert (m = 12) by lia. subst m.
  change (days_in_month y 12) with 31 in *.
  split; [intros [d' D]; discriminate|].
  intros N. destruct N. f_equal; lia.
Qed.

(** *** Formatting *)

Lemma digit_char_code k : code (digit_char k) = (48 + Z.to_N k)%N.
Proof. reflexivity. Qed.

Lemma digit_char_digit k :
  0 <= k <= 9 ->
  ascii_digit (digit_char k) = true /\ digit_value (digit_char k) = k.
Proof.
  intros H.
  assert (A : ascii_digit (digit_char k) = true)
    by (unfold digit_char; char_arith).
  split; [exact A|]. rewrite (CharFacts.ascii_digit_value _ A).
  rewrite digit_char_code. lia.
Qed.

Lemma zpad2 n :
  0 <= n < 100 -> numeral 2 2 (zpad 2 n) = true /\ decimal (zpad 2 n) = n.
Proof.
  intros H. cbn [zpad app].
  assert (A : 0 <= n / 10 mod 10 <= 9) by (Z.div_mod_to_equations; lia).
  assert (B : 0 <= n mod 10 <= 9) by (Z.div_mod_to_equations; lia).
  destruct (digit_char_digit _ A) as [A1 A2].
  destruct (digit_char_digit _ B) as [B1 B2].
  unfold numeral, decimal. cbn [forallb length fold_left].
  rewrite A1, B1, A2, B2. split; [reflexivity|].
  Z.div_mod_to_equations; lia.
Qed.

Lemma zpad4 n :
  0 <= n < 10000 -> numeral 4 4 (zpad 4 n) = true /\ decimal (zpad 4 n) = n.
Proof.
  intros H. cbn [zpad app].
  assert (A : 0 <= n / 10 / 10 / 10 mod 10 <= 9) by (Z.div_mod_to_equations; lia).
  assert (B : 0 <= n / 10 / 10 mod 10 <= 9) by (Z.div_mod_to_equations; lia).
  assert (C : 0 <= n / 10 mod 10 <= 9) by (Z.div_mod_to_equations; lia).
  assert (D : 0 <= n mod 10 <= 9) by (Z.div_mod_to_equations; lia).
  destruct (digit_char_digit _ A) as [A1 A2].
  destruct (digit_char_digit _ B) as [B1 B2].
  destruct (digit_char_digit _ C) as [C1 C2].
  destruct (digit_char_digit _ D) as [D1 D2].
  unfold numeral, decimal. cbn [forallb length fold_left].
  rewrite A1, B1, C1, D1, A2, B2, C2, D2. split; [reflexivity|].
  Z.div_mod_to_equations; lia.
Qed.

(** A year of four digits is written as if padded. *)
Lemma strftime_Y_four y : 1000 <= y -> strftime_Y y = zpad 4 y.
Proof.
  intros H. unfold strftime_Y. cbn [zdec zpad].
  destruct (y <? 10) eqn:E1; [b2p; lia|].
  destruct (y / 10 <? 10) eqn:E2; [b2p; Z.div_mod_to_equations; lia|].
  destruct (y / 10 / 10 <? 10) eqn:E3; [b2p; Z.div_mod_to_equations; lia|].
  destruct (y / 10 / 10 / 10 <? 10) eqn:E4.
  - b2p. replace (y / 10 / 10 / 10 mod 10) with (y / 10 / 10 / 10)
      by (Z.div_mod_to_equations; lia).
    reflexivity.
  - reflexivity.
Qed.

(** The digits of a year: as many as it has, the first not a zero. *)
Lemma strftime_Y_text y :
  1 <= y < 10000 ->
  numeral 1 4 (strftime_Y y) = true /\
  hd_error (strftime_Y y) <> Some (ch "0") /\
  decimal (strftime_Y y) = y /\
  (length (strftime_Y y) = 4%nat <-> 1000 <= y).
Proof.
  intros H. unfold strftime_Y. cbn [zdec].
  assert (A : 0 <= y / 10 / 10 / 10 <= 9) by (Z.div_mod_to_equations; lia).
  assert (B : 0 <= y / 10 / 10 mod 10 <= 9) by (Z.div_mod_to_equations; lia).
  assert (C : 0 <= y / 10 mod 10 <= 9) by (Z.div_mod_to_equations; lia).
  assert (D : 0 <= y mod 10 <= 9) by (Z.div_mod_to_equations; lia).
  destruct (digit_char_digit _ B) as [B1 B2].
  destruct (digit_char_digit _ C) as [C1 C2].
  destruct (digit_char_digit _ D) as [D1 D2].
  assert (Z : forall k, 1 <= k <= 9 ->
                hd_error [digit_char k] <> Some (ch "0")).
  { intros k K. cbn [hd_error]. intros E.
    assert (E' : digit_char k = 48%N) by (change 48%N with (ch "0"); congruence).
    unfold digit_char in E'. lia. }
  destruct (y <? 10) eqn:E1.
  { b2p. destruct (digit_char_digit y) as [Y1 Y2]; [lia|].
    unfold numeral, decimal. cbn [forallb length fold_left app].
    rewrite Y1, Y2. repeat split; try reflexivity; try lia; try discriminate.
    apply Z. lia. }
  destruct (y / 10 <? 10) eqn:E2.
  { b2p. destruct (digit_char_digit (y / 10)) as [Y1 Y2];
      [Z.div_mod_to_equations; lia|].
    unfold numeral, decimal. cbn [forallb length fold_left app].
    rewrite Y1, D1, Y2, D2.
    repeat split; try reflexivity; try discriminate;
      try (Z.div_mod_to_equations; lia).
    apply (Z (y / 10)). Z.div_mod_to_equations; lia. }
  destruct (y / 10 / 10 <? 10) eqn:E3.
  { b2p. destruct (digit_char_digit (y / 10 / 10)) as [Y1 Y2];
      [Z.div_mod_to_equations; lia|].
    unfold numeral, decimal. cbn [forallb length fold_left app].
    rewrite Y1, C1, D1, Y2, C2, D2.
    repeat split; try reflexivity; try discriminate;
      try (Z.div_mod_to_equations; lia).
    apply (Z (y / 10 / 10)). Z.div_mod_to_equations; lia. }
  assert (E4 : (y / 10 / 10 / 10 <? 10) = true)
    by (p2b; Z.div_mod_to_equations; lia).
  rewrite E4. b2p.
  destruct (digit_char_digit (y / 10 / 10 / 10)) as [Y1 Y2]; [lia|].
  unfold numeral, decimal. cbn [forallb length fold_left app].
  rewrite Y1, B1, C1, D1, Y2, B2, C2, D2.
  repeat split; try reflexivity; try discriminate;
    try (Z.div_mod_to_equations; lia).
  apply (Z (y / 10 / 10 / 10)). Z.div_mod_to_equations; lia.
Qed.

(** [strftime_Ymd] writes the year unpadded, then month and day. *)
Lemma strftime_Ymd_unpadded d :
  valid_date d = true -> ymd_text_unpadded (strftime_Ymd d) d.
Proof.
  intros V. apply DateFacts.valid_ymd_bounds in V as (Y & M & D).
  destruct (strftime_Y_text (year d)) as (Y1 & Y0 & Y2 & _); [lia|].
  destruct (zpad2 (month d)) as [M1 M2]; [lia|].
  destruct (zpad2 (day d)) as [D1 D2]; [lia|].
  exists (strftime_Y (year d)), (zpad 2 (month d)), (zpad 2 (day d)).
  unfold strftime_Ymd. auto 10.
Qed.




End CalendarFacts.

(** ** Escaping *)

Module EscapeFacts.
Import PyStr Spec.

Lemma replace_app old new a b :
  replace old new (a ++ b) = replace old new a ++ replace old new b.
Proof. apply flat_map_app. Qed.

Lemma escape_ical_text_app a b :
  escape_ical_text (a ++ b) = escape_ical_text a ++ escape_ical_text b.
Proof. unfold escape_ical_text. rewrite !replace_app. reflexivity. Qed.

Lemma escape_ical_text_char c : escape_ical_text [c] = ical_escape_char c.
Proof.
  unfold escape_ical_text, ical_escape_char, replace. cbn [flat_map app].
  destruct (CharEq.eqb_spec c "\") as [->|N1]; [reflexivity|].
  destruct (CharEq.eqb_spec c ",") as [->|N2]; [reflexivity|].
  destruct (CharEq.eqb_spec c ";") as [->|N3]; [reflexivity|].
  cbn [flat_map app]. rewrite (proj2 (CharEq.eqb_neq c ",") N2).
  cbn [flat_map app]. rewrite (proj2 (CharEq.eqb_neq c ";") N3).
  cbn [flat_map app]. destruct (Char.eqb c nl); reflexivity.
Qed.

Lemma escape_ical_text_chars text :
  escape_ical_text text = flat_map ical_escape_char text.
Proof.
  induction text as [|c text IH]; [reflexivity|].
  change (c :: text) with ([c] ++ text).
  rewrite escape_ical_text_app, escape_ical_text_char, IH. reflexivity.
Qed.

Lemma replace_id old new s :
  Forall (fun c => Char.eqb c old = false) s -> replace old new s = s.
Proof.
  unfold replace. induction 1 as [|c s Hc _ IH]; simpl; [reflexivity|].
  rewrite Hc, IH. reflexivity.
Qed.

Lemma tag_char_not_special c : tag_char c = true -> special c = false.
Proof.
  intros H. pose proof (CharFacts.tag_char_ascii c H) as L.
  pose proof (CharFacts.ascii_forall
                (fun x => implb (tag_char x) (negb (special x)))
                eq_refl c L) as A.
  cbv beta in A. rewrite H in A. apply negb_true_iff, A.
Qed.

Lemma not_special c x :
  special c = false ->
  In x [ch "&"; ch "<"; ch ">"; ch "034"; ch "'"; ch ","; ch ";"; ch "\"; nl] ->
  Char.eqb c x = false.
Proof.
  unfold special. intros H Hx. apply orb_false_iff in H as [H _].
  destruct (Char.eqb c x) eqn:E; [|reflexivity].
  rewrite <- H. symmetry. apply existsb_exists. eauto.
Qed.

Lemma tag_chars_differ t x :
  forallb tag_char t = true ->
  In x [ch "&"; ch "<"; ch ">"; ch "034"; ch "'"; ch ","; ch ";"; ch "\"; nl] ->
  Forall (fun c => Char.eqb c x = false) t.
Proof.
  intros H Hx. apply Forall_forall. intros c Hc.
  rewrite forallb_forall in H.
  apply not_special; [apply tag_char_not_special, H, Hc|exact Hx].
Qed.

Lemma tag_escape_html t : forallb tag_char t = true -> escape_html t = t.
Proof.
  intros H. unfold escape_html.
  rewrite (replace_id "&" _ t) by (apply tag_chars_differ; [exact H|simpl; auto 12]).
  rewrite (replace_id "<" _ t) by (apply tag_chars_differ; [exact H|simpl; auto 12]).
  rewrite (replace_id ">" _ t) by (apply tag_chars_differ; [exact H|simpl; auto 12]).
  rewrite (replace_id "034" _ t) by (apply tag_chars_differ; [exact H|simpl; auto 12]).
  apply replace_id, tag_chars_differ; [exact H|simpl; auto 12].
Qed.

Lemma tag_escape_ical t : forallb tag_char t = true -> escape_ical_text t = t.
Proof.
  intros H. unfold escape_ical_text.
  rewrite (replace_id "\" _ t) by (apply tag_chars_differ; [exact H|simpl; auto 12]).
  rewrite (replace_id "," _ t) by (apply tag_chars_differ; [exact H|simpl; auto 12]).
  rewrite (replace_id ";" _ t) by (apply tag_chars_differ; [exact H|simpl; auto 12]).
  apply replace_id, tag_chars_differ; [exact H|simpl; auto 12].
Qed.

Lemma tag_no_comma t : forallb tag_char t = true -> contains "," t = false.
Proof.
  intros H. unfold contains.
  destruct (existsb (Char.eqb ",") t) eqn:E; [|reflexivity].
  apply existsb_exists in E as (c & Hc & E).
  rewrite forallb_forall in H. apply H in Hc.
  apply CharEq.eqb_eq in E. subst c. discriminate.
Qed.

Lemma tag_no_space t : forallb tag_char t = true -> existsb isspace t = false.
Proof.
  intros H. destruct (existsb isspace t) eqn:E; [|reflexivity].
  apply existsb_exists in E as (c & Hc & E).
  rewrite forallb_forall in H. apply H in Hc.
  apply tag_char_not_special in Hc. unfold special in Hc.
  apply orb_false_iff in Hc as [_ Hc]. congruence.
Qed.

Lemma split_app_sep c t rest :
  contains c t = false -> split c (t ++ c :: rest) = t :: split c rest.
Proof.
  unfold contains. induction t as [|a t IH]; simpl.
  - rewrite CharEq.eqb_refl. reflexivity.
  - intros H. apply orb_false_iff in H as [Ha Ht].
    rewrite CharEq.eqb_sym, Ha, (IH Ht). reflexivity.
Qed.

Lemma split_none c t : contains c t = false -> split c t = [t].
Proof.
  unfold contains. induction t as [|a t IH]; simpl; [reflexivity|].
  intros H. apply orb_false_iff in H as [Ha Ht].
  rewrite CharEq.eqb_sym, Ha, (IH Ht). reflexivity.
Qed.

(** Joined by commas, texts without a comma split back into themselves. *)
Lemma split_join c ts :
  ts <> [] ->
  Forall (fun t => contains c t = false) ts ->
  split c (join [c] ts) = ts.
Proof.
  intros Hne H. induction H as [|t ts Ht Hts IH]; [congruence|].
  destruct ts as [|u ts].
  - simpl. apply split_none, Ht.
  - change (join [c] (t :: u :: ts)) with (t ++ c :: join [c] (u :: ts)).
    rewrite (split_app_sep c t _ Ht), IH; [reflexivity|discriminate].
Qed.

End EscapeFacts.

(** ** The stable sort *)

Module SortFacts.
Import Spec.

Lemma date_leb_iff a b :
  date_leb a b = true <->
  (year a < year b \/
   (year a = year b /\
    (month a < month b \/ (month a = month b /\ day a <= day b))))%Z.
Proof.
  unfold date_leb.
  destruct (Z.ltb_spec (year a) (year b)), (Z.eqb_spec (year a) (year b)),
    (Z.ltb_spec (month a) (month b)), (Z.eqb_spec (month a) (month b)),
    (Z.leb_spec (day a) (day b)); simpl; split; intros G;
    try reflexivity; try discriminate; lia.
Qed.

Lemma date_leb_total a b : date_leb a b = false -> date_leb b a = true.
Proof.
  intros H. apply date_leb_iff.
  destruct (date_leb a b) eqn:E; [discriminate|].
  assert (N : ~ (date_leb a b = true)) by congruence.
  rewrite date_leb_iff in N. lia.
Qed.

Lemma date_leb_trans a b c :
  date_leb a b = true -> date_leb b c = true -> date_leb a c = true.
Proof. rewrite !date_leb_iff. lia. Qed.

Lemma date_eqb_iff a b :
  date_eqb a b = true <->
  (year a = year b /\ month a = month b /\ day a = day b)%Z.
Proof.
  unfold date_eqb. rewrite !andb_true_iff, !Z.eqb_eq. tauto.
Qed.

Lemma insert_event_perm e l : Permutation (insert_event e l) (e :: l).
Proof.
  induction l as [|x l IH]; simpl; [reflexivity|].
  destruct (date_leb (start_date e) (start_date x)); [reflexivity|].
  rewrite IH. apply perm_swap.
Qed.

Lemma sorted_events_perm l : Permutation (sorted_events l) l.
Proof.
  induction l as [|e l IH]; simpl; [reflexivity|].
  rewrite insert_event_perm, IH. reflexivity.
Qed.

Lemma insert_event_sorted e l :
  StronglySorted by_start l -> StronglySorted by_start (insert_event e l).
Proof.
  induction 1 as [|x l Hl IH Hx]; simpl; [repeat constructor|].
  destruct (date_leb (start_date e) (start_date x)) eqn:E.
  - constructor; [constructor; assumption|].
    constructor; [exact E|].
    eapply Forall_impl; [|exact Hx].
    intros y Hy. eapply date_leb_trans; eassumption.
  - constructor; [exact IH|].
    eapply Permutation_Forall; [symmetry; apply insert_event_perm|].
    constructor; [apply date_leb_total, E|exact Hx].
Qed.

Lemma sorted_events_sorted l : StronglySorted by_start (sorted_events l).
Proof.
  induction l as [|e l IH]; simpl; [constructor|].
  apply insert_event_sorted, IH.
Qed.

(** Inserting an event leaves the events of each start date in order. *)
Lemma insert_event_stable d e l :
  filter (starts_on d) (insert_event e l) = filter (starts_on d) (e :: l).
Proof.
  induction l as [|x l IH]; [reflexivity|].
  cbn [insert_event].
  destruct (date_leb (start_date e) (start_date x)) eqn:E; [reflexivity|].
  cbn [filter] in *. rewrite IH.
  destruct (starts_on d e) eqn:De; destruct (starts_on d x) eqn:Dx;
    try reflexivity.
  exfalso. unfold starts_on in De, Dx.
  apply date_eqb_iff in De, Dx.
  assert (N : ~ (date_leb (start_date e) (start_date x) = true)) by congruence.
  rewrite date_leb_iff in N. lia.
Qed.

Lemma sorted_events_stable d l :
  filter (starts_on d) (sorted_events l) = filter (starts_on d) l.
Proof.
  induction l as [|e l IH]; [reflexivity|].
  cbn [sorted_events fold_right]. fold (sorted_events l).
  rewrite insert_event_stable. cbn [filter]. rewrite IH. reflexivity.
Qed.

Lemma vevents_blocks events clock : forall k out,
  vevents events clock k = Ok out ->
  exists blocks, Forall2 block_of events blocks /\ out = concat blocks.
Proof.
  induction events as [|e events IH]; intros k out; simpl.
  - intros [= <-]. exists []. split; [constructor|reflexivity].
  - destruct (vevent e (clock k)) as [b|x] eqn:B; [|discriminate]. simpl.
    destruct (vevents events clock (S k)) as [bs|x] eqn:V; [|discriminate].
    simpl. intros [= <-]. apply IH in V as (blocks & F & ->).
    exists (b :: blocks). split; [|reflexivity].
    constructor; [exists (clock k); exact B|exact F].
Qed.

End SortFacts.

(** ** The calendar renderer *)

Module IcalFacts.
Import PyStr Spec.

(** The lines of a VEVENT, given the day after the last day. *)
Lemma vevent_shape e now :
  exists uid,
    vevent e now =
    (next <- add_one_day (last_day e) ;;
     Ok (lit "BEGIN:VEVENT" :: uid ::
         (lit "DTSTART;VALUE=DATE:" ++ strftime_Ymd (start_date e)) ::
         (lit "DTEND;VALUE=DATE:" ++ strftime_Ymd next) ::
         (lit "SUMMARY:" ++ escape_ical_text (title e)) ::
         when (match tags e with [] => false | _ => true end)
           [lit "CATEGORIES:" ++
            join (lit ",") (map escape_ical_text (tags e))] ++
         when (match when (truthy (description e)) [description e] ++
                      when (truthy (link e)) [lit "Link: " ++ link e]
               with [] => false | _ => true end)
           [lit "DESCRIPTION:" ++
            escape_ical_text
              (join (lit "\n")
                 (when (truthy (description e)) [description e] ++
                  when (truthy (link e)) [lit "Link: " ++ link e]))] ++
         when (truthy (link e)) [lit "URL:" ++ link e] ++
         [lit "DTSTAMP:" ++ now; lit "END:VEVENT"])).
Proof.
  eexists. unfold vevent, last_day.
  destruct (end_date e) as [d|];
    (destruct (add_one_day _) as [next|x]; [|reflexivity]);
    unfold bind; cbn [app]; reflexivity.
Qed.

Lemma tags_of_event lines i i' e :
  outer_iteration lines i = Next i' (Some e) -> Forall tag_ok (tags e).
Proof.
  intros H.
  apply ExtractFacts.outer_iteration_event in H
    as (h & dl & j & _ & _ & _ & H).
  cbv zeta in H. rewrite ExtractFacts.separate_eq in H.
  rewrite H. cbn [tags b_tags].
  apply Forall_forall. intros t Ht.
  apply in_flat_map in Ht as (l & _ & Ht).
  pose proof (ExtractFacts.parse_tags_ok l) as P.
  rewrite Forall_forall in P. auto.
Qed.

End IcalFacts.




(** C7.  The escaping of the calendar format is the four replacements in
    this order: backslash to two backslashes, comma to backslash comma,
    semicolon to backslash semicolon, newline to backslash n.  So every
    character of the text is escaped once, and the backslashes the later
    steps write are not escaped again.  SUMMARY, CATEGORIES and
    DESCRIPTION are written with it, and an event titled [A, B; C] has
    the SUMMARY line [SUMMARY:A\, B\; C]. *)
Theorem escape_ical_text_replacements :
  (forall text,
      escape_ical_text text =
      PyStr.replace nl (lit "\n")
        (PyStr.replace ";" (lit "\;")
           (PyStr.replace "," (lit "\,")
              (PyStr.replace "\" (lit "\\") text)))) /\
  (forall text, escape_ical_text text = flat_map Spec.ical_escape_char text) /\
  (forall e now block,
      vevent e now = Ok block ->
      In (lit "SUMMARY:" ++ flat_map Spec.ical_escape_char (title e)) block /\
      (tags e <> [] ->
       In (lit "CATEGORIES:" ++
           PyStr.join (lit ",")
             (map (flat_map Spec.ical_escape_char) (tags e))) block) /\
      (forall parts,
          parts = when (PyStr.truthy (description e)) [description e] ++
                  when (PyStr.truthy (link e)) [lit "Link: " ++ link e] ->
          parts <> [] ->
          In (lit "DESCRIPTION:" ++
              flat_map Spec.ical_escape_char (PyStr.join (lit "\n") parts))
             block)) /\
  (forall e now block,
      title e = lit "A, B; C" -> vevent e now = Ok block ->
      In (lit "SUMMARY:A\, B\; C") block).
Proof.
  split; [reflexivity|].
  split; [apply EscapeFacts.escape_ical_text_chars|].
  assert (S : forall e now block, vevent e now = Ok block ->
              In (lit "SUMMARY:" ++ escape_ical_text (title e)) block).
  { intros e now block H.
    destruct (IcalFacts.vevent_shape e now) as [uid E]. rewrite E in H.
    destruct (add_one_day (Spec.last_day e)); [|discriminate].
    injection H as <-. do 4 right. left. reflexivity. }
  split.
  - intros e now block H. split; [|split].
    + rewrite <- EscapeFacts.escape_ical_text_chars. eapply S, H.
    + intros Ht.
      replace (map (flat_map Spec.ical_escape_char) (tags e))
        with (map escape_ical_text (tags e))
        by (apply map_ext; intros t; apply EscapeFacts.escape_ical_text_chars).
      destruct (IcalFacts.vevent_shape e now) as [uid E]. rewrite E in H.
      destruct (add_one_day (Spec.last_day e)); [|discriminate].
      injection H as <-. do 5 right. apply in_or_app. left.
      destruct (tags e) as [|t ts]; [congruence|].
      left. reflexivity.
    + intros parts -> Hp.
      destruct (IcalFacts.vevent_shape e now) as [uid E]. rewrite E in H.
      destruct (add_one_day (Spec.last_day e)); [|discriminate].
      injection H as <-. do 5 right.
      apply in_or_app. right. apply in_or_app. left.
      rewrite <- EscapeFacts.escape_ical_text_chars.
      destruct (when _ _ ++ when _ _); [congruence|]. left. reflexivity.
  - intros e now block T H. apply S in H. rewrite T in H. exact H.
Qed.

Lemma escape_ical_text_replacements_witness :
  match vevent Examples.conference (lit "20240101T000000Z") with
  | Ok block => In (lit "SUMMARY:A\, B\; C") block
  | Err _ => False
  end.
Proof.
  destruct escape_ical_text_replacements as (_ & _ & _ & P).
  destruct (vevent Examples.conference (lit "20240101T000000Z"))
    as [block|x] eqn:E.
  - apply (P Examples.conference (lit "20240101T000000Z") block);
      [reflexivity|exact E].
  - vm_compute in E. discriminate E.
Defined.

(** C8.  For every sequence of events, both renderers go through the
    events sorted by start date: the sorted sequence is a rearrangement
    of the extracted one, ascending by start date, and stable, the events
    of any one start date keeping the order they were extracted in.  The
    calendar file holds one VEVENT block per event in that order and the
    HTML events section one card per event in that order. *)
Theorem renderers_sort_stably (events : list Event) :
  Permutation (sorted_events events) events /\
  StronglySorted Spec.by_start (sorted_events events) /\
  (forall d,
      filter (Spec.starts_on d) (sorted_events events) =
      filter (Spec.starts_on d) events) /\
  (forall clock out,
      generate_ical events clock = Ok out ->
      exists blocks,
        Forall2 Spec.block_of (sorted_events events) blocks /\
        out = PyStr.join [nl]
                (ical_header ++ concat blocks ++ [lit "END:VCALENDAR"])) /\
  (forall icon_calendar icon_link,
      events_section icon_calendar icon_link events =
      PyStr.join [nl]
        (map (event_html icon_calendar icon_link) (sorted_events events))).
Proof.
  split; [apply SortFacts.sorted_events_perm|].
  split; [apply SortFacts.sorted_events_sorted|].
  split; [intros d; apply SortFacts.sorted_events_stable|].
  split; [|reflexivity].
  intros clock out. unfold generate_ical.
  destruct (vevents (sorted_events events) clock 0) as [bs|x] eqn:V;
    [|discriminate].
  simpl. intros [= <-].
  apply SortFacts.vevents_blocks in V as (blocks & F & ->). eauto.
Qed.

Lemma renderers_sort_stably_witness :
  match generate_ical [Examples.conference; Examples.launch; Examples.party]
          (fun _ => lit "20240101T000000Z") with
  | Ok out =>
      exists blocks,
        Forall2 Spec.block_of
          (sorted_events [Examples.conference; Examples.launch; Examples.party])
          blocks /\
        out = PyStr.join [nl]
                (ical_header ++ concat blocks ++ [lit "END:VCALENDAR"])
  | Err _ => False
  end.
Proof.
  destruct (renderers_sort_stably
              [Examples.conference; Examples.launch; Examples.party])
    as (_ & _ & _ & P & _).
  specialize (P (fun _ => lit "20240101T000000Z")).
  destruct (generate_ical _ _) as [out|x] eqn:E.
  - apply P. reflexivity.
  - vm_compute in E. discriminate E.
Defined.

(** C9.  For every event the extraction pass produces, every tag is a
    non-empty text of ASCII letters, digits, hyphens and underscores
    only: it holds no comma and no blank, and neither HTML escaping nor
    calendar escaping changes it.  So a non-empty tag list joined by
    commas splits back at the commas into the same tags. *)
Theorem tags_are_plain_tokens (lines : list str) (events : list Event) :
  parse_lines lines = Some (Ok events) ->
  Forall (fun e =>
    Forall (fun t =>
      Spec.well_formed_tag t /\
      PyStr.contains "," t = false /\
      existsb PyStr.isspace t = false /\
      escape_html t = t /\
      escape_ical_text t = t) (tags e) /\
    (tags e <> [] ->
     PyStr.split "," (PyStr.join (lit ",") (tags e)) = tags e)) events.
Proof.
  unfold parse_lines. intros H.
  assert (T : Forall (fun e => Forall Spec.tag_ok (tags e)) events).
  { eapply ExtractFacts.parse_loop_forall; [|constructor|exact H].
    intros i i' e. apply IcalFacts.tags_of_event. }
  eapply Forall_impl; [|exact T]. clear. intros e T. split.
  - eapply Forall_impl; [|exact T]. intros t Ht.
    pose proof (ExtractFacts.tag_ok_well_formed t Ht) as W.
    destruct Ht as [_ Ht].
    split; [exact W|].
    split; [apply EscapeFacts.tag_no_comma, Ht|].
    split; [apply EscapeFacts.tag_no_space, Ht|].
    split; [apply EscapeFacts.tag_escape_html, Ht|].
    apply EscapeFacts.tag_escape_ical, Ht.
  - intros Hne. apply (EscapeFacts.split_join "," (tags e) Hne).
    eapply Forall_impl; [|exact T].
    intros t [_ Ht]. apply EscapeFacts.tag_no_comma, Ht.
Qed.

Lemma tags_are_plain_tokens_witness :
  Forall (fun e =>
    Forall (fun t =>
      Spec.well_formed_tag t /\
      PyStr.contains "," t = false /\
      existsb PyStr.isspace t = false /\
      escape_html t = t /\
      escape_ical_text t = t) (tags e) /\
    (tags e <> [] ->
     PyStr.split "," (PyStr.join (lit ",") (tags e)) = tags e))
    [Examples.launch].
Proof.
  apply (tags_are_plain_tokens Examples.dangling_lines [Examples.launch]).
  reflexivity.
Defined.

(** ** The scenarios of the specification, run on the model *)

Example scenario_a :
  parse_lines Examples.launch_lines = Some (Ok [Examples.launch]).
Proof. reflexivity. Qed.

Example scenario_b :
  parse_date (lit "01.03.2024 - 03.03.2024") =
    Ok (mkdate 2024 3 1, Some (mkdate 2024 3 3)) /\
  (b <- vevent Examples.conference (lit "20240101T000000Z") ;;
   Ok (nth_error b 3)) = Ok (Some (lit "DTEND;VALUE=DATE:20240304")).
Proof. split; reflexivity. Qed.

(** Digits of another script: fullwidth digits are read in the year and
    in the second place of the day, not in the first place of the day. *)
Example fullwidth_digits :
  parse_date (lit "01.03." ++ [65298; 65296; 65298; 65300]%N) =
    Ok (mkdate 2024 3 1, None) /\
  parse_date (lit "1" ++ [65298%N] ++ lit ".03.2024") =
    Ok (mkdate 2024 3 12, None) /\
  parse_date ([65296; 65297]%N ++ lit ".03.2024") = Err ValueError /\
  parse_date (lit "01.03." ++ [65298; 65296; 65298; 65300]%N ++ lit " - 02.03.2024") =
    Ok (mkdate 2024 3 1, Some (mkdate 2024 3 2)).
Proof. repeat split; reflexivity. Qed.

(** A year before 1000 is read with its leading zeros and written
    without them. *)
Example short_year :
  parse_date (lit "01.01.0999") = Ok (mkdate 999 1 1, None) /\
  strftime_Ymd (mkdate 999 1 1) = lit "9990101" /\
  strftime_dmY (mkdate 999 1 1) = lit "01.01.999" /\
  parse_date (lit "01.01.999") = Err ValueError.
Proof. repeat split; reflexivity. Qed.

Example scenario_c : parse_lines [lit "# Title"] = Some (Ok []).
Proof. reflexivity. Qed.

Example scenario_e :
  sorted_events [Examples.conference; Examples.launch; Examples.party] =
  [Examples.conference; Examples.launch; Examples.party] /\
  sorted_events [Examples.party; Examples.launch] =
  [Examples.party; Examples.launch].
Proof. split; reflexivity. Qed.

(** * Further properties of the program *)

(** ** Trimming *)

Module TrimFacts.
Import PyStr Vocab.

Lemma lstrip_by_blanks p w s :
  forallb p w = true -> lstrip_by p (w ++ s) = lstrip_by p s.
Proof.
  induction w as [|c w IH]; simpl; [reflexivity|].
  intros H. apply andb_true_iff in H as [Hc Hw]. rewrite Hc. auto.
Qed.

Lemma rstrip_by_blanks p s w :
  forallb p w = true -> rstrip_by p (s ++ w) = rstrip_by p s.
Proof.
  intros H. induction s as [|c s IH]; simpl.
  - apply PyStrFacts.rstrip_by_all, H.
  - rewrite IH. reflexivity.
Qed.

Lemma lstrip_by_app p s w :
  lstrip_by p s <> [] -> lstrip_by p (s ++ w) = lstrip_by p s ++ w.
Proof.
  induction s as [|c s IH]; simpl; [congruence|].
  destruct (p c); [exact IH|reflexivity].
Qed.

(** Blanks around a text do not change what is left once trimmed. *)
Lemma strip_pad w1 s w2 :
  blanks w1 = true -> blanks w2 = true -> strip (w1 ++ s ++ w2) = strip s.
Proof.
  unfold blanks, strip. intros H1 H2.
  rewrite (lstrip_by_blanks _ _ _ H1).
  destruct (lstrip_by isspace s) as [|c t] eqn:E.
  - apply PyStrFacts.lstrip_by_nil in E.
    rewrite PyStrFacts.lstrip_by_all; [reflexivity|].
    rewrite forallb_app, E, H2. reflexivity.
  - rewrite lstrip_by_app, E by congruence.
    apply rstrip_by_blanks, H2.
Qed.

Lemma rstrip_by_last p s c :
  p c = false -> rstrip_by p (s ++ [c]) = s ++ [c].
Proof.
  intros H. induction s as [|a s IH]; simpl; [rewrite H; reflexivity|].
  rewrite IH. destruct s; reflexivity.
Qed.

(** A text between two characters that are not blanks is trimmed. *)
Lemma strip_ends a m z :
  isspace a = false -> isspace z = false ->
  strip (a :: m ++ [z]) = a :: m ++ [z].
Proof.
  intros Ha Hz. unfold strip.
  rewrite (PyStrFacts.lstrip_by_fix _ _ _ Ha).
  apply (rstrip_by_last isspace (a :: m) z Hz).
Qed.

(** Between two texts without blanks, nothing is trimmed away. *)
Lemma strip_between A mid B :
  A <> [] -> B <> [] ->
  forallb (fun c => negb (isspace c)) A = true ->
  forallb (fun c => negb (isspace c)) B = true ->
  strip (A ++ mid ++ B) = A ++ mid ++ B.
Proof.
  intros HA HB PA PB.
  destruct A as [|a A]; [congruence|].
  destruct (exists_last HB) as (B' & z & ->).
  simpl in PA. apply andb_true_iff in PA as [Pa _].
  rewrite forallb_app in PB. apply andb_true_iff in PB as [_ Pz].
  simpl in Pz. rewrite andb_true_r in Pz.
  apply negb_true_iff in Pa, Pz.
  replace ((a :: A) ++ mid ++ B' ++ [z]) with (a :: (A ++ mid ++ B') ++ [z])
    by (simpl; rewrite <- !app_assoc; reflexivity).
  apply strip_ends; assumption.
Qed.

Lemma strip_trimmed s : trimmed (strip s).
Proof. apply PyStrFacts.strip_idem. Qed.

Lemma trimmed_last s c :
  trimmed (s ++ [c]) -> isspace c = false.
Proof.
  unfold trimmed, strip. intros H.
  destruct (isspace c) eqn:E; [|reflexivity]. exfalso.
  assert (R : rstrip_by isspace (lstrip_by isspace (s ++ [c])) =
              rstrip_by isspace (rstrip_by isspace (lstrip_by isspace (s ++ [c]))))
    by (rewrite PyStrFacts.rstrip_by_idem; reflexivity).
  rewrite H in R at 2.
  rewrite (rstrip_by_blanks isspace s [c]) in R by (simpl; rewrite E; reflexivity).
  rewrite H in R.
  assert (L : length (rstrip_by isspace s) <= length s).
  { clear. induction s as [|a s IH]; simpl; [lia|].
    destruct (rstrip_by isspace s); [destruct (isspace a)|]; simpl in *; lia. }
  rewrite <- R, length_app in L. simpl in L. lia.
Qed.

End TrimFacts.

(** ** More on the date resolver *)

Module DateMore.
Import PyStr Spec Vocab.
Local Open Scope Z_scope.

Lemma strptime_valid s d : strptime s = Ok d -> valid_date d = true.
Proof.
  unfold strptime.
  destruct (match_dmY s) as [|[[[dg mg] yg] [|c rest]] l]; try discriminate.
  destruct (py_int yg), (py_int mg), (py_int dg); try discriminate.
  destruct (valid_ymd _ _ _) eqn:V; [|discriminate].
  intros [= <-]. exact V.
Qed.

Lemma parse_date_valid line a b :
  parse_date line = Ok (a, b) ->
  valid_date a = true /\
  match b with
  | Some b' => valid_date b' = true /\ contains "-" (strip line) = true
  | None => contains "-" (strip line) = false
  end.
Proof.
  unfold parse_date.
  destruct (contains "-" (strip line)) eqn:C.
  - destruct (DateFacts.split_parts _ _ C) as [-> ->].
    destruct (strptime (strip (before "-" (strip line))))
      as [x|x] eqn:Ea; cbn [bind]; [|discriminate].
    destruct (strptime (strip (before "-" (after "-" (strip line)))))
      as [y|y] eqn:Eb; cbn [bind]; [|discriminate].
    intros [= <- <-]. apply strptime_valid in Ea, Eb. auto.
  - destruct (strptime (strip line)) as [x|x] eqn:Ea; cbn [bind];
      [|discriminate].
    intros [= <- <-]. apply strptime_valid in Ea. auto.
Qed.

Lemma numeral_weaken lo hi lo' hi' s :
  numeral lo hi s = true -> (lo' <= lo)%nat -> (hi <= hi')%nat ->
  numeral lo' hi' s = true.
Proof. unfold numeral. intros H H1 H2. b2p. p2b; try assumption; lia. Qed.

Lemma numeral_chars lo hi s c :
  numeral lo hi s = true -> In c s -> ascii_digit c = true.
Proof.
  unfold numeral. intros H Hc. b2p. rewrite forallb_forall in H. auto.
Qed.

(** A date text holds decimal digits and dots only. *)
Lemma date_text_chars s d c :
  date_text s d -> In c s -> isdecimal c = true \/ c = ch ".".
Proof.
  intros (ds & ms & ys & -> & Nd & Nm & Ny & _) H.
  apply DateFacts.day_numeral_decimal in Nd as [_ Nd].
  apply DateFacts.numeral_decimal in Nm.
  unfold year_numeral in Ny. apply andb_true_iff in Ny as [Ny _].
  rewrite forallb_forall in Nd, Nm, Ny.
  change (lit ".") with [ch "."] in H. cbn [app] in H.
  apply in_app_or in H as [H|H]; [left; auto|].
  apply in_inv in H as [<-|H]; [auto|].
  apply in_app_or in H as [H|H]; [left; auto|].
  apply in_inv in H as [<-|H]; [auto|].
  left; auto.
Qed.

Lemma date_text_plain s d :
  date_text s d ->
  forallb (fun c => negb (isspace c)) s = true /\ contains "-" s = false.
Proof.
  intros T. split.
  - apply forallb_forall. intros c Hc.
    destruct (date_text_chars _ _ _ T Hc) as [H| ->]; [|reflexivity].
    rewrite (CharFacts.digit_not_space c H). reflexivity.
  - unfold contains. destruct (existsb (Char.eqb "-") s) eqn:E; [|reflexivity].
    apply existsb_exists in E as (c & Hc & E). apply CharEq.eqb_eq in E. subst c.
    destruct (date_text_chars _ _ _ T Hc) as [H|H]; discriminate.
Qed.

(** What [strftime('%d.%m.%Y')] writes: ASCII digits and dots, the first
    character a digit. *)
Lemma strftime_dmY_chars d c :
  valid_date d = true -> In c (strftime_dmY d) ->
  ascii_digit c = true \/ c = ch ".".
Proof.
  intros V H. apply DateFacts.valid_ymd_bounds in V as (Y & M & D).
  destruct (CalendarFacts.strftime_Y_text (year d)) as (Y1 & _); [lia|].
  destruct (CalendarFacts.zpad2 (month d)) as [M1 _]; [lia|].
  destruct (CalendarFacts.zpad2 (day d)) as [D1 _]; [lia|].
  unfold strftime_dmY in H.
  change (lit ".") with [ch "."] in H.
  apply in_app_or in H as [H|H]; [left; exact (numeral_chars _ _ _ _ D1 H)|].
  apply in_inv in H as [<-|H]; [auto|].
  apply in_app_or in H as [H|H]; [left; exact (numeral_chars _ _ _ _ M1 H)|].
  apply in_inv in H as [<-|H]; [auto|].
  left; exact (numeral_chars _ _ _ _ Y1 H).
Qed.

Lemma strftime_dmY_plain d :
  valid_date d = true ->
  forallb (fun c => negb (isspace c)) (strftime_dmY d) = true /\
  contains "-" (strftime_dmY d) = false /\
  strftime_dmY d <> [].
Proof.
  intros V. split; [|split].
  - apply forallb_forall. intros c Hc.
    destruct (strftime_dmY_chars _ _ V Hc) as [H| ->]; [|reflexivity].
    rewrite (CharFacts.digit_not_space c (CharFacts.ascii_digit_isdecimal c H)).
    reflexivity.
  - unfold contains.
    destruct (existsb (Char.eqb "-") (strftime_dmY d)) eqn:E; [|reflexivity].
    apply existsb_exists in E as (c & Hc & E). apply CharEq.eqb_eq in E. subst c.
    destruct (strftime_dmY_chars _ _ V Hc) as [H|H]; discriminate.
  - unfold strftime_dmY. cbn [zpad app]. discriminate.
Qed.

(** From the year 1000 on that text reads as its date. *)
Lemma strftime_dmY_text d :
  valid_date d = true -> 1000 <= year d -> date_text (strftime_dmY d) d.
Proof.
  intros V K. pose proof V as B.
  apply DateFacts.valid_ymd_bounds in B as (Y & M & D).
  destruct (CalendarFacts.zpad4 (year d)) as [Y1 Y2]; [lia|].
  destruct (CalendarFacts.zpad2 (month d)) as [M1 M2]; [lia|].
  destruct (CalendarFacts.zpad2 (day d)) as [D1 D2]; [lia|].
  exists (zpad 2 (day d)), (zpad 2 (month d)), (zpad 4 (year d)).
  split; [unfold strftime_dmY; rewrite (CalendarFacts.strftime_Y_four _ K);
          reflexivity|].
  split; [unfold day_numeral; rewrite (numeral_weaken _ _ 1%nat 2%nat _ D1);
          [reflexivity|lia|lia]|].
  split; [apply (numeral_weaken _ _ _ _ _ M1); lia|].
  split; [unfold year_numeral; unfold numeral in Y1; b2p;
          rewrite (CharFacts.ascii_digits_decimal _ H); p2b; [reflexivity|lia]|].
  rewrite Y2, M2, D2. destruct d. auto.
Qed.

(** Before the year 1000 it does not: the year has fewer than four
    digits. *)
Lemma strftime_dmY_short d d' :
  valid_date d = true -> year d < 1000 -> ~ date_text (strftime_dmY d) d'.
Proof.
  intros V K (ds & ms & ys & E & Nd & Nm & Ny & _).
  apply DateFacts.valid_ymd_bounds in V as (Y & M & D).
  destruct (CalendarFacts.strftime_Y_text (year d)) as (_ & _ & _ & L); [lia|].
  destruct (CalendarFacts.zpad2 (month d)) as [M1 _]; [lia|].
  destruct (CalendarFacts.zpad2 (day d)) as [D1 _]; [lia|].
  apply DateFacts.day_numeral_decimal in Nd as [_ Nd].
  unfold strftime_dmY in E. change (lit ".") with [ch "."] in E.
  cbn [app] in E.
  apply DateFacts.cut_unique in E as [_ E];
    [|eapply DateFacts.numeral_no_dot, D1|apply DateFacts.digits_no_dot, Nd].
  apply DateFacts.cut_unique in E as [_ E];
    [|eapply DateFacts.numeral_no_dot, M1|eapply DateFacts.numeral_no_dot, Nm].
  apply DateFacts.year_numeral_length in Ny. rewrite <- E in Ny.
  apply L in Ny. lia.
Qed.

(** So [strptime] reads back what [strftime] wrote exactly from the year
    1000 on. *)
Lemma strptime_strftime d :
  valid_date d = true ->
  strptime (strftime_dmY d) =
  if 1000 <=? year d then Ok d else Err ValueError.
Proof.
  intros V. destruct (1000 <=? year d) eqn:K; b2p.
  - apply DateFacts.strptime_complete, strftime_dmY_text; assumption.
  - destruct (strptime (strftime_dmY d)) as [d'|x] eqn:E.
    + apply DateFacts.strptime_sound in E;
        [destruct (strftime_dmY_short d d' V K E)|].
      intros c t Q. destruct (strftime_dmY_plain d V) as (P & _).
      rewrite Q in P. cbn [forallb] in P.
      apply andb_true_iff in P as [P _]. apply negb_true_iff, P.
    + apply DateFacts.strptime_error in E. subst x. reflexivity.
Qed.

Lemma before_free c s w :
  contains c s = false -> before c (s ++ c :: w) = s /\ after c (s ++ c :: w) = w.
Proof.
  unfold contains. induction s as [|a s IH]; simpl.
  - rewrite CharEq.eqb_refl. auto.
  - intros H. apply orb_false_iff in H as [Ha Hs].
    rewrite CharEq.eqb_sym, Ha. destruct (IH Hs) as [-> ->]. auto.
Qed.

Lemma before_none c s : contains c s = false -> before c s = s.
Proof.
  unfold contains. induction s as [|a s IH]; simpl; [reflexivity|].
  intros H. apply orb_false_iff in H as [Ha Hs].
  rewrite CharEq.eqb_sym, Ha, (IH Hs). reflexivity.
Qed.

Lemma contains_app c a b :
  contains c (a ++ b) = contains c a || contains c b.
Proof. apply existsb_app. Qed.

End DateMore.

(** X1.  The date text of the HTML page reads back from the year 1000
    on, and not before: for every valid date, the date resolver is given
    what [strftime('%d.%m.%Y')] writes, also with blanks around it.  When
    the year has four digits it returns that date and no end date; an
    earlier year is written without leading zeros, and the resolver
    rejects the text with [ValueError]. *)
Theorem single_date_round_trip (d : date) (w1 w2 : str) :
  valid_date d = true ->
  Vocab.blanks w1 = true -> Vocab.blanks w2 = true ->
  parse_date (w1 ++ strftime_dmY d ++ w2) =
  if (1000 <=? year d)%Z then Ok (d, None) else Err ValueError.
Proof.
  intros V H1 H2.
  destruct (DateMore.strftime_dmY_plain d V) as (P & C & _).
  unfold parse_date.
  rewrite (TrimFacts.strip_pad w1 _ w2 H1 H2), (PyStrFacts.strip_none _ P), C.
  rewrite (DateMore.strptime_strftime d V).
  destruct (1000 <=? year d)%Z; reflexivity.
Qed.

Lemma single_date_round_trip_witness :
  parse_date (lit "  " ++ strftime_dmY (mkdate 2024 2 29) ++ lit " ") =
    Ok (mkdate 2024 2 29, None) /\
  parse_date (strftime_dmY (mkdate 999 1 1)) = Err ValueError.
Proof.
  split.
  - apply (single_date_round_trip (mkdate 2024 2 29) (lit "  ") (lit " "));
      reflexivity.
  - rewrite <- (app_nil_r (strftime_dmY (mkdate 999 1 1))).
    apply (single_date_round_trip (mkdate 999 1 1) [] []); reflexivity.
Defined.

(** X2.  A range reads back too, in either order, when both years have
    four digits: for all valid dates [a] and [b], the resolver is given
    the two date texts with [ - ] between them.  From the year 1000 on it
    returns ([a], [b]), whether or not [b] is before [a]; when one of the
    years is earlier it fails with [ValueError]. *)
Theorem date_range_round_trip (a b : date) :
  valid_date a = true -> valid_date b = true ->
  parse_date (strftime_dmY a ++ lit " - " ++ strftime_dmY b) =
  if ((1000 <=? year a) && (1000 <=? year b))%Z then Ok (a, Some b)
  else Err ValueError.
Proof.
  intros Va Vb.
  destruct (DateMore.strftime_dmY_plain a Va) as (Pa & Ca & Na).
  destruct (DateMore.strftime_dmY_plain b Vb) as (Pb & Cb & Nb).
  pose proof (DateMore.strptime_strftime a Va) as Ra.
  pose proof (DateMore.strptime_strftime b Vb) as Rb.
  set (A := strftime_dmY a) in *. set (B := strftime_dmY b) in *.
  assert (S : PyStr.strip (A ++ lit " - " ++ B) = A ++ lit " - " ++ B)
    by (apply TrimFacts.strip_between; assumption).
  assert (C : PyStr.contains "-" (A ++ lit " - " ++ B) = true).
  { rewrite DateMore.contains_app, Ca. simpl. reflexivity. }
  assert (F : PyStr.contains "-" (A ++ lit " ") = false).
  { rewrite DateMore.contains_app, Ca. reflexivity. }
  assert (G : PyStr.contains "-" (lit " " ++ B) = false).
  { rewrite DateMore.contains_app, Cb. reflexivity. }
  rewrite DateFacts.date_range_unfold; rewrite S; [|exact C].
  replace (A ++ lit " - " ++ B) with ((A ++ lit " ") ++ ch "-" :: lit " " ++ B)
    by (rewrite <- app_assoc; reflexivity).
  destruct (DateMore.before_free "-" _ (lit " " ++ B) F) as [-> ->].
  rewrite (DateMore.before_none "-" _ G).
  replace (PyStr.strip (A ++ lit " ")) with A.
  2:{ pose proof (TrimFacts.strip_pad [] A (lit " ") eq_refl eq_refl) as Q.
      cbn [app] in Q. rewrite Q.
      symmetry. apply PyStrFacts.strip_none, Pa. }
  replace (PyStr.strip (lit " " ++ B)) with B.
  2:{ pose proof (TrimFacts.strip_pad (lit " ") B [] eq_refl eq_refl) as Q.
      rewrite app_nil_r in Q. rewrite Q.
      symmetry. apply PyStrFacts.strip_none, Pb. }
  rewrite Ra, Rb.
  destruct (1000 <=? year a)%Z, (1000 <=? year b)%Z; reflexivity.
Qed.

Lemma date_range_round_trip_witness :
  parse_date (strftime_dmY (mkdate 2024 3 3) ++ lit " - " ++
              strftime_dmY (mkdate 2024 3 1)) =
    Ok (mkdate 2024 3 3, Some (mkdate 2024 3 1)) /\
  parse_date (strftime_dmY (mkdate 999 1 1) ++ lit " - " ++
              strftime_dmY (mkdate 2024 3 1)) = Err ValueError.
Proof.
  split.
  - apply (date_range_round_trip (mkdate 2024 3 3) (mkdate 2024 3 1));
      reflexivity.
  - apply (date_range_round_trip (mkdate 999 1 1) (mkdate 2024 3 1));
      reflexivity.
Defined.

(** X3.  The date resolver raises nothing but [ValueError]: a line with a
    hyphen always has the two parts the code reads, so no [IndexError];
    and every date it returns is a date of the calendar. *)
Theorem parse_date_outcomes (line : str) :
  (forall e, parse_date line = Err e -> e = ValueError) /\
  (forall a b, parse_date line = Ok (a, b) ->
     valid_date a = true /\
     match b with
     | Some b' =>
         valid_date b' = true /\ PyStr.contains "-" (PyStr.strip line) = true
     | None => PyStr.contains "-" (PyStr.strip line) = false
     end).
Proof.
  split; [intros e; apply ExtractFacts.parse_date_error|].
  intros a b. apply DateMore.parse_date_valid.
Qed.

Lemma parse_date_outcomes_witness :
  valid_date (mkdate 2024 3 1) = true /\
  valid_date (mkdate 2024 3 3) = true /\
  PyStr.contains "-" (PyStr.strip (lit "01.03.2024 - 03.03.2024")) = true.
Proof.
  destruct (parse_date_outcomes (lit "01.03.2024 - 03.03.2024")) as [_ P].
  destruct (P (mkdate 2024 3 1) (Some (mkdate 2024 3 3)) eq_refl) as [A [B C]].
  auto.
Defined.

(** ** Kinds of lines *)

Module LineFacts.
Import PyStr Spec Vocab.

Lemma all_hashes m :
  forallb (Char.eqb hash) m = true -> m = repeat hash (length m).
Proof.
  induction m as [|c m IH]; cbn [forallb length repeat]; [reflexivity|].
  intros H. apply andb_true_iff in H as [Hc Hm].
  apply CharEq.eqb_eq in Hc. subst c. f_equal. auto.
Qed.

Lemma forallb_repeat_hash n : forallb (Char.eqb hash) (repeat hash n) = true.
Proof. induction n as [|n IH]; simpl; [reflexivity|exact IH]. Qed.

(** A heading line: once trimmed, hash signs and then a blank. *)
Lemma is_heading_iff l :
  is_heading l = true <->
  exists n c r, strip l = repeat hash (S n) ++ c :: r /\ isspace c = true.
Proof.
  unfold is_heading. split.
  - intros H. apply ReFacts.matches_true in H as (m & rest & E & L).
    unfold heading_re in L. cbn [Re.lang] in L.
    destruct L as (m1 & m2 & -> & [Hne Hm1] & c & -> & Hc).
    apply all_hashes in Hm1.
    destruct m1 as [|x m1]; [congruence|]. simpl length in Hm1.
    exists (length m1), c, rest. rewrite E, Hm1, <- app_assoc. auto.
  - intros (n & c & r & -> & Hc).
    replace (repeat hash (S n) ++ c :: r)
      with ((repeat hash (S n) ++ [c]) ++ r)
      by (rewrite <- app_assoc; reflexivity).
    apply ReFacts.matches_lang. unfold heading_re. cbn [Re.lang].
    exists (repeat hash (S n)), [c]. split; [reflexivity|].
    split; [split; [discriminate|apply forallb_repeat_hash]|].
    exists c. split; [reflexivity|exact Hc].
Qed.

(** A tag line: a hash sign and then a character of a tag. *)
Lemma is_tag_line_iff t :
  is_tag_line t = true <-> exists c r, t = hash :: c :: r /\ tag_char c = true.
Proof.
  unfold is_tag_line. split.
  - intros H. apply ReFacts.matches_true in H as (m & rest & E & L).
    unfold tag_line_re in L. cbn [Re.lang] in L.
    destruct L as (m1 & m2 & -> & (x & -> & Hx) & c & -> & Hc).
    exists c, rest. split; [|exact Hc]. rewrite E. cbn [app]. f_equal.
    apply CharFacts.is_char_eq, Hx.
  - intros (c & r & -> & Hc).
    change (hash :: c :: r) with ([hash; c] ++ r).
    apply ReFacts.matches_lang. unfold tag_line_re. cbn [Re.lang].
    exists [hash], [c]. split; [reflexivity|].
    split; [exists hash; split; reflexivity|].
    exists c. split; [reflexivity|exact Hc].
Qed.

Lemma is_link_head t : is_link t = true -> exists u, t = ch "h" :: u.
Proof.
  unfold is_link. destruct t as [|c u]; [discriminate|].
  intros H. exists u. f_equal.
  apply orb_true_iff in H as [H|H]; cbn [lit list_ascii_of_string map startswith] in H;
    apply andb_true_iff in H as [H _]; apply CharEq.eqb_eq in H; exact H.
Qed.

(** A line whose trimmed text starts with [c] is no date when no date text
    starts with [c]. *)
Lemma not_date_by_head c l u :
  strip l = c :: u ->
  (forall v, strptime (c :: v) = Err ValueError) ->
  before "-" (c :: u) = c :: before "-" u ->
  isspace c = false ->
  parses l = false.
Proof.
  intros E N B S. unfold parses, parse_date. rewrite E.
  destruct (contains "-" (c :: u)) eqn:C.
  - destruct (DateFacts.split_parts _ _ C) as [-> ->].
    rewrite B, (ExtractFacts.strip_cons c _ S), N. reflexivity.
  - rewrite N. reflexivity.
Qed.

Lemma strptime_h v : strptime (ch "h" :: v) = Err ValueError.
Proof. reflexivity. Qed.

Lemma link_not_date l : is_link (strip l) = true -> parses l = false.
Proof.
  intros H. apply is_link_head in H as [u E].
  apply (not_date_by_head "h" l u E strptime_h); reflexivity.
Qed.

Lemma tag_line_not_date l : is_tag_line (strip l) = true -> parses l = false.
Proof.
  intros H. apply is_tag_line_iff in H as (c & r & E & _).
  apply (not_date_by_head hash l (c :: r) E ExtractFacts.strptime_hash);
    reflexivity.
Qed.

Lemma tag_line_not_link t : is_tag_line t = true -> is_link t = false.
Proof.
  intros H. apply is_tag_line_iff in H as (c & r & -> & _). reflexivity.
Qed.

Lemma heading_not_tag_line l : is_heading l = true -> is_tag_line (strip l) = false.
Proof.
  intros H. apply is_heading_iff in H as (n & c & r & E & Hc).
  destruct (is_tag_line (strip l)) eqn:T; [|reflexivity].
  apply is_tag_line_iff in T as (x & y & E' & Hx).
  rewrite E in E'. destruct n as [|n]; simpl in E'.
  - injection E' as <- _.
    apply EscapeFacts.tag_char_not_special in Hx. unfold special in Hx.
    apply orb_false_iff in Hx as [_ Hx]. congruence.
  - injection E' as <- _. discriminate.
Qed.

Lemma heading_not_link l : is_heading l = true -> is_link (strip l) = false.
Proof.
  intros H. apply ExtractFacts.heading_starts_with_hash in H as [t ->].
  reflexivity.
Qed.

Lemma blank_nothing l :
  blank l = true ->
  is_heading l = false /\ is_tag_line (strip l) = false /\
  is_link (strip l) = false /\ parses l = false.
Proof.
  intros B. pose proof (ExtractFacts.blank_is_plain l B) as P.
  unfold plain in P. apply negb_true_iff in P.
  unfold blank in B. apply negb_true_iff in B.
  destruct (strip l) as [|c u] eqn:E; [|discriminate].
  repeat split; auto.
  unfold parses, parse_date. rewrite E. reflexivity.
Qed.

End LineFacts.

(** X4.  The kinds of lines exclude one another: a line is at most one of
    blank, heading line, tag line, link line and date line, each told
    from the first characters of the trimmed line.  So the order in which
    the body loop tests for a link and for a tag line never decides. *)
Theorem line_kinds_exclusive (l : str) :
  (Spec.blank l = true ->
   is_heading l = false /\ is_tag_line (PyStr.strip l) = false /\
   is_link (PyStr.strip l) = false /\ Spec.parses l = false) /\
  (is_heading l = true ->
   is_tag_line (PyStr.strip l) = false /\ is_link (PyStr.strip l) = false /\
   Spec.parses l = false) /\
  (is_tag_line (PyStr.strip l) = true ->
   is_link (PyStr.strip l) = false /\ Spec.parses l = false) /\
  (is_link (PyStr.strip l) = true -> Spec.parses l = false).
Proof.
  split; [apply LineFacts.blank_nothing|].
  split; [|split].
  - intros H. split; [apply LineFacts.heading_not_tag_line, H|].
    split; [apply LineFacts.heading_not_link, H|].
    apply ExtractFacts.heading_not_date, H.
  - intros H. split; [apply LineFacts.tag_line_not_link, H|].
    apply LineFacts.tag_line_not_date, H.
  - apply LineFacts.link_not_date.
Qed.

Lemma line_kinds_exclusive_witness :
  is_link (PyStr.strip (lit " #rocket ")) = false /\
  Spec.parses (lit " #rocket ") = false.
Proof.
  destruct (line_kinds_exclusive (lit " #rocket ")) as (_ & _ & P & _).
  apply P. reflexivity.
Defined.

(** ** More on the tag extractor *)

Module TagFacts.
Import PyStr Spec Vocab.

(** Before a character outside the class, the greedy run takes it all. *)
Lemma many_head p m rest :
  forallb p m = true ->
  match rest with [] => True | c :: _ => p c = false end ->
  exists tl, Re.many p (m ++ rest) = (m, rest) :: tl.
Proof.
  intros Hm Hr. induction m as [|c m IH]; simpl.
  - destruct rest as [|c r]; simpl; [eauto|]. rewrite Hr. eauto.
  - simpl in Hm. apply andb_true_iff in Hm as [Hc Hm].
    destruct (IH Hm) as [tl ->]. rewrite Hc. simpl. eauto.
Qed.

Lemma tag_pattern_head t rest :
  tag_ok t ->
  match rest with [] => True | c :: _ => tag_char c = false end ->
  exists tl, Re.rmatch tag_pattern (hash :: t ++ rest) = (hash :: t, rest) :: tl.
Proof.
  intros [Hne Ht] Hr. destruct t as [|c t]; [congruence|].
  simpl in Ht. apply andb_true_iff in Ht as [Hc Ht].
  destruct (many_head tag_char t rest Ht Hr) as [tl E].
  unfold tag_pattern. cbn [Re.rmatch Re.one].
  change (Re.is_char hash hash) with true. cbn [flat_map fst snd app].
  rewrite Hc, E. cbn [map Re.push fst snd app]. rewrite app_nil_r. eauto.
Qed.

Lemma findall_from_skip r a s :
  Re.findall_from r (a ++ s) (length a) = Re.findall_from r s 0.
Proof. induction a as [|c a IH]; simpl; [reflexivity|exact IH]. Qed.

Lemma findall_tag t rest :
  tag_ok t ->
  match rest with [] => True | c :: _ => tag_char c = false end ->
  Re.findall_from tag_pattern (hash :: t ++ rest) 0 =
  (hash :: t) :: Re.findall_from tag_pattern rest 0.
Proof.
  intros Ht Hr. destruct (tag_pattern_head t rest Ht Hr) as [tl E].
  cbn [Re.findall_from]. rewrite E. f_equal.
  replace (length (hash :: t) - 1) with (length t) by (simpl; lia).
  apply findall_from_skip.
Qed.

Lemma findall_no_hash c s :
  Char.eqb c hash = false ->
  Re.findall_from tag_pattern (c :: s) 0 = Re.findall_from tag_pattern s 0.
Proof.
  intros H. cbn [Re.findall_from].
  replace (Re.rmatch tag_pattern (c :: s)) with (@nil (str * str));
    [reflexivity|].
  unfold tag_pattern. cbn [Re.rmatch Re.one]. unfold Re.is_char.
  rewrite <- CharFacts.eqb_code, H. reflexivity.
Qed.

(** The tags of a line of tags are the tags. *)
Lemma findall_tag_line ts :
  Forall tag_ok ts ->
  Re.findall_from tag_pattern (tag_line ts) 0 = map (fun t => hash :: t) ts.
Proof.
  unfold tag_line. induction 1 as [|t ts Ht Hts IH]; [reflexivity|].
  destruct ts as [|u ts].
  - cbn [map join]. rewrite <- (app_nil_r t) at 1.
    rewrite (findall_tag t [] Ht I). reflexivity.
  - change (join (lit " ") (map (fun t => hash :: t) (t :: u :: ts)))
      with (hash :: t ++ ch " " ::
            join (lit " ") (map (fun t => hash :: t) (u :: ts))).
    rewrite (findall_tag t (ch " " :: _) Ht eq_refl).
    rewrite (findall_no_hash " " _ eq_refl), IH. reflexivity.
Qed.

(** Without a hash sign there is no tag. *)
Lemma findall_hash_free s :
  contains hash s = false -> Re.findall_from tag_pattern s 0 = [].
Proof.
  unfold contains. induction s as [|c s IH]; [reflexivity|].
  cbn [existsb]. intros H. apply orb_false_iff in H as [Hc Hs].
  rewrite findall_no_hash by (rewrite CharEq.eqb_sym; exact Hc). auto.
Qed.

End TagFacts.

(** X5.  Tags written as a tag line are read back: for every list of
    well-formed tags (non-empty, of letters, digits, hyphens and
    underscores), the tag extractor returns exactly these tags, in order
    and with repetitions, from the line that writes each after a hash
    sign with single blanks between them; and a line without a hash sign
    yields no tag. *)
Theorem parse_tags_round_trip :
  (forall ts, Forall Spec.tag_ok ts -> parse_tags (Vocab.tag_line ts) = ts) /\
  (forall line, PyStr.contains hash line = false -> parse_tags line = []).
Proof.
  split.
  - intros ts H. unfold parse_tags, Re.findall.
    rewrite (TagFacts.findall_tag_line ts H), map_map. simpl.
    apply map_id.
  - intros line H. unfold parse_tags, Re.findall.
    rewrite (TagFacts.findall_hash_free line H). reflexivity.
Qed.

Lemma parse_tags_round_trip_witness :
  parse_tags (Vocab.tag_line [lit "space"; lit "x-1"; lit "space"]) =
  [lit "space"; lit "x-1"; lit "space"].
Proof.
  apply (proj1 parse_tags_round_trip).
  repeat constructor; discriminate.
Defined.

(** ** The fields of an extracted event *)

Module EventFacts.
Import PyStr Spec Vocab.

Lemma forallb_lstrip_by p s :
  forallb p (lstrip_by p s) = true -> forallb p s = true.
Proof.
  induction s as [|c s IH]; simpl; [reflexivity|].
  destruct (p c) eqn:E; simpl; [exact IH|rewrite E; discriminate].
Qed.

Lemma strip_nil s : strip s = [] -> forallb isspace s = true.
Proof.
  unfold strip. intros H. apply PyStrFacts.rstrip_by_nil in H.
  apply forallb_lstrip_by, H.
Qed.

Lemma trimmed_of_ends s : starts_plain s -> ends_plain s -> trimmed s.
Proof.
  unfold starts_plain, ends_plain, trimmed, strip.
  destruct s as [|a u]; [tauto|]. intros Ha Hz.
  rewrite (PyStrFacts.lstrip_by_fix _ _ _ Ha).
  destruct (rev (a :: u)) as [|z v] eqn:E; [tauto|].
  apply (f_equal (@rev char)) in E. rewrite rev_involutive in E.
  rewrite E. simpl. apply TrimFacts.rstrip_by_last, Hz.
Qed.

Lemma ends_of_trimmed s : s <> [] -> trimmed s -> starts_plain s /\ ends_plain s.
Proof.
  intros Hne T. split.
  - destruct s as [|a u]; [congruence|]. simpl.
    eapply PyStrFacts.strip_head. exact T.
  - destruct (exists_last Hne) as (v & z & ->).
    unfold ends_plain. rewrite rev_app_distr. simpl.
    eapply TrimFacts.trimmed_last, T.
Qed.

Lemma ends_plain_app a b : ends_plain b -> ends_plain (a ++ b).
Proof.
  unfold ends_plain. rewrite rev_app_distr.
  destruct (rev b); [tauto|]. simpl. auto.
Qed.

Lemma starts_plain_app a b : starts_plain a -> starts_plain (a ++ b).
Proof. destruct a; simpl; [intros []|auto]. Qed.

Lemma ends_plain_join l :
  Forall (fun t => starts_plain t /\ ends_plain t) l -> l <> [] ->
  ends_plain (join [nl] l).
Proof.
  induction 1 as [|x l [_ He] Hl IH]; intros N; [congruence|].
  destruct l as [|u l]; [exact He|].
  change (join [nl] (x :: u :: l)) with (x ++ [nl] ++ join [nl] (u :: l)).
  apply ends_plain_app, ends_plain_app, IH. discriminate.
Qed.

(** Trimmed, non-empty lines joined by newlines are a trimmed text. *)
Lemma join_trimmed texts :
  Forall (fun t => t <> [] /\ trimmed t) texts -> trimmed (join [nl] texts).
Proof.
  intros H. destruct texts as [|t ts]; [reflexivity|].
  assert (E : Forall (fun t => starts_plain t /\ ends_plain t) (t :: ts)).
  { eapply Forall_impl; [|exact H]. intros x [Hx Tx].
    apply ends_of_trimmed; assumption. }
  clear H. apply trimmed_of_ends.
  - inversion E as [|x l [Hs _] _]; subst.
    destruct ts; [exact Hs|]. apply starts_plain_app, Hs.
  - apply ends_plain_join; [exact E|discriminate].
Qed.

(** The text of a heading line is not empty. *)
Lemma heading_text_nonempty h : is_heading h = true -> heading_text h <> [].
Proof.
  intros H. apply LineFacts.is_heading_iff in H as (n & c & r & E & Hc).
  unfold heading_text, lstrip_char. rewrite E.
  rewrite (TrimFacts.lstrip_by_blanks _ _ _ (LineFacts.forallb_repeat_hash (S n))).
  assert (Hh : Char.eqb hash c = false).
  { destruct (Char.eqb hash c) eqn:Q; [|reflexivity].
    apply CharEq.eqb_eq in Q. subst c. discriminate. }
  rewrite (PyStrFacts.lstrip_by_fix _ _ _ Hh).
  intros N. apply strip_nil in N.
  assert (Hne : c :: r <> []) by discriminate.
  destruct (exists_last Hne) as (v & z & Ez). rewrite Ez in N.
  rewrite forallb_app in N. apply andb_true_iff in N as [_ Nz].
  simpl in Nz. rewrite andb_true_r in Nz.
  pose proof (TrimFacts.strip_trimmed h) as T. rewrite E, Ez in T.
  rewrite app_assoc in T. apply TrimFacts.trimmed_last in T. congruence.
Qed.

(** What an event is made from. *)
Lemma event_fields lines i i' e :
  outer_iteration lines i = Next i' (Some e) ->
  exists h dl body,
    In h lines /\ is_heading h = true /\ In dl lines /\
    (forall l, In l body -> In l lines) /\
    title e = heading_text h /\
    parse_date dl = Ok (start_date e, end_date e) /\
    description e = strip (b_description (separate (map strip body))) /\
    link e = b_link (separate (map strip body)) /\
    tags e = b_tags (separate (map strip body)).
Proof.
  unfold outer_iteration. cbv zeta.
  destruct (nth_error lines i) as [h|] eqn:Hh; [|discriminate].
  rewrite ExtractFacts.is_heading_strip.
  destruct (is_heading h) eqn:H; [|discriminate].
  destruct (length lines <=? _); [discriminate|].
  destruct (nth_error lines (skip_blank (skipn (S i) lines) (S i)))
    as [dl|] eqn:Hd; [|discriminate].
  rewrite ExtractFacts.parse_date_strip.
  destruct (parse_date dl) as [[sd ed]|x] eqn:P; [|discriminate].
  rewrite ExtractFacts.collect_body_eq. cbn [app].
  intros [= _ <-]. cbn [title start_date end_date description link tags].
  exists h, dl, (take_while plain (skipn (S (skip_blank (skipn (S i) lines) (S i))) lines)).
  split; [eapply nth_error_In, Hh|]. split; [exact H|].
  split; [eapply nth_error_In, Hd|].
  split; [|auto 10].
  intros l Hl.
  assert (S : forall (p : str -> bool) r x, In x (take_while p r) -> In x r).
  { intros p r x. induction r as [|y r IH]; simpl; [tauto|].
    destruct (p y); simpl; [tauto|tauto]. }
  apply S in Hl.
  assert (K : forall n (r : list str) x, In x (skipn n r) -> In x r).
  { induction n as [|n IH]; intros [|y r] x; simpl; auto. }
  eapply K, Hl.
Qed.

Lemma events_valid lines events :
  parse_lines lines = Some (Ok events) ->
  Forall (fun e => valid_event e = true) events.
Proof.
  unfold parse_lines. intros H.
  eapply ExtractFacts.parse_loop_forall; [|constructor|exact H].
  intros i i' e E.
  apply event_fields in E as (h & dl & body & _ & _ & _ & _ & _ & P & _).
  apply DateMore.parse_date_valid in P as [Va Vb].
  unfold valid_event. rewrite Va.
  destruct (end_date e); [destruct Vb as [Vb _]; exact Vb|reflexivity].
Qed.

Lemma content_lines_trimmed body :
  Forall trimmed (map strip body).
Proof.
  apply Forall_forall. intros t H. apply in_map_iff in H as (l & <- & _).
  apply TrimFacts.strip_trimmed.
Qed.

Lemma last_in_or_default {A : Type} (l : list A) d :
  last l d = d /\ l = [] \/ In (last l d) l.
Proof.
  revert d. induction l as [|a l IH]; intros d; [auto|]. right.
  rewrite ExtractFacts.last_cons.
  destruct (IH a) as [[E _]|H]; [rewrite E; left; reflexivity|right; exact H].
Qed.

End EventFacts.

(** X6.  Every extracted event has a title that is not empty and has no
    blank at either end: a heading line, once trimmed, cannot end in the
    blank that follows its hash signs, so some text is left. *)
Theorem titles_not_empty (lines : list str) (events : list Event) :
  parse_lines lines = Some (Ok events) ->
  Forall (fun e => title e <> [] /\ Vocab.trimmed (title e)) events.
Proof.
  unfold parse_lines. intros H.
  eapply ExtractFacts.parse_loop_forall; [|constructor|exact H].
  intros i i' e E.
  apply EventFacts.event_fields in E as (h & dl & body & _ & Hh & _ & _ & T & _).
  rewrite T. split; [apply EventFacts.heading_text_nonempty, Hh|].
  apply TrimFacts.strip_trimmed.
Qed.

Lemma titles_not_empty_witness :
  Forall (fun e => title e <> [] /\ Vocab.trimmed (title e)) [Examples.launch].
Proof.
  apply (titles_not_empty Examples.dangling_lines [Examples.launch]).
  reflexivity.
Defined.

(** X7.  Every extracted event has dates of the calendar: its start date
    and, when it has one, its end date are valid dates of the years 1 to
    9999.  Nothing orders them: the end may be before the start. *)
Theorem extracted_dates_valid (lines : list str) (events : list Event) :
  parse_lines lines = Some (Ok events) ->
  Forall (fun e => Spec.valid_event e = true) events.
Proof. apply EventFacts.events_valid. Qed.

Lemma extracted_dates_valid_witness :
  Forall (fun e => Spec.valid_event e = true) [Examples.launch].
Proof.
  apply (extracted_dates_valid Examples.dangling_lines [Examples.launch]).
  reflexivity.
Defined.

(** X8.  The link of every extracted event is empty or a trimmed line
    that starts with http:// or https://; nothing else is checked. *)
Theorem links_are_link_lines (lines : list str) (events : list Event) :
  parse_lines lines = Some (Ok events) ->
  Forall (fun e =>
    link e = [] \/ (is_link (link e) = true /\ Vocab.trimmed (link e))) events.
Proof.
  unfold parse_lines. intros H.
  eapply ExtractFacts.parse_loop_forall; [|constructor|exact H].
  intros i i' e E.
  apply EventFacts.event_fields in E
    as (h & dl & body & _ & _ & _ & _ & _ & _ & _ & L & _).
  rewrite L, ExtractFacts.separate_eq. cbn [b_link].
  destruct (EventFacts.last_in_or_default
              (Spec.of_category Spec.Link (map PyStr.strip body)) [])
    as [[-> _]|I]; [left; reflexivity|right].
  unfold Spec.of_category in I at 2. apply filter_In in I as [I C].
  split.
  - pose proof (ExtractFacts.classify_cases
                  (last (Spec.of_category Spec.Link (map PyStr.strip body)) [])) as K.
    destruct (Spec.classify _); try discriminate. exact K.
  - pose proof (EventFacts.content_lines_trimmed body) as T.
    rewrite Forall_forall in T. apply T, I.
Qed.

Lemma links_are_link_lines_witness :
  Forall (fun e =>
    link e = [] \/ (is_link (link e) = true /\ Vocab.trimmed (link e)))
    [Examples.launch].
Proof.
  apply (links_are_link_lines Examples.dangling_lines [Examples.launch]).
  reflexivity.
Defined.

(** X9.  The description of every extracted event is its text lines
    joined by single newlines, each line not empty, trimmed and neither a
    link nor a tag line; so the description has no blank at either end
    and the final trimming removes nothing. *)
Theorem descriptions_are_text_lines (lines : list str) (events : list Event) :
  parse_lines lines = Some (Ok events) ->
  Forall (fun e =>
    Vocab.trimmed (description e) /\
    exists texts,
      description e = PyStr.join [nl] texts /\
      Forall (fun t => t <> [] /\ Vocab.trimmed t /\
                       Spec.classify t = Spec.Text) texts) events.
Proof.
  unfold parse_lines. intros H.
  eapply ExtractFacts.parse_loop_forall; [|constructor|exact H].
  intros i i' e E.
  apply EventFacts.event_fields in E
    as (h & dl & body & _ & _ & _ & _ & _ & _ & D & _).
  rewrite D, ExtractFacts.separate_eq. cbn [b_description].
  split; [apply TrimFacts.strip_trimmed|].
  set (texts := Spec.of_category Spec.Text (map PyStr.strip body)).
  assert (F : Forall (fun t => t <> [] /\ Vocab.trimmed t /\
                               Spec.classify t = Spec.Text) texts).
  { apply Forall_forall. intros t I. unfold texts, Spec.of_category in I.
    apply filter_In in I as [I C].
    pose proof (ExtractFacts.classify_cases t) as K.
    pose proof (EventFacts.content_lines_trimmed body) as T.
    rewrite Forall_forall in T.
    destruct (Spec.classify t); try discriminate.
    split; [tauto|]. split; [apply T, I|reflexivity]. }
  exists texts. split; [|exact F].
  apply EventFacts.join_trimmed.
  eapply Forall_impl; [|exact F]. intros t (A & B & _). split; assumption.
Qed.

Lemma descriptions_are_text_lines_witness :
  Forall (fun e =>
    Vocab.trimmed (description e) /\
    exists texts,
      description e = PyStr.join [nl] texts /\
      Forall (fun t => t <> [] /\ Vocab.trimmed t /\
                       Spec.classify t = Spec.Text) texts)
    [Examples.launch].
Proof.
  apply (descriptions_are_text_lines Examples.dangling_lines [Examples.launch]).
  reflexivity.
Defined.

(** ** Rendering what was extracted *)

Module RenderMore.
Import PyStr Spec Vocab.

Lemma add_one_day_error d x : add_one_day d = Err x -> x = OverflowError.
Proof.
  unfold add_one_day.
  destruct (_ <? _)%Z; [discriminate|].
  destruct (_ <? _)%Z; [discriminate|].
  destruct (_ <? _)%Z; [discriminate|]. intros [= <-]. reflexivity.
Qed.

Lemma valid_last_day e : valid_event e = true -> valid_date (last_day e) = true.
Proof.
  unfold valid_event, last_day. intros V.
  apply andb_true_iff in V as [Vs Ve]. destruct (end_date e); assumption.
Qed.

Lemma vevent_defined e now :
  valid_event e = true ->
  ((exists block, vevent e now = Ok block) <-> last_day e <> max_date) /\
  (forall x, vevent e now = Err x -> x = OverflowError).
Proof.
  intros V. apply valid_last_day in V.
  destruct (IcalFacts.vevent_shape e now) as [uid E]. rewrite E.
  rewrite <- (CalendarFacts.add_one_day_defined _ V).
  destruct (add_one_day (last_day e)) as [next|x] eqn:A; cbn [bind].
  - split; [split; intros _; eexists; reflexivity|discriminate].
  - split; [split; intros [b H]; discriminate|].
    intros y [= <-]. eapply add_one_day_error, A.
Qed.

Lemma vevents_defined events clock : forall k,
  Forall (fun e => valid_event e = true) events ->
  ((exists out, vevents events clock k = Ok out) <->
   Forall (fun e => last_day e <> max_date) events) /\
  (forall x, vevents events clock k = Err x -> x = OverflowError).
Proof.
  induction events as [|e events IH]; intros k V; cbn [vevents].
  - split; [split; [constructor|eexists; reflexivity]|discriminate].
  - inversion V as [|? ? Ve Vs]; subst.
    destruct (vevent_defined e (clock k) Ve) as [D1 D2].
    destruct (IH (S k) Vs) as [I1 I2].
    destruct (vevent e (clock k)) as [b|x] eqn:B; cbn [bind].
    + destruct (vevents events clock (S k)) as [bs|y] eqn:R; cbn [bind].
      * split; [|discriminate]. split; [|eexists; reflexivity].
        intros _. constructor; [apply D1; eauto|apply I1; eauto].
      * split; [|intros z [= <-]; apply I2; reflexivity].
        split; [intros [o H]; discriminate|].
        intros F. inversion F; subst.
        destruct (proj2 I1) as [o H]; [assumption|discriminate].
    + split; [|intros z [= <-]; apply D2; reflexivity].
      split; [intros [o H]; discriminate|].
      intros F. inversion F; subst.
      destruct (proj2 D1) as [o H]; [assumption|discriminate].
Qed.

Lemma generate_ical_defined events clock :
  Forall (fun e => valid_event e = true) events ->
  ((exists out, generate_ical events clock = Ok out) <->
   Forall (fun e => last_day e <> max_date) events) /\
  (forall x, generate_ical events clock = Err x -> x = OverflowError).
Proof.
  intros V.
  pose proof (SortFacts.sorted_events_perm events) as P.
  assert (Vs : Forall (fun e => valid_event e = true) (sorted_events events))
    by (eapply Permutation_Forall; [symmetry; exact P|exact V]).
  destruct (vevents_defined (sorted_events events) clock 0 Vs) as [D1 D2].
  unfold generate_ical.
  destruct (vevents (sorted_events events) clock 0) as [bs|x]; cbn [bind].
  - split; [|discriminate]. split; [|eexists; reflexivity].
    intros _. eapply Permutation_Forall; [exact P|]. apply D1. eauto.
  - split; [|intros y [= <-]; apply D2; reflexivity].
    split; [intros [o H]; discriminate|].
    intros F. destruct (proj2 D1) as [o H]; [|discriminate].
    eapply Permutation_Forall; [symmetry; exact P|exact F].
Qed.

End RenderMore.

(** X10.  Whatever the extraction pass returns can be rendered to the
    calendar format, with one exception: the calendar renderer succeeds
    on the extracted events exactly when none of them ends on 31 December
    9999, the one date with no day after; when it fails it raises
    [OverflowError] and writes nothing. *)
Theorem calendar_of_extracted_events (lines : list str) (events : list Event)
  (clock : nat -> str) :
  parse_lines lines = Some (Ok events) ->
  ((exists out, generate_ical events clock = Ok out) <->
   Forall (fun e => Spec.last_day e <> Spec.max_date) events) /\
  (forall x, generate_ical events clock = Err x -> x = OverflowError).
Proof.
  intros H. apply RenderMore.generate_ical_defined.
  eapply EventFacts.events_valid, H.
Qed.

Lemma calendar_of_extracted_events_witness :
  exists out,
    generate_ical [Examples.launch] (fun _ => lit "20240101T000000Z") = Ok out.
Proof.
  apply (calendar_of_extracted_events Examples.dangling_lines [Examples.launch]
           (fun _ => lit "20240101T000000Z")).
  - reflexivity.
  - repeat constructor. discriminate.
Defined.

(** ** The extraction loop on longer documents *)

Module LoopFacts.
Import PyStr Spec Vocab.

Lemma skipn_app_le {A : Type} n (a b : list A) :
  n <= length a -> skipn n (a ++ b) = skipn n a ++ b.
Proof.
  intros H. rewrite skipn_app. replace (n - length a) with 0 by lia.
  reflexivity.
Qed.

Lemma skipn_app_shift {A : Type} (a b : list A) i :
  skipn (length a + i) (a ++ b) = skipn i b.
Proof.
  rewrite skipn_app, skipn_all2 by lia.
  replace (length a + i - length a) with i by lia. reflexivity.
Qed.

(** One pass over the lines after a preamble is the pass over the lines
    alone, with the cursor moved by the length of the preamble. *)
Lemma outer_iteration_shift pre lines i :
  i < length lines ->
  outer_iteration (pre ++ lines) (length pre + i) =
  match outer_iteration lines i with
  | Next j event => Next (length pre + j) event
  | Break => Break
  | Raise e => Raise e
  end.
Proof.
  intros Hi. destruct (ExtractFacts.skipn_cons_of i lines Hi) as (l & _ & E).
  rewrite (ExtractFacts.outer_iteration_at _ _ _ _ E).
  assert (E' : skipn (length pre + i) (pre ++ lines) = l :: skipn (S i) lines)
    by (rewrite skipn_app_shift; exact E).
  rewrite (ExtractFacts.outer_iteration_at _ _ _ _ E').
  unfold iteration_at. destruct (is_heading l); [|f_equal; lia].
  destruct (drop_while blank (skipn (S i) lines)) as [|dl rest2];
    [reflexivity|].
  destruct (parse_date dl) as [[sd ed]|x]; [|reflexivity].
  f_equal. lia.
Qed.

Lemma parse_loop_shift pre lines : forall fuel i events,
  parse_loop fuel (pre ++ lines) (length pre + i) events =
  parse_loop fuel lines i events.
Proof.
  induction fuel as [|fuel IH]; intros i events; [reflexivity|].
  cbn [parse_loop]. rewrite length_app.
  destruct (Nat.ltb_spec i (length lines)) as [Hi|Hi].
  - destruct (Nat.ltb_spec (length pre + i) (length pre + length lines)); [|lia].
    rewrite (outer_iteration_shift pre lines i Hi).
    destruct (outer_iteration lines i) as [j [e|]| |x]; auto.
  - destruct (Nat.ltb_spec (length pre + i) (length pre + length lines)); [lia|].
    reflexivity.
Qed.

(** The loop walks through a preamble without a heading line. *)
Lemma parse_loop_preamble pre lines :
  Forall (fun l => plain l = true) pre ->
  forall n k fuel events,
    k + n = length pre ->
    parse_loop (n + fuel) (pre ++ lines) k events =
    parse_loop fuel (pre ++ lines) (length pre) events.
Proof.
  intros P. induction n as [|n IH]; intros k fuel events Hk.
  - replace k with (length pre) by lia. reflexivity.
  - cbn [Nat.add parse_loop]. rewrite length_app.
    destruct (Nat.ltb_spec k (length pre + length lines)); [|lia].
    assert (Hlt : k < length pre) by lia.
    destruct (ExtractFacts.skipn_cons_of k pre Hlt) as (l & Hl & E).
    assert (E' : skipn k (pre ++ lines) = l :: skipn (S k) pre ++ lines)
      by (rewrite skipn_app_le by lia; rewrite E; reflexivity).
    rewrite (ExtractFacts.outer_iteration_at _ _ _ _ E').
    unfold iteration_at.
    rewrite Forall_forall in P. specialize (P l (nth_error_In _ _ Hl)).
    unfold plain in P. apply negb_true_iff in P. rewrite P.
    apply IH. lia.
Qed.

Lemma parse_lines_preamble pre lines :
  Forall (fun l => plain l = true) pre ->
  parse_lines (pre ++ lines) = parse_lines lines.
Proof.
  intros P. unfold parse_lines. rewrite length_app.
  replace (S (length pre + length lines)) with (length pre + S (length lines))
    by lia.
  rewrite (parse_loop_preamble pre lines P (length pre) 0) by lia.
  pose proof (parse_loop_shift pre lines (S (length lines)) 0 []) as Q.
  rewrite Nat.add_0_r in Q. exact Q.
Qed.

(** *** A blank line at the end *)

Lemma take_while_snoc {A : Type} (p : A -> bool) r b :
  p b = true ->
  take_while p (r ++ [b]) =
  match drop_while p r with
  | [] => r ++ [b]
  | _ :: _ => take_while p r
  end.
Proof.
  intros H. induction r as [|x r IH]; simpl; [rewrite H; reflexivity|].
  destruct (p x); [|reflexivity].
  rewrite IH. destruct (drop_while p r); reflexivity.
Qed.

Lemma drop_while_snoc {A : Type} (p : A -> bool) r b :
  p b = true ->
  drop_while p (r ++ [b]) =
  match drop_while p r with
  | [] => []
  | x :: r2 => x :: r2 ++ [b]
  end.
Proof.
  intros H. induction r as [|x r IH]; simpl; [rewrite H; reflexivity|].
  destruct (p x); [exact IH|reflexivity].
Qed.

Lemma blank_strip b : blank b = true -> strip b = [].
Proof.
  unfold blank. destruct (strip b); [reflexivity|discriminate].
Qed.

Lemma separate_snoc_empty cl : separate (cl ++ [[]]) = separate cl.
Proof. unfold separate. rewrite fold_left_app. reflexivity. Qed.

(** One pass is the same with one more blank line at the end of input,
    except that a body which ran to the end runs one line further. *)
Lemma iteration_at_snoc i l rest b :
  blank b = true ->
  match iteration_at i l rest with
  | Next j event =>
      iteration_at i l (rest ++ [b]) = Next j event \/
      (j = i + 1 + length rest /\
       iteration_at i l (rest ++ [b]) = Next (S j) event)
  | Break => iteration_at i l (rest ++ [b]) = Break
  | Raise e => iteration_at i l (rest ++ [b]) = Raise e
  end.
Proof.
  intros B. pose proof (ExtractFacts.blank_is_plain b B) as P.
  unfold iteration_at. destruct (is_heading l); [|left; reflexivity].
  rewrite (drop_while_snoc blank rest b B), (take_while_snoc blank rest b B).
  pose proof (ExtractFacts.take_drop_while blank rest) as Er.
  destruct (drop_while blank rest) as [|dl rest2]; [reflexivity|].
  destruct (parse_date dl) as [[sd ed]|x]; [|reflexivity].
  rewrite (take_while_snoc plain rest2 b P).
  pose proof (ExtractFacts.take_drop_while plain rest2) as E2.
  destruct (drop_while plain rest2) as [|h r3]; [right|left; reflexivity].
  rewrite app_nil_r in E2. rewrite E2.
  rewrite map_app. cbn [map]. rewrite (blank_strip b B), separate_snoc_empty.
  rewrite length_app. cbn [length].
  assert (length rest = length (take_while blank rest) + S (length rest2))
    by (rewrite <- Er at 1; rewrite length_app; reflexivity).
  split; [lia|]. f_equal. lia.
Qed.

Lemma parse_loop_step fuel lines i events :
  parse_loop (S fuel) lines i events =
  if i <? length lines then
    match outer_iteration lines i with
    | Next i' None => parse_loop fuel lines i' events
    | Next i' (Some event) => parse_loop fuel lines i' (events ++ [event])
    | Break => Some (Ok events)
    | Raise e => Some (Err e)
    end
  else Some (Ok events).
Proof. reflexivity. Qed.

Lemma parse_loop_snoc lines b :
  blank b = true ->
  forall fuel i events r,
    i <= length lines ->
    parse_loop fuel lines i events = Some r ->
    parse_loop (S fuel) (lines ++ [b]) i events = Some r.
Proof.
  intros B. pose proof (ExtractFacts.blank_is_plain b B) as P.
  unfold plain in P. apply negb_true_iff in P.
  induction fuel as [|fuel IH]; intros i events r Hi; [discriminate|].
  rewrite (parse_loop_step fuel lines), (parse_loop_step (S fuel) (lines ++ [b])).
  rewrite length_app. cbn [length].
  destruct (Nat.ltb_spec i (length lines)) as [Hlt|Hge].
  - destruct (Nat.ltb_spec i (length lines + 1)); [|lia].
    destruct (ExtractFacts.skipn_cons_of i lines Hlt) as (l & _ & E).
    assert (E' : skipn i (lines ++ [b]) = l :: skipn (S i) lines ++ [b])
      by (rewrite skipn_app_le by lia; rewrite E; reflexivity).
    rewrite (ExtractFacts.outer_iteration_at _ _ _ _ E).
    rewrite (ExtractFacts.outer_iteration_at _ _ _ _ E').
    pose proof (iteration_at_snoc i l (skipn (S i) lines) b B) as Sn.
    pose proof (ExtractFacts.length_skipn_cons _ _ _ _ E) as L.
    destruct (iteration_at i l (skipn (S i) lines)) as [j ev| |x] eqn:It.
    + pose proof (ExtractFacts.iteration_at_progress _ _ _ _ _ It) as Pr.
      destruct Sn as [->|[Hj ->]].
      * destruct ev; apply IH; lia.
      * rewrite Hj, <- L. clear Hj Pr It.
        assert (Q : forall acc, parse_loop fuel lines (length lines) acc = Some r ->
                    parse_loop (S fuel) (lines ++ [b]) (S (length lines)) acc = Some r).
        { intros acc. destruct fuel as [|fuel']; [discriminate|].
          rewrite (parse_loop_step fuel' lines),
            (parse_loop_step (S fuel') (lines ++ [b])).
          rewrite length_app. cbn [length].
          destruct (Nat.ltb_spec (length lines) (length lines)); [lia|].
          destruct (Nat.ltb_spec (S (length lines)) (length lines + 1)); [lia|].
          auto. }
        destruct ev; apply Q.
    + rewrite Sn. auto.
    + rewrite Sn. auto.
  - assert (i = length lines) by lia. subst i.
    destruct (Nat.ltb_spec (length lines) (length lines + 1)); [|lia].
    intros [= <-].
    assert (E' : skipn (length lines) (lines ++ [b]) = [b]).
    { pose proof (skipn_app_shift lines [b] 0) as Q.
      rewrite Nat.add_0_r in Q. exact Q. }
    rewrite (ExtractFacts.outer_iteration_at _ _ _ _ E').
    unfold iteration_at. rewrite P.
    rewrite (parse_loop_step fuel (lines ++ [b])).
    rewrite length_app. cbn [length].
    destruct (Nat.ltb_spec (S (length lines)) (length lines + 1)); [lia|].
    reflexivity.
Qed.

Lemma parse_lines_snoc lines b :
  blank b = true -> parse_lines (lines ++ [b]) = parse_lines lines.
Proof.
  intros B.
  destruct (ExtractFacts.parse_loop_total lines (S (length lines)) 0 [])
    as [r R]; [lia|].
  unfold parse_lines. rewrite R, length_app. cbn [length].
  replace (S (length lines + 1)) with (S (S (length lines))) by lia.
  apply (parse_loop_snoc lines b B); [lia|exact R].
Qed.

Lemma parse_lines_blank_tail lines bs :
  Forall (fun b => blank b = true) bs ->
  parse_lines (lines ++ bs) = parse_lines lines.
Proof.
  intros H. revert lines. induction H as [|b bs Hb _ IH]; intros lines.
  - rewrite app_nil_r. reflexivity.
  - change (b :: bs) with ([b] ++ bs). rewrite app_assoc, IH.
    apply parse_lines_snoc, Hb.
Qed.

Lemma split_not_nil c s : split c s <> [].
Proof.
  destruct s as [|a s]; simpl; [discriminate|].
  destruct (Char.eqb a c); [discriminate|].
  destruct (split c s); discriminate.
Qed.

Lemma split_snoc_sep c s : split c (s ++ [c]) = split c s ++ [[]].
Proof.
  induction s as [|a s IH]; simpl.
  - rewrite CharEq.eqb_refl. reflexivity.
  - destruct (Char.eqb a c); [rewrite IH; reflexivity|].
    rewrite IH. pose proof (split_not_nil c s) as N.
    destruct (split c s); [congruence|reflexivity].
Qed.

End LoopFacts.

(** X11.  Lines before the first heading are ignored: for every preamble
    without a heading line, the document gives the events (or the error)
    of the lines after the preamble.  In particular a document without
    any heading line, the empty one included, gives no event and no
    error. *)
Theorem preamble_ignored (pre lines : list str) :
  Forall (fun l => is_heading l = false) pre ->
  parse_lines (pre ++ lines) = parse_lines lines /\
  parse_lines pre = Some (Ok []).
Proof.
  intros H.
  assert (P : Forall (fun l => Spec.plain l = true) pre).
  { eapply Forall_impl; [|exact H]. intros l Hl. unfold Spec.plain.
    rewrite Hl. reflexivity. }
  split; [apply LoopFacts.parse_lines_preamble, P|].
  rewrite <- (app_nil_r pre). rewrite (LoopFacts.parse_lines_preamble pre [] P).
  reflexivity.
Qed.

Lemma preamble_ignored_witness :
  parse_lines ([lit "Events of the year"; lit "#notes"] ++ Examples.launch_lines) =
  parse_lines Examples.launch_lines /\
  parse_lines [lit "Events of the year"; lit "#notes"] = Some (Ok []).
Proof.
  apply (preamble_ignored [lit "Events of the year"; lit "#notes"]
           Examples.launch_lines).
  repeat constructor.
Defined.

(** X12.  Blank lines at the end of a document change nothing: with any
    number of blank lines appended, the extraction pass returns the same
    events or the same error.  So does a final newline in the text of the
    file, which only adds one empty line. *)
Theorem trailing_blank_lines_ignored (lines bs : list str) (content : str) :
  Forall (fun b => Spec.blank b = true) bs ->
  parse_lines (lines ++ bs) = parse_lines lines /\
  parse_markdown (content ++ [nl]) = parse_markdown content.
Proof.
  intros H. split; [apply LoopFacts.parse_lines_blank_tail, H|].
  unfold parse_markdown. rewrite LoopFacts.split_snoc_sep.
  apply LoopFacts.parse_lines_snoc. reflexivity.
Qed.

Lemma trailing_blank_lines_ignored_witness :
  parse_lines (Examples.launch_lines ++ [lit ""; lit "  "]) =
  parse_lines Examples.launch_lines /\
  parse_markdown (lit "# A" ++ [nl]) = parse_markdown (lit "# A").
Proof.
  apply (trailing_blank_lines_ignored Examples.launch_lines [lit ""; lit "  "]
           (lit "# A")).
  repeat constructor.
Defined.

(** X13.  A line is a heading line exactly when its trimmed text is one
    or more hash signs and then a blank; since a trimmed text does not
    end in a blank, more text always follows, and a line of hash signs
    alone or with text right after the hash signs is no heading.  A
    trimmed line is a tag line exactly when it is a hash sign and then a
    letter, digit, hyphen or underscore. *)
Theorem heading_and_tag_line_shapes (l t : str) :
  (is_heading l = true <->
   exists n c r,
     PyStr.strip l = repeat hash (S n) ++ c :: r /\ PyStr.isspace c = true) /\
  (is_heading l = true -> Spec.heading_text l <> []) /\
  (is_tag_line t = true <->
   exists c r, t = hash :: c :: r /\ tag_char c = true).
Proof.
  split; [apply LineFacts.is_heading_iff|].
  split; [apply EventFacts.heading_text_nonempty|].
  apply LineFacts.is_tag_line_iff.
Qed.

Lemma heading_and_tag_line_shapes_witness :
  Spec.heading_text (lit "  ## Later ") <> [].
Proof.
  apply (heading_and_tag_line_shapes (lit "  ## Later ") []). reflexivity.
Defined.

(** ** More on escaping *)

Module EscapeMore.
Import PyStr Spec Vocab.

Lemma escape_html_app a b :
  escape_html (a ++ b) = escape_html a ++ escape_html b.
Proof. unfold escape_html. rewrite !EscapeFacts.replace_app. reflexivity. Qed.

Lemma escape_html_char c : escape_html [c] = html_escape_char c.
Proof.
  unfold html_escape_char.
  destruct (CharEq.eqb_spec c "&") as [->|N1]; [reflexivity|].
  destruct (CharEq.eqb_spec c "<") as [->|N2]; [reflexivity|].
  destruct (CharEq.eqb_spec c ">") as [->|N3]; [reflexivity|].
  destruct (CharEq.eqb_spec c "034") as [->|N4]; [reflexivity|].
  destruct (CharEq.eqb_spec c "'") as [->|N5]; [reflexivity|].
  apply CharEq.eqb_neq in N1, N2, N3, N4, N5.
  unfold escape_html, replace.
  cbn [flat_map app]. rewrite N1.
  cbn [flat_map app]. rewrite N2.
  cbn [flat_map app]. rewrite N3.
  cbn [flat_map app]. rewrite N4.
  cbn [flat_map app]. rewrite N5. reflexivity.
Qed.

Lemma escape_html_chars text :
  escape_html text = flat_map html_escape_char text.
Proof.
  induction text as [|c text IH]; [reflexivity|].
  change (c :: text) with ([c] ++ text).
  rewrite escape_html_app, escape_html_char, IH. reflexivity.
Qed.

Lemma html_escape_char_safe c x :
  In x (html_escape_char c) ->
  ~ In x [ch "<"; ch ">"; ch "034"; ch "'"].
Proof.
  unfold html_escape_char.
  destruct (CharEq.eqb_spec c "&") as [->|N1];
    [|destruct (CharEq.eqb_spec c "<") as [->|N2];
      [|destruct (CharEq.eqb_spec c ">") as [->|N3];
        [|destruct (CharEq.eqb_spec c "034") as [->|N4];
          [|destruct (CharEq.eqb_spec c "'") as [->|N5]]]]];
    cbn [lit list_ascii_of_string map In]; intros H K;
    repeat (destruct H as [<-|H];
            [repeat (destruct K as [K|K]; [discriminate K || congruence|]);
             exact K|]);
    exact H.
Qed.

(** The first character of an escaped text tells the character escaped. *)
Lemma html_escape_char_prefix c d x y :
  html_escape_char c ++ x = html_escape_char d ++ y -> c = d /\ x = y.
Proof.
  unfold html_escape_char.
  destruct (CharEq.eqb_spec c "&"), (CharEq.eqb_spec c "<"),
    (CharEq.eqb_spec c ">"), (CharEq.eqb_spec c "034"), (CharEq.eqb_spec c "'");
  destruct (CharEq.eqb_spec d "&"), (CharEq.eqb_spec d "<"),
    (CharEq.eqb_spec d ">"), (CharEq.eqb_spec d "034"), (CharEq.eqb_spec d "'");
  subst; try discriminate; cbn [lit list_ascii_of_string map app];
  intros H; injection H; intros; subst; try congruence; auto.
Qed.

Lemma html_escape_char_not_nil c : html_escape_char c <> [].
Proof.
  unfold html_escape_char.
  repeat (destruct (Char.eqb _ _); [discriminate|]). discriminate.
Qed.

Lemma flat_map_html_injective a : forall b,
  flat_map html_escape_char a = flat_map html_escape_char b -> a = b.
Proof.
  induction a as [|c a IH]; intros [|d b]; cbn [flat_map]; intros H.
  - reflexivity.
  - pose proof (html_escape_char_not_nil d).
    destruct (html_escape_char d); [congruence|discriminate].
  - pose proof (html_escape_char_not_nil c).
    destruct (html_escape_char c); [congruence|discriminate].
  - apply html_escape_char_prefix in H as [-> H]. f_equal. auto.
Qed.

Lemma unescape_pair d r :
  unescape_ical (ch "\" :: d :: r) =
  (if Char.eqb d "n" then nl else d) :: unescape_ical r.
Proof. reflexivity. Qed.

Lemma unescape_escape text :
  unescape_ical (flat_map ical_escape_char text) = text.
Proof.
  induction text as [|c text IH]; [reflexivity|].
  cbn [flat_map]. unfold ical_escape_char at 1.
  destruct (CharEq.eqb_spec c "\");
    [subst; cbn [lit list_ascii_of_string map app]; rewrite unescape_pair, IH;
     reflexivity|].
  destruct (CharEq.eqb_spec c ",");
    [subst; cbn [lit list_ascii_of_string map app]; rewrite unescape_pair, IH;
     reflexivity|].
  destruct (CharEq.eqb_spec c ";");
    [subst; cbn [lit list_ascii_of_string map app]; rewrite unescape_pair, IH;
     reflexivity|].
  destruct (CharEq.eqb_spec c nl);
    [subst; cbn [lit list_ascii_of_string map app]; rewrite unescape_pair, IH;
     reflexivity|].
  cbn [app unescape_ical].
  destruct (CharEq.eqb_spec c "\"); [contradiction|]. rewrite IH. reflexivity.
Qed.

Lemma ical_escape_char_no_newline c : ~ In nl (ical_escape_char c).
Proof.
  unfold ical_escape_char.
  destruct (CharEq.eqb_spec c "\"); [simpl; intuition discriminate|].
  destruct (CharEq.eqb_spec c ","); [simpl; intuition discriminate|].
  destruct (CharEq.eqb_spec c ";"); [simpl; intuition discriminate|].
  destruct (CharEq.eqb_spec c nl); [simpl; intuition discriminate|].
  simpl. intuition congruence.
Qed.

Lemma escape_no_newline text : free_of nl (escape_ical_text text) = true.
Proof.
  unfold free_of, contains. apply negb_true_iff.
  destruct (existsb _ _) eqn:E; [|reflexivity].
  apply existsb_exists in E as (x & Hx & E). apply CharEq.eqb_eq in E. subst x.
  rewrite EscapeFacts.escape_ical_text_chars in Hx.
  apply in_flat_map in Hx as (c & _ & Hc).
  destruct (ical_escape_char_no_newline c Hc).
Qed.

End EscapeMore.

(** X14.  HTML escaping works character by character: ampersand, angle
    brackets and the two quotes become their entities and nothing else
    changes, the ampersands of the entities themselves are not escaped
    again.  The escaped text holds no angle bracket and no quote, and two
    different texts never escape to the same text. *)
Theorem escape_html_by_character :
  (forall text, escape_html text = flat_map Vocab.html_escape_char text) /\
  (forall text x,
      In x (escape_html text) -> ~ In x [ch "<"; ch ">"; ch "034"; ch "'"]) /\
  (forall a b, escape_html a = escape_html b -> a = b).
Proof.
  split; [apply EscapeMore.escape_html_chars|]. split.
  - intros text x H. rewrite EscapeMore.escape_html_chars in H.
    apply in_flat_map in H as (c & _ & H).
    eapply EscapeMore.html_escape_char_safe, H.
  - intros a b H. rewrite !EscapeMore.escape_html_chars in H.
    apply EscapeMore.flat_map_html_injective, H.
Qed.

Lemma escape_html_by_character_witness :
  ~ In (ch "<") [ch "<"; ch ">"; ch "034"; ch "'"] \/
  ~ In (ch "<") (escape_html (lit "a<b>&c")).
Proof.
  right. intros H.
  destruct escape_html_by_character as (_ & P & _).
  apply (P (lit "a<b>&c") (ch "<") H). left. reflexivity.
Defined.

(** X15.  Calendar escaping loses nothing and never leaves a line break:
    reading an escaped text back, backslash n as a newline and a
    backslash before any other character as that character, gives the
    text again; and the escaped text holds no newline character. *)
Theorem escape_ical_text_reads_back (text : str) :
  Vocab.unescape_ical (escape_ical_text text) = text /\
  Vocab.free_of nl (escape_ical_text text) = true.
Proof.
  split; [|apply EscapeMore.escape_no_newline].
  rewrite EscapeFacts.escape_ical_text_chars.
  apply EscapeMore.unescape_escape.
Qed.

Lemma escape_ical_text_reads_back_witness :
  Vocab.unescape_ical (escape_ical_text (lit "a\b, c;" ++ [nl] ++ lit "d")) =
  lit "a\b, c;" ++ [nl] ++ lit "d".
Proof.
  apply (proj1 (escape_ical_text_reads_back (lit "a\b, c;" ++ [nl] ++ lit "d"))).
Defined.

(** ** The lines of a VEVENT block *)

Module BlockFacts.
Import PyStr Spec Vocab.

Lemma vevent_block e now block :
  vevent e now = Ok block ->
  exists next,
    add_one_day (last_day e) = Ok next /\
    block =
      [lit "BEGIN:VEVENT";
       lit "UID:" ++ strftime_Ymd (start_date e) ++ lit "-" ++
         replace " " (lit "-") (title e) ++ lit "@mdcal";
       lit "DTSTART;VALUE=DATE:" ++ strftime_Ymd (start_date e);
       lit "DTEND;VALUE=DATE:" ++ strftime_Ymd next;
       lit "SUMMARY:" ++ escape_ical_text (title e)] ++
      when (match tags e with [] => false | _ => true end)
        [lit "CATEGORIES:" ++
         join (lit ",") (map escape_ical_text (tags e))] ++
      when (truthy (description e) || truthy (link e))
        [lit "DESCRIPTION:" ++
         escape_ical_text
           (join (lit "\n")
              (when (truthy (description e)) [description e] ++
               when (truthy (link e)) [lit "Link: " ++ link e]))] ++
      when (truthy (link e)) [lit "URL:" ++ link e] ++
      [lit "DTSTAMP:" ++ now; lit "END:VEVENT"].
Proof.
  unfold vevent, last_day.
  destruct (end_date e) as [d|];
    (destruct (add_one_day _) as [next|x]; cbn [bind]; [|discriminate]);
    intros [= <-]; exists next; (split; [reflexivity|]);
    destruct (truthy (description e)), (truthy (link e)); reflexivity.
Qed.

Lemma startswith_prefix p x : startswith (p ++ x) p = true.
Proof.
  induction p as [|c p IH]; [destruct x; reflexivity|].
  simpl. rewrite CharEq.eqb_refl. exact IH.
Qed.


Lemma digits_no_char c s :
  ascii_digit c = false -> forallb ascii_digit s = true -> contains c s = false.
Proof.
  intros Hc Hs. unfold contains.
  destruct (existsb (Char.eqb c) s) eqn:E; [|reflexivity].
  apply existsb_exists in E as (x & Hx & E). apply CharEq.eqb_eq in E. subst x.
  rewrite forallb_forall in Hs. rewrite (Hs c Hx) in Hc. discriminate.
Qed.

Lemma strftime_Ymd_digits d :
  valid_date d = true -> forallb ascii_digit (strftime_Ymd d) = true.
Proof.
  intros V. destruct (CalendarFacts.strftime_Ymd_unpadded d V)
    as (ys & ms & ds & -> & Y & _ & M & D & _).
  unfold numeral in Y, M, D. b2p. rewrite !forallb_app.
  repeat (apply andb_true_iff; split); assumption.
Qed.

End BlockFacts.


(** X16.  A VEVENT block has its optional lines exactly when there is
    something to write: a CATEGORIES line when the event has a tag, a URL
    line when it has a link, a DESCRIPTION line when it has a description
    or a link; the block opens with BEGIN:VEVENT, closes with END:VEVENT
    and has between seven and ten lines. *)
Theorem vevent_optional_lines (e : Event) (now : str) (block : list str) :
  vevent e now = Ok block ->
  Vocab.has_field (lit "CATEGORIES:") block =
    match tags e with [] => false | _ => true end /\
  Vocab.has_field (lit "URL:") block = PyStr.truthy (link e) /\
  Vocab.has_field (lit "DESCRIPTION:") block =
    PyStr.truthy (description e) || PyStr.truthy (link e) /\
  hd_error block = Some (lit "BEGIN:VEVENT") /\
  last block [] = lit "END:VEVENT" /\
  7 <= length block <= 10.
Proof.
  intros H. apply BlockFacts.vevent_block in H as (next & _ & ->).
  destruct (tags e) as [|t ts];
    destruct (PyStr.truthy (description e)), (PyStr.truthy (link e));
    cbn [when app orb]; unfold Vocab.has_field; cbn [existsb];
    rewrite ?BlockFacts.startswith_prefix;
    (split; [reflexivity|]); (split; [reflexivity|]);
    (split; [reflexivity|]); (split; [reflexivity|]);
    (split; [reflexivity|]); cbn [length]; lia.
Qed.

Lemma vevent_optional_lines_witness :
  match vevent Examples.launch (lit "20240101T000000Z") with
  | Ok block => Vocab.has_field (lit "URL:") block = true
  | Err _ => False
  end.
Proof.
  destruct (vevent Examples.launch (lit "20240101T000000Z")) as [block|x] eqn:E.
  - apply (vevent_optional_lines Examples.launch (lit "20240101T000000Z") block E).
  - vm_compute in E. discriminate E.
Defined.



(** X18.  When an event has both a description and a link, its
    DESCRIPTION line is the escaped description, then two backslashes and
    the letter n, then [Link: ] and the escaped link: the separator the
    code joins with is itself escaped, so it reads back as a backslash
    and an n between the two parts, not as a line break. *)
Theorem description_separator_escaped (e : Event) (now : str) (block : list str) :
  description e <> [] -> link e <> [] ->
  vevent e now = Ok block ->
  In (lit "DESCRIPTION:" ++ escape_ical_text (description e) ++
      lit "\\nLink: " ++ escape_ical_text (link e)) block /\
  Vocab.unescape_ical
    (escape_ical_text (description e) ++ lit "\\nLink: " ++
     escape_ical_text (link e)) =
  description e ++ lit "\nLink: " ++ link e.
Proof.
  intros Hd Hl H.
  assert (E : escape_ical_text (description e ++ lit "\nLink: " ++ link e) =
              escape_ical_text (description e) ++ lit "\\nLink: " ++
              escape_ical_text (link e)).
  { rewrite !EscapeFacts.escape_ical_text_app. reflexivity. }
  split.
  - apply BlockFacts.vevent_block in H as (next & _ & ->).
    destruct (description e) as [|c d] eqn:D; [congruence|].
    destruct (link e) as [|c' l] eqn:L; [congruence|].
    rewrite <- E. cbn [PyStr.truthy orb when app].
    destruct (tags e); cbn [when app]; simpl In; auto 10.
  - rewrite <- E, EscapeFacts.escape_ical_text_chars.
    apply EscapeMore.unescape_escape.
Qed.

Lemma description_separator_escaped_witness :
  match vevent Examples.launch (lit "20240101T000000Z") with
  | Ok block =>
      In (lit "DESCRIPTION:Join us\\nLink: https://example.com") block
  | Err _ => False
  end.
Proof.
  destruct (vevent Examples.launch (lit "20240101T000000Z")) as [block|x] eqn:E.
  - apply (description_separator_escaped Examples.launch
             (lit "20240101T000000Z") block); [discriminate|discriminate|exact E].
  - vm_compute in E. discriminate E.
Defined.

(** X19.  Events already in ascending order of start date are rendered in
    the order they were extracted, and sorting twice is sorting once. *)
Theorem sorted_events_fixes_sorted (events : list Event) :
  (StronglySorted Spec.by_start events -> sorted_events events = events) /\
  sorted_events (sorted_events events) = sorted_events events.
Proof.
  assert (F : forall l, StronglySorted Spec.by_start l -> sorted_events l = l).
  { induction 1 as [|e l Hl IH He]; [reflexivity|].
    cbn [sorted_events fold_right]. fold (sorted_events l). rewrite IH.
    destruct l as [|x l]; [reflexivity|].
    inversion He as [|? ? Hx _]; subst. cbn [insert_event].
    unfold Spec.by_start in Hx. rewrite Hx. reflexivity. }
  split; [apply F|]. apply F, SortFacts.sorted_events_sorted.
Qed.

Lemma sorted_events_fixes_sorted_witness :
  sorted_events [Examples.launch; Examples.party] =
  [Examples.launch; Examples.party].
Proof.
  apply (proj1 (sorted_events_fixes_sorted [Examples.launch; Examples.party])).
  repeat constructor.
Defined.

(** ** The tag filter *)

Module TagSetFacts.
Import PyStr Spec Vocab.

Lemma str_ltb_irrefl a : str_ltb a a = false.
Proof.
  induction a as [|x a IH]; [reflexivity|].
  cbn [str_ltb]. rewrite IH, N.ltb_irrefl, andb_false_r. reflexivity.
Qed.

Lemma str_ltb_trans a : forall b c,
  str_ltb a b = true -> str_ltb b c = true -> str_ltb a c = true.
Proof.
  induction a as [|x a IH]; intros [|y b] [|z c]; cbn [str_ltb];
    try discriminate; try reflexivity.
  intros H1 H2.
  apply orb_true_iff in H1 as [H1|H1]; apply orb_true_iff in H2 as [H2|H2];
    b2p; apply orb_true_iff.
  - left. p2b. lia.
  - left. p2b. lia.
  - left. p2b. lia.
  - right. p2b; [lia|]. eapply IH; eassumption.
Qed.

Lemma str_ltb_total a : forall b,
  str_ltb a b = false -> str_ltb b a = false -> a = b.
Proof.
  induction a as [|x a IH]; intros [|y b]; cbn [str_ltb];
    try discriminate; [reflexivity|].
  intros H1 H2.
  apply orb_false_iff in H1 as [L1 E1]. apply orb_false_iff in H2 as [L2 E2].
  apply N.ltb_ge in L1, L2.
  assert (C : code x = code y) by lia.
  rewrite C, N.eqb_refl in E1, E2. cbn [andb] in E1, E2.
  apply CharFacts.code_inj in C. subst y. f_equal. auto.
Qed.

Lemma insert_tag_in t l x : In x (insert_tag t l) <-> x = t \/ In x l.
Proof.
  induction l as [|a l IH]; cbn [insert_tag].
  - simpl. intuition.
  - destruct (str_ltb t a) eqn:E1; [simpl; intuition|].
    destruct (str_ltb a t) eqn:E2.
    + simpl. rewrite IH. intuition.
    + pose proof (str_ltb_total t a E1 E2). subst a. simpl. intuition.
Qed.

Lemma insert_tag_sorted t l :
  StronglySorted str_lt l -> StronglySorted str_lt (insert_tag t l).
Proof.
  induction 1 as [|a l Hl IH Ha]; cbn [insert_tag]; [repeat constructor|].
  destruct (str_ltb t a) eqn:E1.
  - constructor; [constructor; assumption|].
    constructor; [exact E1|].
    eapply Forall_impl; [|exact Ha]. intros y Hy.
    eapply str_ltb_trans; eassumption.
  - destruct (str_ltb a t) eqn:E2; [|constructor; assumption].
    constructor; [exact IH|].
    apply Forall_forall. intros y Hy. apply insert_tag_in in Hy as [->|Hy].
    + exact E2.
    + rewrite Forall_forall in Ha. auto.
Qed.

Lemma sorted_set_sorted ts : StronglySorted str_lt (sorted_set ts).
Proof.
  induction ts as [|t ts IH]; [constructor|].
  apply insert_tag_sorted, IH.
Qed.

Lemma sorted_set_in ts x : In x (sorted_set ts) <-> In x ts.
Proof.
  induction ts as [|t ts IH]; [reflexivity|].
  cbn [sorted_set fold_right]. fold (sorted_set ts).
  rewrite insert_tag_in, IH. simpl. intuition.
Qed.

Lemma sorted_no_dup l : StronglySorted str_lt l -> NoDup l.
Proof.
  induction 1 as [|a l Hl IH Ha]; constructor; [|exact IH].
  intros I. rewrite Forall_forall in Ha. apply Ha in I.
  unfold str_lt in I. rewrite str_ltb_irrefl in I. discriminate.
Qed.

Lemma all_tags_in events t :
  In t (all_tags events) <-> exists e, In e events /\ In t (tags e).
Proof.
  unfold all_tags. rewrite sorted_set_in, in_flat_map.
  pose proof (SortFacts.sorted_events_perm events) as P.
  split; intros (e & He & Ht); exists e; (split; [|exact Ht]).
  - eapply Permutation_in; eassumption.
  - eapply Permutation_in; [symmetry; exact P|exact He].
Qed.

End TagSetFacts.

(** X20.  The tags of the filter bar are the tags of the events, each
    distinct tag once, in ascending order of their characters; the
    filter bar is empty exactly when no event has a tag. *)
Theorem tag_filter_universe (events : list Event) :
  StronglySorted Vocab.str_lt (all_tags events) /\
  NoDup (all_tags events) /\
  (forall t, In t (all_tags events) <->
             exists e, In e events /\ In t (tags e)) /\
  (filter_tags_html events = [] <-> Forall (fun e => tags e = []) events).
Proof.
  pose proof (TagSetFacts.sorted_set_sorted
                (flat_map tags (sorted_events events))) as S.
  split; [exact S|]. split; [apply TagSetFacts.sorted_no_dup, S|].
  split; [apply TagSetFacts.all_tags_in|].
  unfold filter_tags_html.
  pose proof (TagSetFacts.all_tags_in events) as I.
  destruct (all_tags events) as [|t ts].
  - split; [intros _|reflexivity].
    apply Forall_forall. intros e He.
    destruct (tags e) as [|x xs] eqn:T; [reflexivity|].
    destruct (proj2 (I x)). exists e. rewrite T. simpl. auto.
  - split; [intros H; apply (f_equal (@length char)) in H; simpl in H;
            discriminate H|].
    intros F. destruct (proj1 (I t) (or_introl eq_refl)) as (e & He & Ht).
    rewrite Forall_forall in F. rewrite (F e He) in Ht. destruct Ht.
Qed.

Lemma tag_filter_universe_witness :
  all_tags [Examples.party; Examples.launch; Examples.launch] =
    [lit "rocket"; lit "space"] /\
  filter_tags_html [Examples.party; Examples.conference] = [].
Proof.
  split; [reflexivity|].
  apply (proj2 (proj2 (proj2
    (tag_filter_universe [Examples.party; Examples.conference])))).
  repeat constructor.
Defined.

(** ** Lines and text *)

Module TextFacts.
Import PyStr Spec Vocab.

Lemma join_split c s : join [c] (split c s) = s.
Proof.
  induction s as [|a s IH]; [reflexivity|].
  cbn [split]. pose proof (LoopFacts.split_not_nil c s) as N.
  destruct (CharEq.eqb_spec a c) as [->|Ha].
  - destruct (split c s) as [|p ps]; [congruence|].
    change (join [c] ([] :: p :: ps)) with (c :: join [c] (p :: ps)).
    rewrite IH. reflexivity.
  - destruct (split c s) as [|p ps]; [congruence|].
    rewrite <- IH. destruct ps; reflexivity.
Qed.

Lemma split_free c s : Forall (fun l => free_of c l = true) (split c s).
Proof.
  induction s as [|a s IH]; [repeat constructor|].
  cbn [split]. destruct (CharEq.eqb_spec a c) as [->|Ha].
  - constructor; [reflexivity|exact IH].
  - destruct (split c s) as [|p ps]; [repeat constructor|].
    + unfold free_of, contains. cbn [existsb].
      replace (Char.eqb c a) with false; [reflexivity|].
      symmetry. apply CharEq.eqb_neq. congruence.
    + inversion IH as [|? ? Hp Hps]; subst. constructor; [|exact Hps].
      unfold free_of, contains in *. cbn [existsb].
      replace (Char.eqb c a) with false; [exact Hp|].
      symmetry. apply CharEq.eqb_neq. congruence.
Qed.

Lemma free_of_app c a b :
  free_of c (a ++ b) = free_of c a && free_of c b.
Proof.
  unfold free_of. rewrite DateMore.contains_app. apply negb_orb.
Qed.

Lemma free_of_strip c s : free_of c s = true -> free_of c (strip s) = true.
Proof.
  unfold free_of. intros H. apply negb_true_iff in H. apply negb_true_iff.
  apply PyStrFacts.contains_false_strip, H.
Qed.

Lemma free_of_lstrip c p s :
  free_of c s = true -> free_of c (lstrip_by p s) = true.
Proof.
  unfold free_of. intros H. apply negb_true_iff in H. apply negb_true_iff.
  destruct (contains c (lstrip_by p s)) eqn:E; [|reflexivity].
  apply PyStrFacts.contains_lstrip_by in E. congruence.
Qed.

Lemma free_of_digits s :
  forallb ascii_digit s = true -> free_of nl s = true.
Proof.
  intros H. unfold free_of.
  rewrite (BlockFacts.digits_no_char nl s eq_refl H). reflexivity.
Qed.

Lemma free_of_replace c x new s :
  free_of c new = true -> free_of c s = true ->
  free_of c (replace x new s) = true.
Proof.
  intros Hn. unfold replace. induction s as [|a s IH]; [reflexivity|].
  change (a :: s) with ([a] ++ s). rewrite free_of_app. intros H.
  apply andb_true_iff in H as [Ha Hs].
  cbn [flat_map app]. rewrite free_of_app, (IH Hs), andb_true_r.
  destruct (Char.eqb a x); assumption.
Qed.

Lemma free_of_join c sep ls :
  free_of c sep = true ->
  Forall (fun l => free_of c l = true) ls ->
  free_of c (join sep ls) = true.
Proof.
  intros Hs. induction 1 as [|l ls Hl Hls IH]; [reflexivity|].
  destruct ls as [|m ls]; [exact Hl|].
  change (join sep (l :: m :: ls)) with (l ++ sep ++ join sep (m :: ls)).
  rewrite !free_of_app, Hl, Hs, IH. reflexivity.
Qed.

(** No line of the block of an event breaks, when its title, its link and
    the time stamp hold no newline. *)
Lemma vevent_lines_free e now block :
  valid_event e = true ->
  free_of nl (title e) = true -> free_of nl (link e) = true ->
  free_of nl now = true ->
  vevent e now = Ok block ->
  Forall (fun l => free_of nl l = true) block.
Proof.
  intros V Ht Hl Hn H.
  apply BlockFacts.vevent_block in H as (next & A & ->).
  assert (Vs : valid_date (start_date e) = true)
    by (unfold valid_event in V; apply andb_true_iff in V; tauto).
  pose proof (RenderMore.valid_last_day e V) as Vl.
  destruct (CalendarFacts.add_one_day_next _ _ Vl A) as [Vn _].
  pose proof (free_of_digits _ (BlockFacts.strftime_Ymd_digits _ Vs)) as Ds.
  pose proof (free_of_digits _ (BlockFacts.strftime_Ymd_digits _ Vn)) as Dn.
  assert (Hc : free_of nl (join (lit ",") (map escape_ical_text (tags e))) = true).
  { apply free_of_join; [reflexivity|]. apply Forall_forall. intros x Hx.
    apply in_map_iff in Hx as (t & <- & _). apply EscapeMore.escape_no_newline. }
  repeat (apply Forall_app; split);
    repeat match goal with
    | |- Forall _ (when ?b _) => destruct b; cbn [when]
    | |- Forall _ (_ :: _) => constructor
    | |- Forall _ [] => constructor
    end;
    rewrite ?free_of_app, ?Ds, ?Dn, ?Hc, ?Hn, ?Hl,
      ?EscapeMore.escape_no_newline,
      ?(free_of_replace nl " " (lit "-") (title e) eq_refl Ht);
    reflexivity.
Qed.

Lemma event_text_free lines events :
  Forall (fun l => free_of nl l = true) lines ->
  parse_lines lines = Some (Ok events) ->
  Forall (fun e => free_of nl (title e) = true /\ free_of nl (link e) = true)
    events.
Proof.
  intros F H. unfold parse_lines in H.
  eapply ExtractFacts.parse_loop_forall; [|constructor|exact H].
  intros i i' e E.
  apply EventFacts.event_fields in E
    as (h & dl & body & Hh & _ & _ & Hb & T & _ & _ & L & _).
  rewrite Forall_forall in F. split.
  - rewrite T. unfold heading_text, lstrip_char.
    apply free_of_strip, free_of_lstrip, free_of_strip, F, Hh.
  - rewrite L, ExtractFacts.separate_eq. cbn [b_link].
    destruct (EventFacts.last_in_or_default
                (of_category Link (map strip body)) []) as [[-> _]|I];
      [reflexivity|].
    unfold of_category in I at 2. apply filter_In in I as [I _].
    apply in_map_iff in I as (l & <- & Il). apply free_of_strip, F, Hb, Il.
Qed.

Lemma blocks_free events : forall blocks clock,
  Forall (fun e => valid_event e = true /\ free_of nl (title e) = true /\
                   free_of nl (link e) = true) events ->
  (forall k, free_of nl (clock k) = true) ->
  forall k out,
    vevents events clock k = Ok out ->
    blocks = out ->
    Forall (fun l => free_of nl l = true) blocks.
Proof.
  induction events as [|e events IH]; intros blocks clock F C k out; cbn [vevents].
  - intros [= <-] ->. constructor.
  - inversion F as [|? ? (V & Ht & Hl) Fs]; subst.
    destruct (vevent e (clock k)) as [b|x] eqn:B; cbn [bind]; [|discriminate].
    destruct (vevents events clock (S k)) as [bs|x] eqn:R; cbn [bind];
      [|discriminate].
    intros [= <-] ->. apply Forall_app. split.
    + exact (vevent_lines_free e (clock k) b V Ht Hl (C k) B).
    + exact (IH bs clock Fs C (S k) bs R eq_refl).
Qed.

End TextFacts.

(** X21.  Cutting a text at a separator and joining the pieces with it
    gives the text again, and no piece holds the separator; the other way
    round, pieces without the separator, at least one, joined and cut
    again are the same pieces.  This is how the file is cut into lines at
    newlines and how the calendar lines and the comma-joined tags are put
    together. *)
Theorem split_join_round_trip (c : char) :
  (forall s, PyStr.join [c] (PyStr.split c s) = s) /\
  (forall s, Forall (fun l => Vocab.free_of c l = true) (PyStr.split c s)) /\
  (forall ls,
      ls <> [] -> Forall (fun l => Vocab.free_of c l = true) ls ->
      PyStr.split c (PyStr.join [c] ls) = ls).
Proof.
  split; [apply TextFacts.join_split|].
  split; [apply TextFacts.split_free|].
  intros ls N F. apply EscapeFacts.split_join; [exact N|].
  eapply Forall_impl; [|exact F]. intros l H.
  unfold Vocab.free_of in H. apply negb_true_iff in H. exact H.
Qed.

Lemma split_join_round_trip_witness :
  PyStr.split nl (PyStr.join [nl] [lit "BEGIN:VCALENDAR"; lit "END:VCALENDAR"]) =
  [lit "BEGIN:VCALENDAR"; lit "END:VCALENDAR"].
Proof.
  apply (proj2 (proj2 (split_join_round_trip nl))).
  - discriminate.
  - repeat constructor.
Defined.

(** X22.  The calendar file of the events of a text file, read line by
    line, is the five header lines, the blocks of the events in sorted
    order and the closing line: when the time stamps hold no newline, no
    title, link, tag or description of an extracted event breaks a line
    of the file. *)
Theorem calendar_file_lines (content : str) (events : list Event)
  (clock : nat -> str) (out : str) :
  parse_markdown content = Some (Ok events) ->
  (forall k, Vocab.free_of nl (clock k) = true) ->
  generate_ical events clock = Ok out ->
  exists blocks,
    Forall2 Spec.block_of (sorted_events events) blocks /\
    PyStr.split nl out =
    ical_header ++ concat blocks ++ [lit "END:VCALENDAR"].
Proof.
  unfold parse_markdown. intros P C G.
  pose proof (EventFacts.events_valid _ _ P) as V.
  pose proof (TextFacts.event_text_free _ _ (TextFacts.split_free nl content) P)
    as T.
  assert (F : Forall (fun e => Spec.valid_event e = true /\
                               Vocab.free_of nl (title e) = true /\
                               Vocab.free_of nl (link e) = true)
                (sorted_events events)).
  { eapply Permutation_Forall;
      [symmetry; apply SortFacts.sorted_events_perm|].
    rewrite Forall_forall in *. intros e He.
    destruct (T e He). auto. }
  unfold generate_ical in G.
  destruct (vevents (sorted_events events) clock 0) as [bs|x] eqn:R;
    cbn [bind] in G; [|discriminate].
  assert (E : out = PyStr.join [nl]
                      (ical_header ++ bs ++ [lit "END:VCALENDAR"]))
    by (injection G as <-; reflexivity).
  clear G. subst out.
  pose proof (TextFacts.blocks_free _ bs clock F C 0 bs R eq_refl) as Fb.
  apply SortFacts.vevents_blocks in R as (blocks & F2 & ->).
  exists blocks. split; [exact F2|].
  apply EscapeFacts.split_join; [discriminate|].
  assert (K : Forall (fun l => Vocab.free_of nl l = true)
                (ical_header ++ concat blocks ++ [lit "END:VCALENDAR"])).
  { apply Forall_app. split; [repeat constructor|].
    apply Forall_app. split; [exact Fb|repeat constructor]. }
  eapply Forall_impl; [|exact K]. intros l H.
  unfold Vocab.free_of in H. apply negb_true_iff in H. exact H.
Qed.

Lemma calendar_file_lines_witness :
  match generate_ical [Examples.launch] (fun _ => lit "20240101T000000Z") with
  | Ok out =>
      exists blocks,
        Forall2 Spec.block_of (sorted_events [Examples.launch]) blocks /\
        PyStr.split nl out =
        ical_header ++ concat blocks ++ [lit "END:VCALENDAR"]
  | Err _ => False
  end.
Proof.
  destruct (generate_ical [Examples.launch] (fun _ => lit "20240101T000000Z"))
    as [out|x] eqn:E.
  - apply (calendar_file_lines
             (PyStr.join [nl] Examples.launch_lines) [Examples.launch]
             (fun _ => lit "20240101T000000Z") out);
      [reflexivity|reflexivity|exact E].
  - vm_compute in E. discriminate E.
Defined.
